(** * AirDrop: gate evaluation, artifact matching, link extraction, comment
      composition and the dispatch endpoint

    A shallow embedding of the decision logic of [post-qa.js],
    [sharepoint.js] and [api/dispatch.js], with the properties the
    specification states about them.

    The repository holds several revisions of each file.  They are kept
    apart by modules:
    - [SharepointA]: [sharepoint.js] as in [src/sharepoint.js]
      (own [norm], every sheet flattened to CSV);
    - [SharepointB]: [sharepoint.js] as in [src/unnamed/part_000]
      ([normalize], [findTaskSubfolder], one selected sheet);
    - [PostQa]: [post-qa.js] as in [src/unnamed/part_001] and the second
      half of [src/unnamed/part_002] (normalized gate, re-check, draft mode);
    - [Dispatch]: the three revisions of [api/dispatch.js];
    - [PostQaMore], [Pipeline]: [parseTaskId] and steps 2 to 6 of [run] in
      the second half of [src/unnamed/part_002];
    - [ShareId]: the share id both revisions of [sharepoint.js] compute. *)

From Stdlib Require Import String Ascii DecimalString.
From Stdlib Require Import NArith ZArith Bool Lia List.
Import ListNotations.

Set Implicit Arguments.

(** ** JavaScript strings

    A JavaScript string is a sequence of UTF-16 code units. *)

Module JsString.

Open Scope N_scope.

Definition jsstring : Type := list N.

(** The code units of an ASCII literal. *)
Definition js (s : string) : jsstring :=
  map N_of_ascii (list_ascii_of_string s).

Fixpoint str_eqb (a b : jsstring) : bool :=
  match a, b with
  | [], [] => true
  | x :: a', y :: b' => (x =? y) && str_eqb a' b'
  | _, _ => false
  end.

(** [s || d] on a string operand: the empty string is falsy. *)
Definition truthy (s : jsstring) : bool :=
  match s with [] => false | _ => true end.

(** *** Character classes of the regular expressions *)

Definition is_digit (c : N) : bool := (48 <=? c) && (c <=? 57).
Definition is_upper (c : N) : bool := (65 <=? c) && (c <=? 90).
Definition is_lower (c : N) : bool := (97 <=? c) && (c <=? 122).

(** [\w], without the [u] flag: [[A-Za-z0-9_]]. *)
Definition is_word (c : N) : bool :=
  is_upper c || is_lower c || is_digit c || (c =? 95).

(** [\s], which is also the set [String.prototype.trim] removes:
    WhiteSpace and LineTerminator code points. *)
Definition is_space (c : N) : bool :=
  (9 <=? c) && (c <=? 13) || (c =? 32) || (c =? 160) || (c =? 0x1680)
  || (0x2000 <=? c) && (c <=? 0x200a) || (c =? 0x2028) || (c =? 0x2029)
  || (c =? 0x202f) || (c =? 0x205f) || (c =? 0x3000) || (c =? 0xfeff).

(** *** [String.prototype.toLowerCase]

    Exact on every code unit whose lower-case image contains an ASCII
    character: [A-Z], U+0130 (dotted capital I, which becomes [i] followed
    by U+0307) and U+212A (Kelvin sign, which becomes [k]).  Every other
    code unit is kept: its image is the unit itself or another non-ASCII
    letter, and the code below either strips non-ASCII letters or compares
    the result with an ASCII literal (or, in [findCustomField], with the
    lower-cased name of a configured field, which is ASCII in every
    revision of [CONFIG]). *)
Definition toLowerCase1 (c : N) : list N :=
  if is_upper c then [c + 32]
  else if c =? 0x130 then [105; 0x307]
  else if c =? 0x212A then [107]
  else [c].

Definition toLowerCase (s : jsstring) : jsstring := flat_map toLowerCase1 s.

(** Case-insensitive comparison of one code unit under the [i] flag
    (no [u] flag): only ASCII letters have two cases. *)
Definition fold_ci (c : N) : N := if is_upper c then c + 32 else c.
Definition eq_ci (a b : N) : bool := fold_ci a =? fold_ci b.

(** *** [trim] *)

Fixpoint trimStart (s : jsstring) : jsstring :=
  match s with
  | [] => []
  | c :: r => if is_space c then trimStart r else s
  end.

Fixpoint trimEnd (s : jsstring) : jsstring :=
  match s with
  | [] => []
  | c :: r =>
      match trimEnd r with
      | [] => if is_space c then [] else [c]
      | r' => c :: r'
      end
  end.

Definition trim (s : jsstring) : jsstring := trimEnd (trimStart s).

(** *** [startsWith], [includes], suffix tests *)

Fixpoint startsWith (s p : jsstring) : bool :=
  match p, s with
  | [], _ => true
  | x :: p', y :: s' => (x =? y) && startsWith s' p'
  | _ :: _, [] => false
  end.

(** A literal matched at the head of [s] under the [i] flag. *)
Fixpoint startsWith_ci (s p : jsstring) : bool :=
  match p, s with
  | [], _ => true
  | x :: p', y :: s' => eq_ci x y && startsWith_ci s' p'
  | _ :: _, [] => false
  end.

Fixpoint includes (s p : jsstring) : bool :=
  startsWith s p || match s with [] => false | _ :: r => includes r p end.

Fixpoint includes_ci (s p : jsstring) : bool :=
  startsWith_ci s p || match s with [] => false | _ :: r => includes_ci r p end.

Definition endsWith (s p : jsstring) : bool :=
  str_eqb (skipn (length s - length p) s) p && (length p <=? length s)%nat.

Definition endsWith_ci (s p : jsstring) : bool :=
  let t := skipn (length s - length p) s in
  (length t =? length p)%nat && startsWith_ci t p.

(** The string without its last [n] code units. *)
Definition dropEnd (n : nat) (s : jsstring) : jsstring :=
  firstn (length s - n) s.

(** [s.replace(/[C]+/g, ' ')] for a character class [C]: every maximal run
    of class members becomes one space. *)
Fixpoint collapse_runs (cls : N -> bool) (in_run : bool) (s : jsstring)
  : jsstring :=
  match s with
  | [] => []
  | c :: r =>
      if cls c
      then if in_run then collapse_runs cls true r
           else 32 :: collapse_runs cls true r
      else c :: collapse_runs cls false r
  end.

(** [s.replace(/[^K]/g, '')] and [s.replace(/[^K]+/g, '')]: only the
    members of [K] stay. *)
Definition keep_only (keep : N -> bool) (s : jsstring) : jsstring :=
  filter keep s.

(** [String(n)] for a natural number. *)
Definition String_of_nat (n : nat) : jsstring :=
  js (NilEmpty.string_of_uint (Nat.to_uint n)).

End JsString.
Import JsString.

(** ** The text normalizers *)

(** [normalize] of [post-qa.js] and of [sharepoint.js] (part_000):
    [String(s).toLowerCase().replace(/\s+/g, " ").replace(/[^\w\s]/g, "").trim()]. *)
Definition normalize (s : jsstring) : jsstring :=
  trim
    (keep_only (fun c => is_word c || is_space c)
       (collapse_runs is_space false (toLowerCase s))).

(** [c.replace(/[\u2013\u2014]/g, '-')] on one code unit: en and em dash
    become a hyphen. *)
Definition dashfold (c : N) : N :=
  if (c =? 0x2013)%N || (c =? 0x2014)%N then 45%N else c.

(** [norm] inside [findExcelForTask] of [src/sharepoint.js]. *)
Definition norm (s : jsstring) : jsstring :=
  trim
    (keep_only (fun c => is_word c || (c =? 46)%N || (c =? 45)%N || (c =? 32)%N)
       (collapse_runs (fun c => (c =? 95)%N || is_space c) false
          (map dashfold (toLowerCase s)))).

(** ** Regular expressions of the repository *)

Module Regex.

Fixpoint takeWhile (p : N -> bool) (s : jsstring) : jsstring :=
  match s with
  | [] => []
  | c :: r => if p c then c :: takeWhile p r else []
  end.

(** [/\.xlsx?$/i.test(n)] *)
Definition isExcel (n : jsstring) : bool :=
  endsWith_ci n (js ".xlsx") || endsWith_ci n (js ".xls").

(** [s.replace(/\.xlsx?$/, '')] *)
Definition strip_xlsx (s : jsstring) : jsstring :=
  if endsWith s (js ".xlsx") then dropEnd 5 s
  else if endsWith s (js ".xls") then dropEnd 4 s
  else s.

(** [n.replace(/\.(xlsx?|XLSX?)$/, '')] *)
Definition strip_xlsx_raw (n : jsstring) : jsstring :=
  if endsWith n (js ".xlsx") || endsWith n (js ".XLSX") then dropEnd 5 n
  else if endsWith n (js ".xls") || endsWith n (js ".XLS") then dropEnd 4 n
  else n.

(** [/preview/i.test(n)] *)
Definition has_preview (n : jsstring) : bool := includes_ci n (js "preview").

(** [/^qa(?:\s*\(dev\))?$/i.test(s)] *)
Fixpoint skip_spaces (s : jsstring) : jsstring :=
  match s with
  | [] => []
  | c :: r => if is_space c then skip_spaces r else s
  end.

Definition qa_dev_test (s : jsstring) : bool :=
  startsWith_ci s (js "qa")
  && let r := skipn 2 s in
     match r with
     | [] => true
     | _ => let r' := skip_spaces r in
            startsWith_ci r' (js "(dev)") && (length r' =? 5)%nat
     end.

(** *** The preview-URL pattern

    [/\bhttps?:\/\/[^\s)]+?(?:convert_action=convert_vpreview|convert_e=\d{6,}|convert_v=\d{6,})[^\s)]*/gi] *)

(** [[^\s)]] *)
Definition tokc (c : N) : bool := negb (is_space c) && negb (c =? 41)%N.

(** [\d{6,}] at the head of [s]. *)
Definition digits6 (s : jsstring) : bool :=
  (6 <=? length (takeWhile is_digit s))%nat.

(** One of the three query-parameter signatures at the head of [s]. *)
Definition sig_at (s : jsstring) : bool :=
  startsWith_ci s (js "convert_action=convert_vpreview")
  || startsWith_ci s (js "convert_e=") && digits6 (skipn 10 s)
  || startsWith_ci s (js "convert_v=") && digits6 (skipn 10 s).

(** [[^\s)]+?] followed by a signature: the lazy quantifier takes one
    more character each time the signature fails. *)
Fixpoint lazy_sig (s : jsstring) : bool :=
  match s with
  | [] => false
  | c :: r => tokc c && (sig_at r || lazy_sig r)
  end.

(** [https?:\/\/] at the head of [s]: the number of code units it takes. *)
Definition scheme_len (s : jsstring) : option nat :=
  if startsWith_ci s (js "https://") then Some 8%nat
  else if startsWith_ci s (js "http://") then Some 7%nat
  else None.

(** [\b] before a word character holds when the previous code unit is
    absent or is not a word character. *)
Definition boundary (prev : option N) : bool :=
  match prev with Some p => negb (is_word p) | None => true end.

(** The match that starts exactly at the head of [s], [prev] being the
    code unit before it.  The trailing [[^\s)]*] is greedy, so a match runs
    to the end of the token. *)
Definition preview_at (prev : option N) (s : jsstring) : option jsstring :=
  if boundary prev then
    match scheme_len s with
    | Some n =>
        let r := skipn n s in
        if lazy_sig r then Some (firstn n s ++ takeWhile tokc r) else None
    | None => None
    end
  else None.

(** [/\bhttps?:\/\/[^\s)]+/gi]: any URL. *)
Definition url_at (prev : option N) (s : jsstring) : option jsstring :=
  if boundary prev then
    match scheme_len s with
    | Some n =>
        let r := skipn n s in
        match takeWhile tokc r with
        | [] => None
        | t => Some (firstn n s ++ t)
        end
    | None => None
    end
  else None.

(** [text.match(re) || []] for a global pattern [re] whose matches are never
    empty: the scan restarts where the previous match ended.  [skip] counts
    the code units of the current match still to pass. *)
Fixpoint match_all (at_ : option N -> jsstring -> option jsstring)
    (prev : option N) (skip : nat) (s : jsstring) : list jsstring :=
  match s with
  | [] => []
  | c :: r =>
      match skip with
      | S k => match_all at_ (Some c) k r
      | O =>
          match at_ prev s with
          | Some m => m :: match_all at_ (Some c) (length m - 1) r
          | None => match_all at_ (Some c) 0 r
          end
      end
  end.

Definition match_preview (text : jsstring) : list jsstring :=
  match_all preview_at None 0 text.

Definition match_urls (text : jsstring) : list jsstring :=
  match_all url_at None 0 text.

End Regex.

(** ** [Set] of strings

    A JavaScript [Set] keeps its elements in insertion order; adding an
    element it already holds changes nothing. *)

Module JsSet.

Definition t : Type := list jsstring.

Definition empty : t := [].

Definition has (s : t) (x : jsstring) : bool := existsb (str_eqb x) s.

Definition add (s : t) (x : jsstring) : t :=
  if has s x then s else s ++ [x].

(** [new Set(l)] *)
Definition of_array (l : list jsstring) : t := fold_left add l empty.

(** [[...s]] and [Array.from(s)] *)
Definition to_array (s : t) : list jsstring := s.

End JsSet.

(** ** Spreadsheets

    The workbook as [XLSX.read] returns it: the sheet names in workbook
    order and the sheet of each name. *)

Module Xlsx.

Record workbook (Sheet : Type) : Type := {
  SheetNames : list jsstring;
  Sheets : jsstring -> Sheet
}.

(** A raw cell value of [sheet_to_json(ws, { header: 1 })]. *)
Inductive cell : Type :=
| CEmpty                     (* a hole, [undefined] or [null] *)
| CText (s : jsstring)
| CNumber (z : Z)
| CBool (b : bool).

Definition String_of_Z (z : Z) : jsstring :=
  match z with
  | Zneg _ => js "-" ++ String_of_nat (Z.to_nat (- z))
  | _ => String_of_nat (Z.to_nat z)
  end.

(** [String(cell ?? '')] *)
Definition cell_text (c : cell) : jsstring :=
  match c with
  | CEmpty => []
  | CText s => s
  | CNumber z => String_of_Z z
  | CBool true => js "true"
  | CBool false => js "false"
  end.

(** The rows of cells of a sheet, as [sheet_to_json] with [header: 1] and
    [blankrows: false] gives them. *)
Definition grid : Type := list (list cell).

End Xlsx.

(** ** [sharepoint.js], revision of [src/sharepoint.js] *)

Module SharepointA.

(** An element of the array [listFolderItems] returns. *)
Record FolderEntry : Type := {
  id : jsstring;
  driveId : jsstring;
  name : jsstring;
  size : N;
  mime : jsstring;
  webUrl : jsstring;
  isFolder : bool
}.

Definition isSheet (f : FolderEntry) : bool :=
  negb (isFolder f) && Regex.isExcel (name f).

Definition exact (base : jsstring) (f : FolderEntry) : bool :=
  str_eqb (Regex.strip_xlsx (norm (name f))) base.

Definition starts (base : jsstring) (f : FolderEntry) : bool :=
  startsWith (norm (name f)) (base ++ js " ").

Definition preview (f : FolderEntry) : bool := Regex.has_preview (name f).

Definition findExcelForTask (items : list FolderEntry) (taskTitle : jsstring)
  : option FolderEntry :=
  let base := norm taskTitle in
  match find (fun f => negb (isFolder f) && Regex.isExcel (name f)
                       && str_eqb (Regex.strip_xlsx (norm (name f))) base)
             items with
  | Some exact => Some exact
  | None =>
  match find (fun f => negb (isFolder f) && Regex.isExcel (name f)
                       && startsWith (norm (name f)) (base ++ js " "))
             items with
  | Some starts => Some starts
  | None =>
  match find (fun f => negb (isFolder f) && Regex.isExcel (name f)
                       && Regex.has_preview (name f))
             items with
  | Some preview => Some preview
  | None =>
      find (fun f => negb (isFolder f) && Regex.isExcel (name f)) items
  end end end.

(** [getImageFiles] with its default extension pattern
    [/\.(png|jpe?g|webp|gif)$/i]. *)
Definition isImageName (n : jsstring) : bool :=
  endsWith_ci n (js ".png") || endsWith_ci n (js ".jpg")
  || endsWith_ci n (js ".jpeg") || endsWith_ci n (js ".webp")
  || endsWith_ci n (js ".gif").

Definition getImageFiles (items : list FolderEntry) : list FolderEntry :=
  filter (fun f => negb (isFolder f) && isImageName (name f)) items.

(** [extractPreviewLinksFromXlsx]; [sheet_to_csv] stands for
    [XLSX.utils.sheet_to_csv(ws, { FS: '\t' })] of the library. *)
Definition extractPreviewLinksFromXlsx (Sheet : Type)
    (sheet_to_csv : Sheet -> jsstring) (wb : Xlsx.workbook Sheet)
  : list jsstring :=
  JsSet.to_array
    (fold_left
       (fun links sheetName =>
          let ws := Xlsx.Sheets wb sheetName in
          let csv := sheet_to_csv ws in
          fold_left (fun links u => JsSet.add links (trim u))
                    (Regex.match_preview csv) links)
       (Xlsx.SheetNames wb) JsSet.empty).

End SharepointA.

(** ** [sharepoint.js], revision of [src/unnamed/part_000] *)

Module SharepointB.

(** A Graph drive item, with the facets the code reads. *)
Record DriveItem : Type := {
  id : jsstring;
  driveId : jsstring;
  name : jsstring;
  file : option jsstring;      (* the [file] facet: its [mimeType] *)
  folder : bool                (* the [folder] facet is present *)
}.

Definition isFile (it : DriveItem) : bool :=
  match file it with Some _ => true | None => false end.

Definition isFolder (it : DriveItem) : bool := folder it.

Definition findTaskSubfolder (items : list DriveItem) (taskTitle : jsstring)
  : option DriveItem :=
  let want := normalize taskTitle in
  let folders := filter isFolder items in
  match find (fun f => str_eqb (normalize (name f)) want) folders with
  | Some hit => Some hit
  | None =>
  match find (fun f => startsWith (normalize (name f)) (want ++ js " "))
             folders with
  | Some hit => Some hit
  | None => find (fun f => includes (normalize (name f)) want) folders
  end end.

Definition isSheet (it : DriveItem) : bool :=
  isFile it && Regex.isExcel (name it).

(** The helper [base] of [findExcelForTask]. *)
Definition base (n : jsstring) : jsstring :=
  normalize (Regex.strip_xlsx_raw n).

Definition exact (want : jsstring) (f : DriveItem) : bool :=
  str_eqb (base (name f)) want.

Definition starts (want : jsstring) (f : DriveItem) : bool :=
  startsWith (base (name f)) (want ++ js " ").

Definition preview (f : DriveItem) : bool := Regex.has_preview (name f).

Definition findExcelForTask (items : list DriveItem) (taskTitle : jsstring)
  : option DriveItem :=
  let want := normalize taskTitle in
  let excels := filter (fun it => isFile it && Regex.isExcel (name it)) items in
  match excels with
  | [] => None
  | first :: _ =>
  match find (fun f => str_eqb (base (name f)) want) excels with
  | Some hit => Some hit
  | None =>
  match find (fun f => startsWith (base (name f)) (want ++ js " ")) excels with
  | Some hit => Some hit
  | None =>
  match find (fun f => Regex.has_preview (name f)) excels with
  | Some hit => Some hit
  | None => Some first
  end end end end.

Definition isImageName := SharepointA.isImageName.

Definition getImageFiles (items : list DriveItem) : list DriveItem :=
  filter
    (fun it =>
       isFile it
       && (isImageName (name it)
           || startsWith
                (toLowerCase (match file it with Some m => m | None => [] end))
                (js "image/")))
    items.

(** The sheet [extractPreviewLinksFromXlsx] reads: the first one whose
    normalized name is that of ["Preview Links"], else the first sheet. *)
Definition pickSheet (names : list jsstring) : option jsstring :=
  match find (fun n => str_eqb (normalize n) (normalize (js "Preview Links")))
             names with
  | Some n => if truthy n then Some n else hd_error names
  | None => hd_error names
  end.

Definition extractPreviewLinksFromXlsx (wb : Xlsx.workbook Xlsx.grid)
  : list jsstring :=
  match pickSheet (Xlsx.SheetNames wb) with
  | None => []
  | Some sheetName =>
      if negb (truthy sheetName) then []
      else
        let json := Xlsx.Sheets wb sheetName in
        JsSet.to_array
          (fold_left
             (fun links row =>
                fold_left
                  (fun links cell =>
                     let txt := Xlsx.cell_text cell in
                     fold_left (fun links m => JsSet.add links (trim m))
                               (Regex.match_preview txt) links)
                  row links)
             json JsSet.empty)
  end.

End SharepointB.

(** ** [post-qa.js] *)

Module PostQa.

(** A JSON value as the tracker sends it in a custom field. *)
Inductive jsval : Type :=
| JUndefined
| JNull
| JBool (b : bool)
| JNum (z : Z)               (* an integral number *)
| JStr (s : jsstring)
| JOther.                    (* an object, an array, a non-integral number *)

(** [task.status]: its fields [status] and [name]. *)
Record StatusObj : Type := {
  st_status : option jsstring;
  st_name : option jsstring
}.

(** An element of [task.custom_fields]: [id], [name], [type], [value]. *)
Record CustomField : Type := {
  cf_id : option jsstring;
  cf_name : option jsstring;
  cf_type : jsstring;
  cf_value : jsval
}.

(** The task as [cuGet] returns it: [name], [status], [custom_fields],
    [description]. *)
Record Task : Type := {
  task_name : option jsstring;
  task_status : option StatusObj;
  custom_fields : list CustomField;
  description : option jsstring
}.

(** The tunables of [CONFIG] the gate and the composer read. *)
Record Config : Type := {
  requiredStatus : jsstring;            (* clickup.requiredStatus *)
  passedQA : jsstring;                  (* clickup.fieldNames.passedQA *)
  postGateFailureComment : bool;        (* notifications.postGateFailureComment *)
  commentMode : jsstring;               (* 'draft' | 'final' *)
  draft_addBanner : bool;
  draft_bannerText : jsstring;
  draft_notifyAll : bool;
  final_notifyAll : bool;
  final_includeMentions : bool
}.

(** [a || b] on optional strings: [undefined] and [""] are falsy. *)
Definition or_str (a b : option jsstring) : option jsstring :=
  match a with
  | Some s => if truthy s then a else b
  | None => b
  end.

(** [a || d] with a string default. *)
Definition str_or (a : option jsstring) (d : jsstring) : jsstring :=
  match a with
  | Some s => if truthy s then s else d
  | None => d
  end.

(** [(task.status && (task.status.status || task.status.name)) || ""] *)
Definition statusOf (task : Task) : jsstring :=
  match task_status task with
  | None => []
  | Some st => str_or (or_str (st_status st) (st_name st)) []
  end.

Definition findCustomField (task : Task) (target : jsstring)
  : option CustomField :=
  let needle := toLowerCase (trim target) in
  find
    (fun cf =>
       match cf_id cf with
       | Some i => truthy i && str_eqb (toLowerCase i) needle
       | None => false
       end
       || match cf_name cf with
          | Some n => truthy n && str_eqb (toLowerCase (trim n)) needle
          | None => false
          end)
    (custom_fields task).

Definition isCheckboxChecked (cfObj : option CustomField) : bool :=
  let v := match cfObj with Some cf => cf_value cf | None => JUndefined end in
  match v with
  | JBool true => true
  | JNum 1 => true
  | JStr v =>
      let s := toLowerCase (trim v) in
      str_eqb s (js "true") || str_eqb s (js "1") || str_eqb s (js "yes")
      || str_eqb s (js "checked") || str_eqb s (js "on")
  | _ => false
  end.

(** [isCheckboxChecked] of the first revision in part_002:
    [cf && (cf.value === true || cf.value === 1 || cf.value === '1')],
    read as a condition. *)
Definition isCheckboxChecked_first (cf : option CustomField) : bool :=
  match cf with
  | None => false
  | Some cf =>
      match cf_value cf with
      | JBool true => true
      | JNum 1 => true
      | JStr s => str_eqb s (js "1")
      | _ => false
      end
  end.

(** *** The effects of [run]

    [cuGet], [sleep] and [cuPost] are calls to the outside.  The tracker
    answers the [n]-th [cuGet] with [gets n] ([None]: the request failed and
    [cuGet] throws) and accepts the [n]-th [cuPost] when [posts n] holds. *)

Record World : Type := {
  gets : nat -> option Task;
  posts : nat -> bool
}.

Inductive Event : Type :=
| EvGet
| EvSleep (ms : N)
| EvPost (comment_text : jsstring).

Record St : Type := {
  nGets : nat;
  nPosts : nat;
  trace : list Event            (* in the order of the calls *)
}.

Definition init : St := {| nGets := 0; nPosts := 0; trace := [] |}.

Inductive Res (A : Type) : Type :=
| Ok (a : A)
| Throw.
Arguments Throw {A}.

Definition M (A : Type) : Type := World -> St -> Res A * St.

Definition ret (A : Type) (a : A) : M A := fun _ st => (Ok a, st).

Definition bind (A B : Type) (m : M A) (k : A -> M B) : M B :=
  fun w st =>
    match m w st with
    | (Ok a, st') => k a w st'
    | (Throw, st') => (Throw, st')
    end.

Notation "x <- m ;; k" := (bind m (fun x => k))
  (at level 61, m at next level, right associativity).
Notation "m ;;; k" := (bind m (fun _ => k))
  (at level 61, right associativity).

Definition cuGet : M Task :=
  fun w st =>
    let st' := {| nGets := S (nGets st); nPosts := nPosts st;
                  trace := trace st ++ [EvGet] |} in
    match gets w (nGets st) with
    | Some t => (Ok t, st')
    | None => (Throw, st')
    end.

Definition sleep (ms : N) : M unit :=
  fun _ st =>
    (Ok tt, {| nGets := nGets st; nPosts := nPosts st;
               trace := trace st ++ [EvSleep ms] |}).

Definition cuPost (comment_text : jsstring) : M unit :=
  fun w st =>
    let st' := {| nGets := nGets st; nPosts := S (nPosts st);
                  trace := trace st ++ [EvPost comment_text] |} in
    if posts w (nPosts st) then (Ok tt, st') else (Throw, st').

(** [try { m } catch (e) { console.warn(...) }] *)
Definition try_ (m : M unit) : M unit :=
  fun w st =>
    match m w st with
    | (Ok _, st') => (Ok tt, st')
    | (Throw, st') => (Ok tt, st')
    end.

(** The gate decision as [run] holds it in [statusOk], [passedQA],
    [statusNow] and [requiredStatus] at its "Final decision". *)
Record GateDecision : Type := {
  passed : bool;
  statusObserved : jsstring;
  checkboxObserved : bool
}.

(** The pending labels of the re-check.  part_001 tests the raw status with
    [/^qa(?:\s*\(dev\))?$/i]; part_002 compares the normalized status with
    [normalize("QA")] and [normalize("QA (Dev)")]. *)
Definition pending_part_001 (statusNow : jsstring) : bool :=
  Regex.qa_dev_test statusNow.

Definition pending_part_002 (statusNow : jsstring) : bool :=
  let statusNowNorm := normalize statusNow in
  str_eqb statusNowNorm (normalize (js "QA"))
  || str_eqb statusNowNorm (normalize (js "QA (Dev)")).

Definition failMsg (cfg : Config) (statusNow : jsstring) : jsstring :=
  [0xD83E; 0xDE82]%N
  ++ js " AirDrop Status: Fail. Status must be [" ++ requiredStatus cfg
  ++ js "] and Passed QA must be checked. "
  ++ js "Current Status: ["
  ++ (if truthy statusNow then statusNow else js "Unknown") ++ js "].".

(** Step 1 of [run]: load the task and validate the gate.  The result is
    the decision and the task the later steps work on. *)
Definition run (pending : jsstring -> bool) (cfg : Config)
  : M (GateDecision * Task) :=
  task <- cuGet ;;
  let statusNow := statusOf task in
  let statusOk := str_eqb (normalize statusNow) (normalize (requiredStatus cfg)) in
  let cfPassed := findCustomField task (passedQA cfg) in
  let passedQA := isCheckboxChecked cfPassed in
  recheck <-
    (if negb statusOk && passedQA && pending statusNow then
       sleep 1500 ;;;
       t2 <- cuGet ;;
       let statusNow := statusOf t2 in
       let statusOk :=
         str_eqb (normalize statusNow) (normalize (requiredStatus cfg)) in
       ret (statusNow, statusOk)
     else ret (statusNow, statusOk)) ;;
  let statusNow := fst recheck in
  let statusOk := snd recheck in
  if negb statusOk || negb passedQA then
    (if postGateFailureComment cfg
     then try_ (cuPost (failMsg cfg statusNow))
     else ret tt) ;;;
    ret ({| passed := false; statusObserved := statusNow;
            checkboxObserved := passedQA |}, task)
  else
    ret ({| passed := true; statusObserved := statusNow;
            checkboxObserved := passedQA |}, task).

(** The tracker that serves the snapshot [t] at every request. *)
Definition steady (t : Task) (posts : nat -> bool) : World :=
  {| gets := fun _ => Some t; posts := posts |}.

(** *** The comment *)

Record Image : Type := {
  img_name : jsstring;
  img_url : jsstring
}.

Fixpoint join (sep : jsstring) (l : list jsstring) : jsstring :=
  match l with
  | [] => []
  | [x] => x
  | x :: r => x ++ sep ++ join sep r
  end.

Definition mentionToken (id : jsstring) : jsstring := js "<@" ++ id ++ js ">".

Definition formatMentions (userIds : list jsstring) : jsstring :=
  match userIds with
  | [] => []
  | _ => join (js " ") (map mentionToken userIds)
  end.

(** [previewLinks.forEach((url, i) => lines.push(`- [Link ${i + 1}](${url})`))] *)
Fixpoint linkLines (i : nat) (previewLinks : list jsstring) : list jsstring :=
  match previewLinks with
  | [] => []
  | url :: r =>
      (js "- [Link " ++ String_of_nat (i + 1) ++ js "](" ++ url ++ js ")")
      :: linkLines (S i) r
  end.

Definition imageLine (img : Image) : jsstring :=
  js "- " ++ (if truthy (img_name img) then img_name img else js "image")
  ++ js " " ++ [0x2192]%N ++ js " " ++ img_url img.

(** The array [lines] of [buildComment]. *)
Definition buildCommentLines (taskName : jsstring)
    (previewLinks : list jsstring) (images : list Image)
    (mentionIds : list jsstring) (includeMentions : bool) : list jsstring :=
  (if includeMentions && negb (length mentionIds =? 0)%nat
   then [formatMentions mentionIds ++ [10]%N] else [])
  ++ [js "**QA Passed " ++ [0x2192]%N ++ js " Preview Links for _"
      ++ taskName ++ js "_**" ++ [10]%N]
  ++ (match previewLinks with
      | [] => [js "_No preview links found._" ++ [10]%N]
      | _ => [js "**Preview Links**"] ++ linkLines 0 previewLinks ++ [[]]
      end)
  ++ (match images with
      | [] => [js "_No QA images found._"]
      | _ => [js "**QA Images**"] ++ map imageLine images
      end).

(** The array [lines] of [buildComment] in the first revision of part_002,
    which has no [includeMentions] parameter and no draft mode:
    [if (mentionIds?.length) lines.push(...)]. *)
Definition buildCommentLines_first (taskName : jsstring)
    (previewLinks : list jsstring) (images : list Image)
    (mentionIds : list jsstring) : list jsstring :=
  (if negb (length mentionIds =? 0)%nat
   then [formatMentions mentionIds ++ [10]%N] else [])
  ++ [js "**QA Passed " ++ [0x2192]%N ++ js " Preview Links for _"
      ++ taskName ++ js "_**" ++ [10]%N]
  ++ (match previewLinks with
      | [] => [js "_No preview links found._" ++ [10]%N]
      | _ => [js "**Preview Links**"] ++ linkLines 0 previewLinks ++ [[]]
      end)
  ++ (match images with
      | [] => [js "_No QA images found._"]
      | _ => [js "**QA Images**"] ++ map imageLine images
      end).

Definition buildComment (taskName : jsstring)
    (previewLinks : list jsstring) (images : list Image)
    (mentionIds : list jsstring) (includeMentions : bool) : jsstring :=
  join [10]%N
    (buildCommentLines taskName previewLinks images mentionIds includeMentions).

(** The flag [run] passes to [buildComment]:
    [!isDraft && CONFIG.final.includeMentions]. *)
Definition isDraft (cfg : Config) : bool := str_eqb (commentMode cfg) (js "draft").

Definition includeMentions (cfg : Config) : bool :=
  negb (isDraft cfg) && final_includeMentions cfg.

(** [Array.from(new Set(previewLinks))] *)
Definition uniqueLinks (previewLinks : list jsstring) : list jsstring :=
  JsSet.to_array (JsSet.of_array previewLinks).

(** Step 6 of [run]: the text and the [notify_all] flag of the comment
    posted. *)
Definition compose (cfg : Config) (taskName : jsstring)
    (previewLinks : list jsstring) (finalImages : list Image)
    (mentionIds : list jsstring) : jsstring * bool :=
  let commentText :=
    buildComment taskName (uniqueLinks previewLinks) finalImages mentionIds
      (includeMentions cfg) in
  let commentText :=
    if isDraft cfg && draft_addBanner cfg
    then draft_bannerText cfg ++ [10; 10]%N ++ commentText
    else commentText in
  (commentText, if isDraft cfg then draft_notifyAll cfg else final_notifyAll cfg).

(** [extractUrlsFromText] and [extractPreviewLinksFromText], and the
    fallback of step 4: the preview links of the description. *)
Definition extractUrlsFromText (text : jsstring) : list jsstring :=
  Regex.match_urls text.

Definition extractPreviewLinksFromText (txt : jsstring) : list jsstring :=
  map trim (Regex.match_preview txt).

Definition descriptionLinks (task : Task) : list jsstring :=
  let descUrls := extractUrlsFromText (str_or (description task) []) in
  extractPreviewLinksFromText (join [10]%N descUrls).

End PostQa.

(** ** [api/dispatch.js] *)

Module Dispatch.

(** [req.query]: the parameters the handlers read. *)
Record Query : Type := {
  q_task_id : option jsstring;
  q_task : option jsstring;
  q_token : option jsstring
}.

(** A request body: an object with the fields the handlers read, [null],
    or a value that is not an object. *)
Inductive Body : Type :=
| BodyObject (task_id task token : option jsstring)
| BodyNull
| BodyNotObject.

(** [req.headers]: the entries the handlers read. *)
Record Headers : Type := {
  h_x_auth : option jsstring;           (* 'x-auth' *)
  h_X_Auth : option jsstring;           (* 'X-Auth' *)
  h_authorization : option jsstring;    (* 'authorization' *)
  h_Authorization : option jsstring;    (* 'Authorization' *)
  h_content_type : option jsstring      (* 'content-type' *)
}.

Record Req : Type := {
  method : option jsstring;
  query : option Query;
  body : Body;                          (* [req.body] *)
  headers : Headers;
  stream : option Body                  (* what [readJson(req)] resolves to;
                                           [None]: it rejects *)
}.

(** [process.env] *)
Record Env : Type := {
  GH_REPO : option jsstring;
  GH_WORKFLOW : option jsstring;
  GH_REF : option jsstring;
  GH_TOKEN : option jsstring;
  SHARED_DISPATCH_TOKEN : option jsstring
}.

(** The workflow-dispatch request sent to GitHub. *)
Record GhRequest : Type := {
  gh_url : jsstring;
  gh_authorization : jsstring;
  gh_ref : jsstring;
  gh_task : jsstring
}.

(** GitHub's answer: status and text; [None] when [fetch] throws. *)
Definition GitHub : Type := GhRequest -> option (N * jsstring).

(** What the handler answers and what it sent to GitHub. *)
Record Outcome : Type := {
  status : N;
  sent : list GhRequest
}.

Definition answer (code : N) (sent : list GhRequest) : Outcome :=
  {| status := code; sent := sent |}.

Definition str_or := PostQa.str_or.
Definition or_str := PostQa.or_str.

(** A property read of [body]: [null.x] throws. *)
Definition body_task_id (b : Body) : option (option jsstring) :=
  match b with
  | BodyObject task_id _ _ => Some task_id
  | BodyNull => None
  | BodyNotObject => Some None
  end.

Definition body_task (b : Body) : option (option jsstring) :=
  match b with
  | BodyObject _ task _ => Some task
  | BodyNull => None
  | BodyNotObject => Some None
  end.

Definition body_token (b : Body) : option (option jsstring) :=
  match b with
  | BodyObject _ _ token => Some token
  | BodyNull => None
  | BodyNotObject => Some None
  end.

Definition is_truthy (a : option jsstring) : bool :=
  match a with Some s => truthy s | None => false end.

Definition query_of (req : Req) : Query :=
  match query req with
  | Some q => q
  | None => {| q_task_id := None; q_task := None; q_token := None |}
  end.

(** [(q.task_id || body.task_id || q.task || body.task || '').toString().trim()];
    [None] when a read of [body] throws. *)
Definition taskId_of (q : Query) (b : Body) : option jsstring :=
  if is_truthy (q_task_id q) then Some (trim (str_or (q_task_id q) []))
  else
    match body_task_id b with
    | None => None
    | Some bt =>
        if is_truthy bt then Some (trim (str_or bt []))
        else if is_truthy (q_task q) then Some (trim (str_or (q_task q) []))
        else
          match body_task b with
          | None => None
          | Some bk => Some (trim (str_or bk []))
          end
    end.

Definition ghUrl (repo workflow : jsstring) : jsstring :=
  js "https://api.github.com/repos/" ++ repo ++ js "/actions/workflows/"
  ++ workflow ++ js "/dispatches".

(** The part shared by the two later revisions, after the token check. *)
Definition dispatch_after_auth (gh : GitHub) (env : Env) (authOk : bool)
    (taskId : jsstring) : Outcome :=
  if negb authOk then answer 401 []
  else if negb (truthy taskId) then answer 400 []
  else
    let GH_REPO := trim (str_or (GH_REPO env) []) in
    let GH_WORKFLOW := trim (str_or (GH_WORKFLOW env) []) in
    let GH_REF := trim (str_or (GH_REF env) (js "main")) in
    let GH_TOKEN := trim (str_or (GH_TOKEN env) []) in
    if negb (truthy GH_REPO) || negb (truthy GH_WORKFLOW) || negb (truthy GH_TOKEN)
    then answer 500 []
    else
      let r := {| gh_url := ghUrl GH_REPO GH_WORKFLOW;
                  gh_authorization := js "Bearer " ++ GH_TOKEN;
                  gh_ref := GH_REF; gh_task := taskId |} in
      match gh r with
      | None => answer 500 [r]
      | Some (st, _) => if (st =? 204)%N then answer 200 [r] else answer 502 [r]
      end.

(** The handler of [src/api/dispatch.js], first revision: token from the
    query, [X-Auth] or [Authorization: Bearer]. *)
Definition handler_bearer (gh : GitHub) (env : Env) (req : Req) : Outcome :=
  let q := query_of req in
  let body := match body req with BodyNotObject => BodyObject None None None
                                | b => b end in
  match taskId_of q body with
  | None => answer 500 []
  | Some taskId =>
      let tokenQP := trim (str_or (q_token q) []) in
      let tokenHdr :=
        trim (str_or (or_str (h_x_auth (headers req)) (h_X_Auth (headers req))) []) in
      let authHdr :=
        trim (str_or (or_str (h_authorization (headers req))
                             (h_Authorization (headers req))) []) in
      let bearer :=
        if startsWith (toLowerCase authHdr) (js "bearer ")
        then trim (skipn 7 authHdr) else [] in
      let expected := trim (str_or (SHARED_DISPATCH_TOKEN env) []) in
      let authOk :=
        truthy expected
        && (str_eqb tokenQP expected || str_eqb tokenHdr expected
            || str_eqb bearer expected) in
      dispatch_after_auth gh env authOk taskId
  end.

(** The handler appended to [src/sharepoint.js]: token from the query or
    [X-Auth]. *)
Definition handler_xauth (gh : GitHub) (env : Env) (req : Req) : Outcome :=
  let q := query_of req in
  let body := match body req with BodyNotObject => BodyObject None None None
                                | b => b end in
  match taskId_of q body with
  | None => answer 500 []
  | Some taskId =>
      let tokenQP := trim (str_or (q_token q) []) in
      let tokenHdr :=
        trim (str_or (or_str (h_x_auth (headers req)) (h_X_Auth (headers req))) []) in
      let expected := trim (str_or (SHARED_DISPATCH_TOKEN env) []) in
      let authOk :=
        truthy expected
        && (str_eqb tokenQP expected || str_eqb tokenHdr expected) in
      dispatch_after_auth gh env authOk taskId
  end.

(** The handler of [src/api/dispatch.js], second revision: the environment
    is checked first, the token is compared as it comes. *)
Definition handler_env (gh : GitHub) (env : Env) (req : Req) : Outcome :=
  if negb (is_truthy (GH_REPO env)) || negb (is_truthy (GH_WORKFLOW env))
     || negb (is_truthy (GH_TOKEN env))
     || negb (is_truthy (SHARED_DISPATCH_TOKEN env))
  then answer 500 []
  else
    let isJson :=
      includes (str_or (h_content_type (headers req)) []) (js "application/json") in
    match (if isJson then stream req else Some (BodyObject None None None)) with
    | None => answer 500 []
    | Some body =>
        let q := query_of req in
        match (if is_truthy (q_token q) then Some (q_token q)
               else body_token body) with
        | None => answer 500 []
        | Some tok =>
            let providedToken :=
              str_or (or_str (or_str (q_token q) tok) (h_x_auth (headers req))) [] in
            if negb (str_eqb providedToken
                       (str_or (SHARED_DISPATCH_TOKEN env) []))
            then answer 401 []
            else
              match (if is_truthy (q_task_id q) then Some (q_task_id q)
                     else body_task_id body) with
              | None => answer 500 []
              | Some bt =>
                  let taskId := trim (str_or (or_str (q_task_id q) bt) []) in
                  if negb (truthy taskId) then answer 400 []
                  else
                    let r := {| gh_url := ghUrl (str_or (GH_REPO env) [])
                                                (str_or (GH_WORKFLOW env) []);
                                gh_authorization :=
                                  js "Bearer " ++ str_or (GH_TOKEN env) [];
                                gh_ref := match GH_REF env with
                                          | Some r => r
                                          | None => js "main"
                                          end;
                                gh_task := taskId |} in
                    match gh r with
                    | None => answer 500 [r]
                    | Some (st, _) =>
                        if (200 <=? st)%N && (st <=? 299)%N
                        then answer 200 [r] else answer 502 [r]
                    end
              end
        end
    end.

End Dispatch.

(** ** Further functions of [post-qa.js] *)

Module PostQaMore.

(** [[^/?#]] *)
Definition idc (c : N) : bool :=
  negb ((c =? 47) || (c =? 63) || (c =? 35))%N.

(** [String(input).match(/\/t\/([^/?#]+)/i)]: the capture of the leftmost
    match, if any. *)
Fixpoint task_segment (s : jsstring) : option jsstring :=
  match s with
  | [] => None
  | _ :: r =>
      if startsWith_ci s (js "/t/") then
        match Regex.takeWhile idc (skipn 3 s) with
        | [] => task_segment r
        | seg => Some seg
        end
      else task_segment r
  end.

Definition parseTaskId (input : jsstring) : jsstring :=
  match task_segment input with
  | Some m1 => m1
  | None => input
  end.

End PostQaMore.

(** ** [post-qa.js]: after the gate

    Steps 2 to 6 of [run] in the second half of [src/unnamed/part_002],
    which works with the storage helpers of [src/unnamed/part_000]. *)

Module Pipeline.

Import PostQa.

(** An element of [task.attachments]: [title], [name], [mime_type], [path]
    and [url]. *)
Record Attachment : Type := {
  att_title : option jsstring;
  att_name : option jsstring;
  att_mime_type : option jsstring;
  att_path : option jsstring;
  att_url : option jsstring
}.

(** The tunables of [CONFIG] read after the gate.  [mentionMap label] is
    the string form of the value [CONFIG.clickup.mentionMap[label]] when it
    is truthy. *)
Record Settings : Type := {
  config : Config;
  qaDocUrl : jsstring;                  (* clickup.fieldNames.qaDocUrl *)
  clientMentions : jsstring;            (* clickup.fieldNames.clientMentions *)
  mentionMap : jsstring -> option jsstring;
  restrictToQAishNames : bool           (* taskAttachmentFilter.restrictToQAishNames *)
}.

Definition getCustomField (task : Task) (fieldName : jsstring)
  : option CustomField :=
  find (fun cf => str_eqb (trim (str_or (cf_name cf) [])) (trim fieldName))
       (custom_fields task).

Definition getTextFieldValue (cf : option CustomField) : jsstring :=
  match cf with
  | Some c => match cf_value c with JStr s => s | _ => [] end
  | None => []
  end.

(** [/(^|\/|_|-|\s)qa($|\.|\s|_|-)/i] *)
Definition qa_before (prev : option N) : bool :=
  match prev with
  | None => true
  | Some c => (c =? 47) || (c =? 95) || (c =? 45) || is_space c
  end.

Definition qa_after (s : jsstring) : bool :=
  match s with
  | [] => true
  | c :: _ => (c =? 46) || is_space c || (c =? 95) || (c =? 45)
  end.

Fixpoint qaNamePattern_from (prev : option N) (s : jsstring) : bool :=
  match s with
  | [] => false
  | c :: r =>
      qa_before prev && startsWith_ci s (js "qa") && qa_after (skipn 2 s)
      || qaNamePattern_from (Some c) r
  end.

Definition qaNamePattern (s : jsstring) : bool := qaNamePattern_from None s.

Definition selectTaskImageAttachments (cfg : Settings)
    (attachments : list Attachment) : list Attachment :=
  filter
    (fun att =>
       let name := toLowerCase (str_or (or_str (att_title att) (att_name att)) []) in
       let mime := toLowerCase (str_or (att_mime_type att) []) in
       let isImage :=
         startsWith mime (js "image/") || SharepointA.isImageName name in
       if negb isImage then false
       else if negb (restrictToQAishNames cfg) then true
       else qaNamePattern name || qaNamePattern (str_or (att_path att) []))
    attachments.

(** [{ name: a.title || a.name || "image", url: a.url }]; an absent [url]
    reads [undefined] in the line of the comment. *)
Definition taskAttachment (a : Attachment) : Image :=
  {| img_name := str_or (or_str (att_title a) (att_name a)) (js "image");
     img_url := match att_url a with Some u => u | None => js "undefined" end |}.

(** [raw.split(",")] *)
Fixpoint split_comma (s : jsstring) : list jsstring :=
  match s with
  | [] => [[]]
  | c :: r =>
      if c =? 44 then [] :: split_comma r
      else match split_comma r with
           | x :: l => (c :: x) :: l
           | [] => [[c]]
           end
  end.

Definition resolveMentionIdsFromTask (cfg : Settings) (task : Task)
  : list jsstring :=
  let fieldName := clientMentions cfg in
  if negb (truthy fieldName) then []
  else
    let raw := getTextFieldValue (getCustomField task fieldName) in
    if negb (truthy raw) then []
    else
      flat_map
        (fun label =>
           match mentionMap cfg label with Some id => [id] | None => [] end)
        (filter truthy (map trim (split_comma raw))).

(** *** The calls to the outside

    The storage service, the spreadsheet library and the tracker answer
    each call knowing every call made so far, the current one last. *)

Definition Buffer : Type := list N.

Inductive Call : Type :=
| GetGraphToken
| ListFolderItems (folderUrl token : jsstring)
| ListFolderChildren (driveId itemId token : jsstring)
| DownloadItemBuffer (driveId itemId token : jsstring)
| UploadAttachment (taskId filename : jsstring) (buffer : Buffer)
| Post (comment_text : jsstring) (notify_all : bool).

Record Outside : Type := {
  (* [getGraphToken]: it throws, or returns the token, [null] or [undefined] *)
  graphToken : list Call -> Res (option jsstring);
  (* [listFolderItems], [listFolderChildren]: the items, or they throw *)
  folderItems : list Call -> option (list SharepointB.DriveItem);
  folderChildren : list Call -> option (list SharepointB.DriveItem);
  (* [downloadItemBuffer]: the bytes, or it throws *)
  itemBuffer : list Call -> option Buffer;
  (* [XLSX.read] with [sheet_to_json] of each sheet, or it throws *)
  readWorkbook : Buffer -> option (Xlsx.workbook Xlsx.grid);
  (* [cuUploadAttachment]: [uploaded?.data?.url || uploaded?.url || ""],
     or it throws *)
  uploadedUrl : list Call -> option jsstring;
  (* [cuPost]: accepted, or it throws *)
  postAccepted : list Call -> bool
}.

(** The calls made, and the two variables [previewLinks] and
    [uploadedImages] that [run] updates inside its [try] block. *)
Record Vars : Type := {
  calls : list Call;
  previewLinks : list jsstring;
  uploadedImages : list Image
}.

Definition start : Vars :=
  {| calls := []; previewLinks := []; uploadedImages := [] |}.

Definition Run (A : Type) : Type := Outside -> Vars -> Res A * Vars.

Definition pure (A : Type) (a : A) : Run A := fun _ v => (Ok a, v).

Definition andThen (A B : Type) (m : Run A) (k : A -> Run B) : Run B :=
  fun w v =>
    match m w v with
    | (Ok a, v') => k a w v'
    | (Throw, v') => (Throw, v')
    end.

Notation "x <-- m ;; k" := (andThen m (fun x => k))
  (at level 61, m at next level, right associativity).
Notation "m ;;;; k" := (andThen m (fun _ => k))
  (at level 61, right associativity).

(** A call whose answer may be a failure, which throws. *)
Definition request (A : Type) (c : Call)
    (answer : Outside -> list Call -> option A) : Run A :=
  fun w v =>
    let h := calls v ++ [c] in
    let v' := {| calls := h; previewLinks := previewLinks v;
                 uploadedImages := uploadedImages v |} in
    match answer w h with
    | Some a => (Ok a, v')
    | None => (Throw, v')
    end.

Definition getGraphToken : Run (option jsstring) :=
  fun w v =>
    let h := calls v ++ [GetGraphToken] in
    (graphToken w h,
     {| calls := h; previewLinks := previewLinks v;
        uploadedImages := uploadedImages v |}).

Definition listFolderItems (folderUrl token : jsstring)
  : Run (list SharepointB.DriveItem) :=
  request (ListFolderItems folderUrl token) folderItems.

Definition listFolderChildren (driveId itemId token : jsstring)
  : Run (list SharepointB.DriveItem) :=
  request (ListFolderChildren driveId itemId token) folderChildren.

Definition downloadItemBuffer (driveId itemId token : jsstring) : Run Buffer :=
  request (DownloadItemBuffer driveId itemId token) itemBuffer.

Definition cuUploadAttachment (taskId filename : jsstring) (buffer : Buffer)
  : Run jsstring :=
  request (UploadAttachment taskId filename buffer) uploadedUrl.

Definition cuPost (comment_text : jsstring) (notify_all : bool) : Run unit :=
  request (Post comment_text notify_all)
          (fun w h => if postAccepted w h then Some tt else None).

Definition extractPreviewLinksFromXlsx (buf : Buffer) : Run (list jsstring) :=
  fun w v =>
    match readWorkbook w buf with
    | Some wb => (Ok (SharepointB.extractPreviewLinksFromXlsx wb), v)
    | None => (Throw, v)
    end.

(** [previewLinks = links] and [uploadedImages.push(img)] *)
Definition setPreviewLinks (links : list jsstring) : Run unit :=
  fun _ v =>
    (Ok tt, {| calls := calls v; previewLinks := links;
               uploadedImages := uploadedImages v |}).

Definition pushUploaded (img : Image) : Run unit :=
  fun _ v =>
    (Ok tt, {| calls := calls v; previewLinks := previewLinks v;
               uploadedImages := uploadedImages v ++ [img] |}).

Definition vars : Run Vars := fun _ v => (Ok v, v).

(** [for (const x of l) { body }] *)
Fixpoint forOf (A : Type) (l : list A) (body : A -> Run unit) : Run unit :=
  match l with
  | [] => pure tt
  | x :: r => body x ;;;; forOf r body
  end.

(** [try { m } catch (err) { console.warn(...) }] *)
Definition tryCatch (m : Run unit) : Run unit :=
  fun w v =>
    match m w v with
    | (Ok _, v') => (Ok tt, v')
    | (Throw, v') => (Ok tt, v')
    end.

(** The body of the [try] block of step 3. *)
Definition readFolder (TASK_ID taskName qaFolderUrl graphToken : jsstring)
  : Run unit :=
  rootItems <-- listFolderItems qaFolderUrl graphToken ;;
  items <--
    (match SharepointB.findTaskSubfolder rootItems taskName with
     | Some taskFolder =>
         listFolderChildren (SharepointB.driveId taskFolder)
                            (SharepointB.id taskFolder) graphToken
     | None => pure rootItems
     end) ;;
  (match SharepointB.findExcelForTask items taskName with
   | Some excelItem =>
       buf <-- downloadItemBuffer (SharepointB.driveId excelItem)
                                  (SharepointB.id excelItem) graphToken ;;
       links <-- extractPreviewLinksFromXlsx buf ;;
       setPreviewLinks links
   | None => pure tt
   end) ;;;;
  forOf (SharepointB.getImageFiles items)
    (fun img =>
       buf <-- downloadItemBuffer (SharepointB.driveId img)
                                  (SharepointB.id img) graphToken ;;
       uploadedUrl <-- cuUploadAttachment TASK_ID (SharepointB.name img) buf ;;
       pushUploaded {| img_name := SharepointB.name img;
                       img_url := uploadedUrl |}).

(** Step 3: [if (graphToken) { try { ... } catch (err) { ... } }]. *)
Definition step3 (TASK_ID taskName qaFolderUrl : jsstring)
    (graphToken : option jsstring) : Run unit :=
  match graphToken with
  | Some token =>
      if truthy token
      then tryCatch (readFolder TASK_ID taskName qaFolderUrl token)
      else pure tt
  | None => pure tt
  end.

(** Steps 4 to 6: the fallbacks and the text posted, from the two
    variables as step 3 left them. *)
Definition finalLinks (task : Task) (v : Vars) : list jsstring :=
  match previewLinks v with
  | [] => descriptionLinks task
  | l => l
  end.

Definition finalImages (cfg : Settings) (attachments : list Attachment)
    (v : Vars) : list Image :=
  match uploadedImages v with
  | [] => map taskAttachment (selectTaskImageAttachments cfg attachments)
  | l => l
  end.

(** Steps 2 to 6 of [run] for the task the gate let through. *)
Definition afterGate (cfg : Settings) (TASK_ID : jsstring) (task : Task)
    (attachments : list Attachment) : Run unit :=
  let taskName := str_or (task_name task) TASK_ID in
  let cfDoc := findCustomField task (qaDocUrl cfg) in
  let qaFolderUrl := getTextFieldValue cfDoc in
  if negb (truthy qaFolderUrl) then pure tt
  else
    graphToken <-- getGraphToken ;;
    step3 TASK_ID taskName qaFolderUrl graphToken ;;;;
    v <-- vars ;;
    let mentionIds := resolveMentionIdsFromTask cfg task in
    let comment :=
      compose (config cfg) taskName (finalLinks task v)
              (finalImages cfg attachments v) mentionIds in
    cuPost (fst comment) (snd comment).

End Pipeline.

(** ** The share id of a folder address

    [encodeSharingUrl] of [src/sharepoint.js] and [urlToGraphShareId] of
    [src/unnamed/part_000]: the UTF-8 bytes of the address in Base64, with
    [+] and [/] replaced and the padding removed, after ["u!"]. *)

Module ShareId.

Definition is_high (c : N) : bool := (0xD800 <=? c) && (c <=? 0xDBFF).
Definition is_low (c : N) : bool := (0xDC00 <=? c) && (c <=? 0xDFFF).

(** [Buffer.from(url, 'utf8')]: a surrogate pair gives four bytes, a lone
    surrogate the three bytes of U+FFFD. *)
Fixpoint utf8 (s : jsstring) : list N :=
  match s with
  | [] => []
  | c :: r =>
      if c <? 0x80 then c :: utf8 r
      else if c <? 0x800 then (0xC0 + c / 64) :: (0x80 + c mod 64) :: utf8 r
      else if is_high c then
        match r with
        | d :: r' =>
            if is_low d then
              let cp := 0x10000 + (c - 0xD800) * 1024 + (d - 0xDC00) in
              (0xF0 + cp / 262144) :: (0x80 + (cp / 4096) mod 64)
              :: (0x80 + (cp / 64) mod 64) :: (0x80 + cp mod 64) :: utf8 r'
            else 0xEF :: 0xBF :: 0xBD :: utf8 r
        | [] => [0xEF; 0xBF; 0xBD]
        end
      else if is_low c then 0xEF :: 0xBF :: 0xBD :: utf8 r
      else (0xE0 + c / 4096) :: (0x80 + (c / 64) mod 64)
           :: (0x80 + c mod 64) :: utf8 r
  end.

Definition alphabet : jsstring :=
  js "ABCDEFGHIJKLMNOPQRSTUVWXYZabcdefghijklmnopqrstuvwxyz0123456789+/".

(** The character of a six-bit value. *)
Definition b64 (i : N) : N := nth (N.to_nat (i mod 64)) alphabet 0.

(** [buf.toString('base64')] *)
Fixpoint base64 (bytes : list N) : jsstring :=
  match bytes with
  | [] => []
  | [a] => [b64 (a / 4); b64 ((a mod 4) * 16); 61; 61]
  | [a; b] =>
      [b64 (a / 4); b64 ((a mod 4) * 16 + b / 16); b64 ((b mod 16) * 4); 61]
  | a :: b :: c :: r =>
      b64 (a / 4) :: b64 ((a mod 4) * 16 + b / 16)
      :: b64 ((b mod 16) * 4 + c / 64) :: b64 (c mod 64) :: base64 r
  end.

(** [s.replace(/\+/g, '-')] and [s.replace(/\//g, '_')] *)
Definition replace_plus (s : jsstring) : jsstring :=
  map (fun c => if c =? 43 then 45 else c) s.

Definition replace_slash (s : jsstring) : jsstring :=
  map (fun c => if c =? 47 then 95 else c) s.

(** [s.replace(/=+$/, '')]: the trailing run of [=] goes. *)
Fixpoint strip_padding (s : jsstring) : jsstring :=
  match s with
  | [] => []
  | c :: r =>
      match strip_padding r with
      | [] => if c =? 61 then [] else [c]
      | r' => c :: r'
      end
  end.

Definition encodeSharingUrl (url : jsstring) : jsstring :=
  let b64 := strip_padding (replace_slash (replace_plus (base64 (utf8 url)))) in
  js "u!" ++ b64.

Definition urlToGraphShareId (url : jsstring) : jsstring :=
  let b64 := strip_padding (replace_slash (replace_plus (base64 (utf8 url)))) in
  js "u!" ++ b64.

End ShareId.

(** ** Vocabulary of the statements *)

(** Two adjacent spaces somewhere in the string. *)
Fixpoint adjacent_spaces (s : jsstring) : bool :=
  match s with
  | a :: (b :: _) as r => (a =? 32)%N && (b =? 32)%N || adjacent_spaces r
  | _ => false
  end.

(** What a code unit of a normalized string is, for a normalizer that
    collapses the class [cls] and keeps the class [keep]: the space, or a
    kept unit outside the collapsed class. *)
Definition settled (cls keep : N -> bool) (c : N) : Prop :=
  c = 32%N \/ (cls c = false /\ keep c = true).

(** The first code unit is outside the class [cls]. *)
Definition head_free (cls : N -> bool) (s : jsstring) : bool :=
  match s with c :: _ => negb (cls c) | [] => true end.

(** The last code unit is not whitespace. *)
Definition ends_clean (s : jsstring) : bool :=
  match s with [] => true | _ => negb (is_space (last s 0%N)) end.

(** [toLowerCase] leaves the code unit as it is. *)
Definition lower_fixed (c : N) : Prop := toLowerCase1 c = [c].

(** The shape shared by [normalize] and [norm]: a preparation [pre], then
    the runs of the class [cls] collapsed, then only the class [keep] kept,
    then [trim]. *)
Definition canon (cls keep : N -> bool) (pre : jsstring -> jsstring)
    (x : jsstring) : jsstring :=
  trim (keep_only keep (collapse_runs cls false (pre x))).

(** [e] is the first element of [l] that satisfies [P]. *)
Definition first_sat (A : Type) (P : A -> bool) (l : list A) (e : A) : Prop :=
  exists l1 l2, l = l1 ++ e :: l2 /\ P e = true
                /\ forall x, In x l1 -> P x = false.

(** No element of [l] satisfies [P]. *)
Definition none_sat (A : Type) (P : A -> bool) (l : list A) : Prop :=
  forall x, In x l -> P x = false.

(** The tiered selection of the specification (section 4.2), over the
    candidates that pass the type filter [sheet]: the first exact match;
    failing that the first prefix match; failing that the first name with
    "preview"; failing that the first candidate; nothing only when no
    candidate passes the filter. *)
Inductive selection (A : Type) (sheet exact starts preview : A -> bool)
    (items : list A) : option A -> Prop :=
| sel_exact e :
    first_sat (fun f => sheet f && exact f) items e ->
    selection sheet exact starts preview items (Some e)
| sel_starts e :
    none_sat (fun f => sheet f && exact f) items ->
    first_sat (fun f => sheet f && starts f) items e ->
    selection sheet exact starts preview items (Some e)
| sel_preview e :
    none_sat (fun f => sheet f && exact f) items ->
    none_sat (fun f => sheet f && starts f) items ->
    first_sat (fun f => sheet f && preview f) items e ->
    selection sheet exact starts preview items (Some e)
| sel_any e :
    none_sat (fun f => sheet f && exact f) items ->
    none_sat (fun f => sheet f && starts f) items ->
    none_sat (fun f => sheet f && preview f) items ->
    first_sat sheet items e ->
    selection sheet exact starts preview items (Some e)
| sel_none :
    none_sat sheet items ->
    selection sheet exact starts preview items None.

(** The name ends in [.xls] or [.xlsx], whatever the case of the letters. *)
Definition ends_in_sheet_ext (n : jsstring) : Prop :=
  exists stem ext, n = stem ++ ext
    /\ (map fold_ci ext = js ".xls" \/ map fold_ci ext = js ".xlsx").

(** The listings of the examples of section 8. *)
Definition entryA (n : string) (d : bool) : SharepointA.FolderEntry :=
  {| SharepointA.id := js n; SharepointA.driveId := js "drive";
     SharepointA.name := js n; SharepointA.size := 1%N;
     SharepointA.mime := []; SharepointA.webUrl := [];
     SharepointA.isFolder := d |}.

Definition entryB (n : string) (d : bool) : SharepointB.DriveItem :=
  {| SharepointB.id := js n; SharepointB.driveId := js "drive";
     SharepointB.name := js n;
     SharepointB.file := if d then None else Some [];
     SharepointB.folder := d |}.

(** [r] is [d] without its repetitions, every string at the place of its
    first occurrence: no string twice, the same strings, and each string
    right after exactly the strings that occur before its first
    occurrence. *)
Definition dedup_stable (d r : list jsstring) : Prop :=
  NoDup r
  /\ (forall u, In u r <-> In u d)
  /\ (forall l1 u l2, d = l1 ++ u :: l2 -> ~ In u l1 ->
        exists r1 r2, r = r1 ++ u :: r2 /\ (forall v, In v r1 <-> In v l1)).

(** The links of one cell, in the order of the scan. *)
Definition cell_links (c : Xlsx.cell) : list jsstring :=
  map trim (Regex.match_preview (Xlsx.cell_text c)).

(** The links of a grid: row after row, cell after cell. *)
Definition grid_links (g : Xlsx.grid) : list jsstring :=
  flat_map (fun row => flat_map cell_links row) g.

(** The links of the CSV texts of all the sheets, in workbook order. *)
Definition csv_links (Sheet : Type) (sheet_to_csv : Sheet -> jsstring)
    (wb : Xlsx.workbook Sheet) : list jsstring :=
  flat_map
    (fun n => map trim (Regex.match_preview (sheet_to_csv (Xlsx.Sheets wb n))))
    (Xlsx.SheetNames wb).

(** A preview link, and a workbook that holds it on its second sheet only. *)
Definition link_x : jsstring := js "https://files.example.com/x?convert_e=123456".
Definition link_y : jsstring := js "https://files.example.com/y?convert_v=7654321".

Definition two_sheets : Xlsx.workbook Xlsx.grid :=
  {| Xlsx.SheetNames := [js "Sheet1"; js "Links"];
     Xlsx.Sheets := fun n =>
       if str_eqb n (js "Links") then [[Xlsx.CText (js "see " ++ link_x)]]
       else if str_eqb n (js "Sheet1")
            then [[Xlsx.CText (js "hello"); Xlsx.CEmpty; Xlsx.CNumber 42]]
            else [] |}.

(** What [sheet_to_csv(ws, { FS: '\t' })] writes for a grid whose cell
    texts hold no tab, no line break and no quote, so that the library
    quotes none of them: the cells of a row joined by a tab, the rows by a
    line feed.  Used in examples only. *)
Definition plain_csv (g : Xlsx.grid) : jsstring :=
  PostQa.join [10]%N
    (map (fun row => PostQa.join [9]%N (map Xlsx.cell_text row)) g).

(** A workbook whose first sheet repeats a link. *)
Definition repeated_link : Xlsx.workbook Xlsx.grid :=
  {| Xlsx.SheetNames := [js "Preview links"];
     Xlsx.Sheets := fun n =>
       [[Xlsx.CText (js "see " ++ link_x ++ js " and (" ++ link_y ++ js ")");
         Xlsx.CBool true];
        [Xlsx.CEmpty; Xlsx.CText link_y; Xlsx.CText (js "again " ++ link_x)]] |}.

(** The number of [cuGet] calls in a trace. *)
Fixpoint count_gets (tr : list PostQa.Event) : nat :=
  match tr with
  | [] => 0
  | PostQa.EvGet :: r => S (count_gets r)
  | _ :: r => count_gets r
  end.

(** The delays of a trace, in order. *)
Fixpoint sleeps (tr : list PostQa.Event) : list N :=
  match tr with
  | [] => []
  | PostQa.EvSleep ms :: r => ms :: sleeps r
  | _ :: r => sleeps r
  end.

(** A trace of comment posts only: no request for the task, no delay. *)
Definition only_posts (tr : list PostQa.Event) : Prop :=
  Forall (fun e => exists m, e = PostQa.EvPost m) tr.

(** The condition of the re-check on the first snapshot [t]: the status
    does not match, the checkbox is checked, and the status is a pending
    label. *)
Definition recheck_needed (pending : jsstring -> bool) (cfg : PostQa.Config)
    (t : PostQa.Task) : bool :=
  negb (str_eqb (normalize (PostQa.statusOf t))
                (normalize (PostQa.requiredStatus cfg)))
  && PostQa.isCheckboxChecked (PostQa.findCustomField t (PostQa.passedQA cfg))
  && pending (PostQa.statusOf t).

(** The configuration of part_001 (the banner text without its emoji and
    dash) and two snapshots of a task. *)
Definition config_part_001 : PostQa.Config :=
  {| PostQa.requiredStatus := js "needs approval (dev)";
     PostQa.passedQA := js "Passed QA";
     PostQa.postGateFailureComment := true;
     PostQa.commentMode := js "draft";
     PostQa.draft_addBanner := true;
     PostQa.draft_bannerText := js "DRAFT - Review before sending";
     PostQa.draft_notifyAll := false;
     PostQa.final_notifyAll := true;
     PostQa.final_includeMentions := true |}.

Definition task_with (st : string) (checkbox : PostQa.jsval) : PostQa.Task :=
  {| PostQa.task_name := Some (js "CF-123");
     PostQa.task_status :=
       Some {| PostQa.st_status := Some (js st); PostQa.st_name := None |};
     PostQa.custom_fields :=
       [ {| PostQa.cf_id := Some (js "f-doc"); PostQa.cf_name := Some (js "QA Doc");
            PostQa.cf_type := js "url"; PostQa.cf_value := PostQa.JStr (js "https://sp/x") |};
         {| PostQa.cf_id := Some (js "f-qa"); PostQa.cf_name := Some (js " passed qa ");
            PostQa.cf_type := js "checkbox"; PostQa.cf_value := checkbox |} ];
     PostQa.description := None |}.

(** A deployment whose shared secret is the empty string, a GitHub that
    accepts every dispatch, and a request without any token. *)
Definition env_empty_secret : Dispatch.Env :=
  {| Dispatch.GH_REPO := Some (js "lacey-griffith/airdrop");
     Dispatch.GH_WORKFLOW := Some (js "post-qa.yml");
     Dispatch.GH_REF := None;
     Dispatch.GH_TOKEN := Some (js "ghp_token");
     Dispatch.SHARED_DISPATCH_TOKEN := Some [] |}.

Definition github_accepts : Dispatch.GitHub := fun _ => Some (204%N, []).

Definition request_without_token : Dispatch.Req :=
  {| Dispatch.method := Some (js "GET");
     Dispatch.query :=
       Some {| Dispatch.q_task_id := Some (js "868fj80zu");
               Dispatch.q_task := None; Dispatch.q_token := None |};
     Dispatch.body := Dispatch.BodyNotObject;
     Dispatch.headers :=
       {| Dispatch.h_x_auth := None; Dispatch.h_X_Auth := None;
          Dispatch.h_authorization := Some (js "Bearer ");
          Dispatch.h_Authorization := None;
          Dispatch.h_content_type := None |};
     Dispatch.stream := Some (Dispatch.BodyObject None None None) |}.

(** ** Vocabulary of the further statements *)

(** The code units a string normalized by [normalize] is made of:
    [a-z], [0-9], the underscore and the space. *)
Definition normalize_unit (c : N) : bool :=
  is_lower c || is_digit c || (c =? 95)%N || (c =? 32)%N.

(** The code units a string normalized by [norm] is made of: [a-z],
    [0-9], the dot, the hyphen and the space. *)
Definition norm_unit (c : N) : bool :=
  is_lower c || is_digit c || (c =? 46)%N || (c =? 45)%N || (c =? 32)%N.

(** The places a request carries a token in, as the handlers read them. *)
Definition tokenQP (req : Dispatch.Req) : jsstring :=
  trim (Dispatch.str_or (Dispatch.q_token (Dispatch.query_of req)) []).

Definition tokenHdr (req : Dispatch.Req) : jsstring :=
  trim (Dispatch.str_or
          (Dispatch.or_str (Dispatch.h_x_auth (Dispatch.headers req))
                           (Dispatch.h_X_Auth (Dispatch.headers req))) []).

Definition bearerToken (req : Dispatch.Req) : jsstring :=
  let authHdr :=
    trim (Dispatch.str_or
            (Dispatch.or_str (Dispatch.h_authorization (Dispatch.headers req))
                             (Dispatch.h_Authorization (Dispatch.headers req))) []) in
  if startsWith (toLowerCase authHdr) (js "bearer ")
  then trim (skipn 7 authHdr) else [].

(** The configured secret as the two later handlers compare it. *)
Definition expectedToken (env : Dispatch.Env) : jsstring :=
  trim (Dispatch.str_or (Dispatch.SHARED_DISPATCH_TOKEN env) []).

(** The body the first handler reads its token and task id from. *)
Definition jsonBody (req : Dispatch.Req) : option Dispatch.Body :=
  if includes (Dispatch.str_or (Dispatch.h_content_type (Dispatch.headers req)) [])
       (js "application/json")
  then Dispatch.stream req
  else Some (Dispatch.BodyObject None None None).

(** GitHub accepted the dispatch: status 204 for the two later handlers,
    any 2xx status ([res.ok]) for the first one. *)
Definition accepted_204 (a : option (N * jsstring)) : bool :=
  match a with Some (st, _) => (st =? 204)%N | None => false end.

Definition accepted_2xx (a : option (N * jsstring)) : bool :=
  match a with Some (st, _) => (200 <=? st)%N && (st <=? 299)%N | None => false end.

(** The two shapes of what a handler does: it refuses without sending, or
    it sends one request with a trimmed, non-empty task id and answers by
    what GitHub did with it. *)
Definition refused (out : Dispatch.Outcome) : Prop :=
  Dispatch.sent out = [] /\ In (Dispatch.status out) [400; 401; 500]%N.

Definition forwarded (accepted : option (N * jsstring) -> bool)
    (gh : Dispatch.GitHub) (out : Dispatch.Outcome) : Prop :=
  exists r, Dispatch.sent out = [r]
    /\ truthy (Dispatch.gh_task r) = true
    /\ trim (Dispatch.gh_task r) = Dispatch.gh_task r
    /\ if accepted (gh r) then Dispatch.status out = 200%N
       else In (Dispatch.status out) [500; 502]%N.

(** The token of the JSON body the first handler reads. *)
Definition bodyToken (req : Dispatch.Req) : jsstring :=
  match jsonBody req with
  | Some (Dispatch.BodyObject _ _ token) => Dispatch.str_or token []
  | _ => []
  end.

(** A deployment with a secret, and a request that carries it as a bearer
    token. *)
Definition env_secret : Dispatch.Env :=
  {| Dispatch.GH_REPO := Some (js "lacey-griffith/airdrop");
     Dispatch.GH_WORKFLOW := Some (js "post-qa.yml");
     Dispatch.GH_REF := None;
     Dispatch.GH_TOKEN := Some (js "ghp_token");
     Dispatch.SHARED_DISPATCH_TOKEN := Some (js " s3cret ") |}.

Definition request_bearer : Dispatch.Req :=
  {| Dispatch.method := Some (js "POST");
     Dispatch.query := None;
     Dispatch.body := Dispatch.BodyObject (Some (js " 868fj80zu ")) None None;
     Dispatch.headers :=
       {| Dispatch.h_x_auth := None; Dispatch.h_X_Auth := None;
          Dispatch.h_authorization := Some (js "bearer s3cret");
          Dispatch.h_Authorization := None;
          Dispatch.h_content_type := None |};
     Dispatch.stream := None |}.

(** One of the three signatures of a preview link occurs in [m]. *)
Definition has_signature (m : jsstring) : Prop :=
  exists k, Regex.sig_at (skipn k m) = true.

(** The calls [readFolder] may make: to the storage service with the
    token obtained, the first listing for the folder of the task, and
    uploads to the task itself. *)
Definition storage_call (qaFolderUrl token TASK_ID : jsstring)
    (c : Pipeline.Call) : Prop :=
  match c with
  | Pipeline.ListFolderItems u t => u = qaFolderUrl /\ t = token
  | Pipeline.ListFolderChildren _ _ t => t = token
  | Pipeline.DownloadItemBuffer _ _ t => t = token
  | Pipeline.UploadAttachment id _ _ => id = TASK_ID
  | Pipeline.GetGraphToken => False
  | Pipeline.Post _ _ => False
  end.

(** The images the tracker accepted among the calls [ext], made after the
    calls [h]: their file names and the addresses it answered. *)
Fixpoint uploads_accepted (w : Pipeline.Outside) (h ext : list Pipeline.Call)
  : list PostQa.Image :=
  match ext with
  | [] => []
  | c :: r =>
      match c with
      | Pipeline.UploadAttachment _ filename _ =>
          match Pipeline.uploadedUrl w (h ++ [c]) with
          | Some u => [{| PostQa.img_name := filename; PostQa.img_url := u |}]
          | None => []
          end
      | _ => []
      end ++ uploads_accepted w (h ++ [c]) r
  end.

(** What a piece of step 3 does to the variables: it adds calls that
    satisfy [P], appends to [uploadedImages] the images accepted among
    them, and leaves [previewLinks] alone or sets it to the links of a
    workbook the library read. *)
Definition keeps (P : Pipeline.Call -> Prop) (A : Type) (m : Pipeline.Run A)
  : Prop :=
  forall w v,
    exists ext,
      Pipeline.calls (snd (m w v)) = Pipeline.calls v ++ ext
      /\ Forall P ext
      /\ Pipeline.uploadedImages (snd (m w v))
         = Pipeline.uploadedImages v ++ uploads_accepted w (Pipeline.calls v) ext
      /\ (Pipeline.previewLinks (snd (m w v)) = Pipeline.previewLinks v
          \/ exists buf wb,
               Pipeline.readWorkbook w buf = Some wb
               /\ Pipeline.previewLinks (snd (m w v))
                  = SharepointB.extractPreviewLinksFromXlsx wb).

(** The name [run] gives the task, and the address of its folder. *)
Definition taskName_of (TASK_ID : jsstring) (task : PostQa.Task) : jsstring :=
  PostQa.str_or (PostQa.task_name task) TASK_ID.

Definition qaFolderUrl_of (cfg : Pipeline.Settings) (task : PostQa.Task)
  : jsstring :=
  Pipeline.getTextFieldValue (PostQa.findCustomField task (Pipeline.qaDocUrl cfg)).

(** The settings of part_002 with the configuration above, and an outside
    where the folder of the task holds a spreadsheet and two images, the
    second of which cannot be downloaded. *)
Definition settings_part_002 : Pipeline.Settings :=
  {| Pipeline.config := config_part_001;
     Pipeline.qaDocUrl := js "QA Doc";
     Pipeline.clientMentions := js "Client Mentions";
     Pipeline.mentionMap := fun _ => None;
     Pipeline.restrictToQAishNames := false |}.

Definition second_image_fails : Pipeline.Outside :=
  {| Pipeline.graphToken := fun _ => PostQa.Ok (Some (js "tok"));
     Pipeline.folderItems := fun _ =>
       Some [entryB "CF-123.xlsx" false; entryB "a.png" false;
             entryB "b.png" false];
     Pipeline.folderChildren := fun _ => None;
     Pipeline.itemBuffer := fun h =>
       if (length h <=? 5)%nat then Some [80; 75]%N else None;
     Pipeline.readWorkbook := fun _ => Some repeated_link;
     Pipeline.uploadedUrl := fun _ => Some (js "https://cu/a.png");
     Pipeline.postAccepted := fun _ => true |}.

(** The characters that need no escaping in a path: [[A-Za-z0-9_-]]. *)
Definition urlsafe (c : N) : bool :=
  is_upper c || is_lower c || is_digit c || (c =? 45)%N || (c =? 95)%N.

(** Reading a share id back: the six-bit value of a character, and the
    bytes of a text of such characters. *)
Definition sextet_of (c : N) : N :=
  (if is_upper c then c - 65
   else if is_lower c then c - 71
   else if is_digit c then c + 4
   else if c =? 45 then 62 else 63)%N.

Fixpoint bytes_of_base64url (s : jsstring) : list N :=
  match s with
  | a :: b :: c :: d :: r =>
      (sextet_of a * 4 + sextet_of b / 16)%N
      :: ((sextet_of b mod 16) * 16 + sextet_of c / 4)%N
      :: ((sextet_of c mod 4) * 64 + sextet_of d)%N
      :: bytes_of_base64url r
  | [a; b; c] =>
      [(sextet_of a * 4 + sextet_of b / 16)%N;
       ((sextet_of b mod 16) * 16 + sextet_of c / 4)%N]
  | [a; b] => [(sextet_of a * 4 + sextet_of b / 16)%N]
  | _ => []
  end.

(** The character of a six-bit value after the two replacements, and the
    share id of a sequence of bytes without its prefix. *)
Definition b64url (i : N) : N :=
  (if (if ShareId.b64 i =? 43 then 45 else ShareId.b64 i) =? 47 then 95
   else if ShareId.b64 i =? 43 then 45 else ShareId.b64 i)%N.

Definition shareId_body (bytes : list N) : jsstring :=
  ShareId.strip_padding
    (ShareId.replace_slash (ShareId.replace_plus (ShareId.base64 bytes))).

(** * Properties *)

(** ** Strings *)

Lemma str_eqb_eq (a b : jsstring) : str_eqb a b = true <-> a = b.
Proof.
  revert b; induction a as [|x a IH]; intros [|y b]; simpl;
    try (split; [discriminate | discriminate]); try tauto.
  rewrite andb_true_iff, N.eqb_eq, IH. split.
  - intros [-> ->]; reflexivity.
  - intros H; inversion H; auto.
Qed.

Lemma str_eqb_refl (a : jsstring) : str_eqb a a = true.
Proof. apply str_eqb_eq; reflexivity. Qed.


(** ** Normalization (C8) *)

Example normalize_required :
  normalize (js "Needs Approval (Dev)") = js "needs approval dev".
Proof. reflexivity. Qed.

Example norm_dash :
  norm (js "Task_A " ++ [0x2014%N] ++ js " v2!.XLSX") = js "task a - v2.xlsx".
Proof. reflexivity. Qed.

Lemma adjacent_spaces_cons a b r :
  adjacent_spaces (a :: b :: r)
  = ((a =? 32)%N && (b =? 32)%N || adjacent_spaces (b :: r)).
Proof. reflexivity. Qed.

Section Canonical.

(** A normalizer [trim (keep_only keep (collapse_runs cls false (pre x)))]
    whose collapsed class [cls] and kept class [keep] both hold the space. *)
Variables cls keep : N -> bool.
Hypothesis cls_space : cls 32%N = true.
Hypothesis keep_space : keep 32%N = true.

Lemma collapse_runs_Forall (Q : N -> Prop) s b :
  Q 32%N -> Forall Q s -> Forall Q (collapse_runs cls b s).
Proof.
  intros Q32 H; revert b; induction H as [|c r Hc _ IH]; intros b; simpl.
  - constructor.
  - destruct (cls c); [destruct b|]; auto.
Qed.

Lemma collapse_runs_sep s b :
  Forall (fun c => c = 32%N \/ cls c = false) (collapse_runs cls b s).
Proof.
  revert b; induction s as [|c r IH]; intros b; simpl.
  - constructor.
  - destruct (cls c) eqn:E; [destruct b|]; auto.
Qed.

Lemma keep_only_settled s :
  Forall (fun c => c = 32%N \/ cls c = false) s ->
  Forall (settled cls keep) (keep_only keep s).
Proof.
  unfold keep_only. induction 1 as [|c r Hc _ IH]; simpl.
  - constructor.
  - destruct (keep c) eqn:E; auto.
    constructor; auto. destruct Hc as [->|Hc]; [left|right]; auto.
Qed.

Lemma settled_cls c : settled cls keep c -> (cls c = true <-> c = 32%N).
Proof.
  intros [->|[Hc _]]; split; intros; auto; congruence.
Qed.

Lemma keep_only_id s : Forall (settled cls keep) s -> keep_only keep s = s.
Proof.
  unfold keep_only. induction 1 as [|c r Hc _ IH]; simpl; auto.
  destruct Hc as [->|[_ Hk]]; [rewrite keep_space | rewrite Hk];
    f_equal; auto.
Qed.

Lemma collapse_runs_length s b :
  (length (collapse_runs cls b s) <= length s)%nat.
Proof.
  revert b; induction s as [|c r IH]; intros b; simpl; auto.
  pose proof (IH true); pose proof (IH false).
  destruct (cls c); [destruct b|]; simpl; lia.
Qed.

Lemma collapse_runs_fix s : forall b,
  Forall (settled cls keep) s ->
  (collapse_runs cls b s = s
   <-> (b = true -> head_free cls s = true) /\ adjacent_spaces s = false).
Proof.
  induction s as [|c r IH]; intros b Hs.
  - simpl. intuition.
  - inversion Hs as [|? ? Hc Hr]; subst.
    cbn [collapse_runs]. destruct (cls c) eqn:E.
    + assert (c = 32%N) as -> by (apply (settled_cls Hc); auto).
      destruct b.
      * split.
        -- intros H. pose proof (collapse_runs_length r true) as L.
           rewrite H in L. simpl in L. lia.
        -- intros [H _]. specialize (H eq_refl). simpl in H.
           rewrite cls_space in H. discriminate.
      * split.
        -- intros H. inversion H as [H']. rewrite H'.
           apply (IH true Hr) in H'. destruct H' as [Hh Ha].
           split; [discriminate|].
           destruct r as [|d r']; auto.
           rewrite adjacent_spaces_cons, Ha, orb_false_r.
           specialize (Hh eq_refl). simpl in Hh.
           destruct (N.eqb_spec d 32) as [->|]; simpl; auto.
           rewrite cls_space in Hh. discriminate.
        -- intros [_ Ha]. f_equal. apply (IH true Hr).
           destruct r as [|d r']; [split; auto|].
           rewrite adjacent_spaces_cons in Ha. apply orb_false_iff in Ha.
           destruct Ha as [Hd Ha]. split; auto. intros _. simpl in *.
           inversion Hr as [|? ? Hd' _]; subst.
           destruct (cls d) eqn:Ed; auto.
           apply (settled_cls Hd') in Ed. subst d. discriminate.
    + assert (c <> 32%N) as Hn by (intros ->; congruence).
      split.
      * intros H. inversion H as [H']. rewrite H'.
        apply (IH false Hr) in H'. destruct H' as [_ Ha].
        split; [intros _; simpl; rewrite E; auto|].
        destruct r as [|d r']; auto. rewrite adjacent_spaces_cons, Ha.
        apply N.eqb_neq in Hn. rewrite Hn. reflexivity.
      * intros [_ Ha]. f_equal. apply (IH false Hr). split; [discriminate|].
        destruct r as [|d r']; auto. rewrite adjacent_spaces_cons in Ha.
        apply orb_false_iff in Ha. tauto.
Qed.

End Canonical.

Lemma trimStart_Forall (Q : N -> Prop) s : Forall Q s -> Forall Q (trimStart s).
Proof.
  induction 1 as [|c r Hc Hr IH]; simpl; auto.
  destruct (is_space c); auto.
Qed.

Lemma trimEnd_Forall (Q : N -> Prop) s : Forall Q s -> Forall Q (trimEnd s).
Proof.
  induction 1 as [|c r Hc Hr IH]; simpl; auto.
  destruct (trimEnd r); [destruct (is_space c)|]; auto.
Qed.

Lemma trim_Forall (Q : N -> Prop) s : Forall Q s -> Forall Q (trim s).
Proof. intros; apply trimEnd_Forall, trimStart_Forall; assumption. Qed.

Lemma trimStart_head s : head_free is_space (trimStart s) = true.
Proof.
  induction s as [|c r IH]; simpl; auto.
  destruct (is_space c) eqn:E; auto. simpl. rewrite E. reflexivity.
Qed.

Lemma trimStart_fix s : head_free is_space s = true -> trimStart s = s.
Proof.
  destruct s as [|c r]; simpl; auto.
  destruct (is_space c); [discriminate | reflexivity].
Qed.

Lemma trimEnd_fix_iff s : trimEnd s = s <-> ends_clean s = true.
Proof.
  induction s as [|c r IH]; [simpl; tauto|].
  cbn [trimEnd]. destruct r as [|d r'].
  - simpl. destruct (is_space c); simpl; split; congruence.
  - assert (ends_clean (c :: d :: r') = ends_clean (d :: r')) as -> by reflexivity.
    destruct (trimEnd (d :: r')) as [|e t] eqn:E.
    + split.
      * destruct (is_space c); discriminate.
      * intros H. apply IH in H. discriminate.
    + rewrite <- IH. split; congruence.
Qed.

Lemma trimEnd_ends s : ends_clean (trimEnd s) = true.
Proof.
  induction s as [|c r IH]; [reflexivity|].
  cbn [trimEnd]. destruct (trimEnd r) as [|e t] eqn:E.
  - destruct (is_space c) eqn:Ec; simpl; auto. rewrite Ec. reflexivity.
  - exact IH.
Qed.

Lemma trimEnd_head s :
  head_free is_space s = true -> head_free is_space (trimEnd s) = true.
Proof.
  destruct s as [|c r]; [auto|].
  cbn [trimEnd head_free]. intros H.
  destruct (trimEnd r); [|exact H].
  destruct (is_space c) eqn:E; [discriminate | simpl; rewrite E; reflexivity].
Qed.

Lemma trim_fix s :
  head_free is_space s = true -> ends_clean s = true -> trim s = s.
Proof.
  intros H1 H2. unfold trim. rewrite (trimStart_fix _ H1).
  apply trimEnd_fix_iff. assumption.
Qed.

Lemma trim_shape s :
  head_free is_space (trim s) = true /\ ends_clean (trim s) = true.
Proof.
  unfold trim. split.
  - apply trimEnd_head, trimStart_head.
  - apply trimEnd_ends.
Qed.

Lemma trim_idempotent s : trim (trim s) = trim s.
Proof. apply trim_fix; apply trim_shape. Qed.

Lemma keep_only_Forall (Q : N -> Prop) keep s :
  Forall Q s -> Forall Q (keep_only keep s).
Proof.
  unfold keep_only. induction 1 as [|c r Hc _ IH]; simpl; auto.
  destruct (keep c); auto.
Qed.

Section Normalizer.

Variables cls keep : N -> bool.
Variable pre : jsstring -> jsstring.
Variable Q : N -> Prop.
Hypothesis cls_space : cls 32%N = true.
Hypothesis keep_space : keep 32%N = true.
Hypothesis Q_space : Q 32%N.
Hypothesis pre_out : forall x, Forall Q (pre x).
Hypothesis pre_fix :
  forall y, Forall Q y -> Forall (settled cls keep) y -> pre y = y.

Lemma canon_shape x :
  Forall (settled cls keep) (canon cls keep pre x)
  /\ Forall Q (canon cls keep pre x)
  /\ head_free is_space (canon cls keep pre x) = true
  /\ ends_clean (canon cls keep pre x) = true.
Proof.
  unfold canon. repeat split.
  - apply trim_Forall, keep_only_settled, collapse_runs_sep.
  - apply trim_Forall, keep_only_Forall, collapse_runs_Forall; auto.
  - apply trim_shape.
  - apply trim_shape.
Qed.

Lemma last_cons_nonempty (x : N) t d : t <> [] -> last (x :: t) d = last t d.
Proof. destruct t; [congruence | reflexivity]. Qed.

Lemma collapse_runs_last s : forall b,
  s <> [] -> cls (last s 0%N) = false ->
  collapse_runs cls b s <> []
  /\ last (collapse_runs cls b s) 0%N = last s 0%N.
Proof.
  induction s as [|c r IH]; intros b Hne Hl; [congruence|].
  destruct (list_eq_dec N.eq_dec r []) as [->|Hr].
  - simpl in *. rewrite Hl. split; [discriminate | reflexivity].
  - rewrite (last_cons_nonempty c 0%N Hr) in *.
    pose proof (IH true Hr Hl) as [Ht1 Ht2].
    pose proof (IH false Hr Hl) as [Hf1 Hf2].
    cbn [collapse_runs].
    destruct (cls c); [destruct b|].
    + split; assumption.
    + split; [discriminate|]. rewrite last_cons_nonempty; assumption.
    + split; [discriminate|]. rewrite last_cons_nonempty; assumption.
Qed.

Lemma collapse_runs_shape y :
  Forall (settled cls keep) y ->
  head_free is_space y = true -> ends_clean y = true ->
  head_free is_space (collapse_runs cls false y) = true
  /\ ends_clean (collapse_runs cls false y) = true.
Proof.
  intros Hs Hh He. destruct y as [|c r]; [split; reflexivity|].
  split.
  - simpl in Hh. inversion Hs as [|? ? Hc _]; subst.
    assert (cls c = false) as Ec.
    { destruct Hc as [->|[Hc _]]; [discriminate Hh | exact Hc]. }
    simpl. rewrite Ec. simpl. exact Hh.
  - assert (is_space (last (c :: r) 0%N) = false) as Hl.
    { unfold ends_clean in He. apply negb_true_iff in He. exact He. }
    assert (settled cls keep (last (c :: r) 0%N)) as Hlast.
    { rewrite Forall_forall in Hs. apply Hs.
      destruct (@exists_last _ (c :: r)) as (l' & a & E); [discriminate|].
      rewrite E, last_last. apply in_or_app; right; left; reflexivity. }
    assert (cls (last (c :: r) 0%N) = false) as Hc.
    { destruct Hlast as [E|[Hc _]]; [rewrite E in Hl; discriminate | exact Hc]. }
    destruct (@collapse_runs_last (c :: r) false) as [Hne Hl']; auto;
      try discriminate.
    unfold ends_clean.
    destruct (collapse_runs cls false (c :: r)); [reflexivity|].
    rewrite Hl', Hl. reflexivity.
Qed.

Lemma canon_again x :
  canon cls keep pre (canon cls keep pre x)
  = collapse_runs cls false (canon cls keep pre x).
Proof.
  destruct (canon_shape x) as (Hs & Hq & Hh & He).
  set (y := canon cls keep pre x) in *.
  unfold canon at 1. rewrite (pre_fix Hq Hs).
  rewrite (@keep_only_id cls keep keep_space).
  - destruct (collapse_runs_shape Hs Hh He). apply trim_fix; assumption.
  - apply collapse_runs_Forall; [left; reflexivity | exact Hs].
Qed.

Lemma canon_twice_iff x :
  canon cls keep pre (canon cls keep pre x) = canon cls keep pre x
  <-> adjacent_spaces (canon cls keep pre x) = false.
Proof.
  rewrite canon_again.
  destruct (canon_shape x) as (Hs & _).
  rewrite (collapse_runs_fix cls_space keep_space false Hs).
  split; [tauto | intros; split; [discriminate | assumption]].
Qed.

End Normalizer.

(** Case analysis on the comparisons that define the character classes. *)
Ltac char_cases :=
  repeat match goal with
    | |- context [N.leb ?a ?b] => destruct (N.leb_spec a b)
    | |- context [N.eqb ?a ?b] => destruct (N.eqb_spec a b)
    | H : context [N.leb ?a ?b] |- _ => destruct (N.leb_spec a b)
    | H : context [N.eqb ?a ?b] |- _ => destruct (N.eqb_spec a b)
    end;
  simpl in *; try discriminate; try reflexivity; try lia.

Lemma toLowerCase1_fixed c d : In d (toLowerCase1 c) -> lower_fixed d.
Proof.
  unfold lower_fixed, toLowerCase1, is_upper.
  destruct ((65 <=? c) && (c <=? 90))%N eqn:U.
  - intros [<-|[]]. apply andb_true_iff in U. destruct U as [U1 U2].
    apply N.leb_le in U1, U2. char_cases.
  - destruct (N.eqb_spec c 0x130).
    + intros [<-|[<-|[]]]; reflexivity.
    + destruct (N.eqb_spec c 0x212A).
      * intros [<-|[]]; reflexivity.
      * intros [<-|[]]. rewrite U.
        destruct (N.eqb_spec c 0x130); [contradiction|].
        destruct (N.eqb_spec c 0x212A); [contradiction|]. reflexivity.
Qed.

Lemma toLowerCase_fixed x : Forall lower_fixed (toLowerCase x).
Proof.
  apply Forall_forall. intros d H. unfold toLowerCase in H.
  apply in_flat_map in H. destruct H as (c & _ & H).
  exact (toLowerCase1_fixed _ _ H).
Qed.

Lemma toLowerCase_id y : Forall lower_fixed y -> toLowerCase y = y.
Proof.
  unfold toLowerCase. induction 1 as [|c r Hc _ IH]; simpl; auto.
  rewrite Hc, IH. reflexivity.
Qed.

Lemma normalize_canon x :
  normalize x = canon is_space (fun c => is_word c || is_space c) toLowerCase x.
Proof. reflexivity. Qed.

Lemma norm_canon x :
  norm x
  = canon (fun c => (c =? 95)%N || is_space c)
      (fun c => is_word c || (c =? 46)%N || (c =? 45)%N || (c =? 32)%N)
      (fun s => map dashfold (toLowerCase s)) x.
Proof. reflexivity. Qed.

(** The second pass of [normalize] only collapses the spaces again. *)
Lemma normalize_again x :
  normalize (normalize x) = collapse_runs is_space false (normalize x).
Proof.
  rewrite !normalize_canon.
  apply (@canon_again _ _ _ lower_fixed).
  - reflexivity.
  - reflexivity.
  - exact toLowerCase_fixed.
  - intros y Hy _. apply toLowerCase_id; assumption.
Qed.

Lemma dashfold_fixed y :
  Forall (fun c => lower_fixed c /\ dashfold c = c) y ->
  map dashfold (toLowerCase y) = y.
Proof.
  intros H. rewrite toLowerCase_id.
  - induction H as [|c r [_ Hc] _ IH]; simpl; auto. rewrite Hc, IH; reflexivity.
  - eapply Forall_impl; [|exact H]. simpl; tauto.
Qed.

Lemma dashfold_out x :
  Forall (fun c => lower_fixed c /\ dashfold c = c) (map dashfold (toLowerCase x)).
Proof.
  apply Forall_forall. intros d H. apply in_map_iff in H.
  destruct H as (c & <- & H).
  pose proof (toLowerCase_fixed x) as F. rewrite Forall_forall in F.
  specialize (F c H). unfold dashfold.
  destruct ((c =? 8211)%N || (c =? 8212)%N) eqn:E.
  - split; reflexivity.
  - rewrite E. split; auto.
Qed.

Lemma norm_again x :
  norm (norm x) = collapse_runs (fun c => (c =? 95)%N || is_space c) false (norm x).
Proof.
  rewrite !norm_canon.
  apply (@canon_again _ _ _ (fun c => lower_fixed c /\ dashfold c = c)).
  - reflexivity.
  - split; reflexivity.
  - exact dashfold_out.
  - intros y Hy _. apply dashfold_fixed; assumption.
Qed.

Lemma collapse_runs_no_adjacent cls s :
  cls 32%N = true ->
  forall b,
    adjacent_spaces (collapse_runs cls b s) = false
    /\ (b = true -> head_free cls (collapse_runs cls b s) = true).
Proof.
  intros H32. induction s as [|c r IH]; intros b; [split; reflexivity|].
  cbn [collapse_runs]. destruct (cls c) eqn:E; [destruct b|].
  - apply IH.
  - destruct (IH true) as [Ha Hh]. split; [|discriminate].
    destruct (collapse_runs cls true r) as [|d t]; [reflexivity|].
    rewrite adjacent_spaces_cons, Ha, orb_false_r.
    specialize (Hh eq_refl). simpl in Hh.
    destruct (N.eqb_spec d 32) as [->|]; [|reflexivity].
    rewrite H32 in Hh. discriminate.
  - destruct (IH false) as [Ha _]. split; [|simpl; rewrite E; reflexivity].
    destruct (collapse_runs cls false r) as [|d t]; [reflexivity|].
    rewrite adjacent_spaces_cons, Ha, orb_false_r.
    destruct (N.eqb_spec c 32) as [->|]; [congruence | reflexivity].
Qed.

(** A second pass of a normalizer reaches its fixed point. *)
Lemma normalize_stable x :
  normalize (normalize (normalize x)) = normalize (normalize x).
Proof.
  rewrite normalize_canon at 1. rewrite normalize_canon at 1.
  apply (@canon_twice_iff _ _ _ lower_fixed);
    try reflexivity; try exact toLowerCase_fixed.
  - intros y Hy _. apply toLowerCase_id; assumption.
  - fold (normalize (normalize x)). rewrite normalize_again.
    apply collapse_runs_no_adjacent. reflexivity.
Qed.

Lemma norm_stable x : norm (norm (norm x)) = norm (norm x).
Proof.
  rewrite norm_canon at 1. rewrite norm_canon at 1.
  apply (@canon_twice_iff _ _ _ (fun c => lower_fixed c /\ dashfold c = c));
    try reflexivity; try exact dashfold_out.
  - split; reflexivity.
  - intros y Hy _. apply dashfold_fixed; assumption.
  - fold (norm (norm x)). rewrite norm_again.
    apply collapse_runs_no_adjacent. reflexivity.
Qed.

(** C8, as the specification states it, fails: stripping the punctuation
    between two runs of whitespace leaves two adjacent spaces, which only a
    second pass collapses.  [normalize("a - b")] is ["a  b"] and
    [normalize("a  b")] is ["a b"]; [norm] of [src/sharepoint.js] does the
    same on ["a ! b"]. *)
Lemma normalize_not_idempotent :
  normalize (normalize (js "a - b")) <> normalize (js "a - b")
  /\ norm (norm (js "a ! b")) <> norm (js "a ! b").
Proof. split; vm_compute; discriminate. Qed.

(** C8, amended: normalization is idempotent exactly on the strings whose
    normalized form has no two adjacent spaces, for [normalize] of
    [post-qa.js] and part_000 and for [norm] of [src/sharepoint.js]. *)
Theorem normalize_idempotent_iff (x : jsstring) :
  (normalize (normalize x) = normalize x
   <-> adjacent_spaces (normalize x) = false)
  /\ (norm (norm x) = norm x <-> adjacent_spaces (norm x) = false).
Proof.
  split.
  - rewrite !normalize_canon.
    apply (@canon_twice_iff _ _ _ lower_fixed);
      try reflexivity; try exact toLowerCase_fixed.
    intros y Hy _. apply toLowerCase_id; assumption.
  - rewrite !norm_canon.
    apply (@canon_twice_iff _ _ _ (fun c => lower_fixed c /\ dashfold c = c));
      try reflexivity; try exact dashfold_out.
    + split; reflexivity.
    + intros y Hy _. apply dashfold_fixed; assumption.
Qed.

(** ** Checkbox truthiness (C4) *)

(** The string encodings of a checked checkbox. *)
Lemma checked_encodings s :
  (str_eqb s (js "true") || str_eqb s (js "1") || str_eqb s (js "yes")
   || str_eqb s (js "checked") || str_eqb s (js "on")) = true
  <-> In s [js "true"; js "1"; js "yes"; js "checked"; js "on"].
Proof.
  rewrite !orb_true_iff, !str_eqb_eq. simpl.
  intuition (auto; try congruence).
Qed.

Example isCheckboxChecked_examples :
  let field v := Some {| PostQa.cf_id := Some (js "f1");
                         PostQa.cf_name := Some (js "Passed QA");
                         PostQa.cf_type := js "checkbox";
                         PostQa.cf_value := v |} in
  PostQa.isCheckboxChecked (field (PostQa.JStr (js "  YES "))) = true
  /\ PostQa.isCheckboxChecked (field (PostQa.JStr (js "On"))) = true
  /\ PostQa.isCheckboxChecked (field (PostQa.JStr (js "checKed"))) = true
  /\ PostQa.isCheckboxChecked (field (PostQa.JStr (js "y"))) = false
  /\ PostQa.isCheckboxChecked (field (PostQa.JStr (js "1.0"))) = false
  /\ PostQa.isCheckboxChecked (field (PostQa.JNum 1)) = true
  /\ PostQa.isCheckboxChecked (field (PostQa.JNum 0)) = false
  /\ PostQa.isCheckboxChecked (field (PostQa.JNum 2)) = false
  /\ PostQa.isCheckboxChecked (field (PostQa.JBool true)) = true
  /\ PostQa.isCheckboxChecked (field (PostQa.JBool false)) = false
  /\ PostQa.isCheckboxChecked (field PostQa.JNull) = false
  /\ PostQa.isCheckboxChecked (field PostQa.JUndefined) = false
  /\ PostQa.isCheckboxChecked (field PostQa.JOther) = false.
Proof. repeat split. Qed.

(** The first revision of [post-qa.js] accepted [true], [1] and ["1"] only;
    the later ones, which the statement describes, replaced it. *)
Remark isCheckboxChecked_first_narrower :
  let field := Some {| PostQa.cf_id := None; PostQa.cf_name := None;
                       PostQa.cf_type := []; PostQa.cf_value := PostQa.JStr (js "yes") |} in
  PostQa.isCheckboxChecked_first field = false
  /\ PostQa.isCheckboxChecked field = true.
Proof. split; reflexivity. Qed.

(** C4: [isCheckboxChecked] answers [true] exactly for a field whose value
    is the boolean [true], the number [1], or a string whose trimmed,
    lower-cased form is one of "true", "1", "yes", "checked", "on"; an
    absent field is unchecked. *)
Theorem isCheckboxChecked_spec (cfObj : option PostQa.CustomField) :
  (PostQa.isCheckboxChecked cfObj = true
   <-> exists cf, cfObj = Some cf
        /\ (PostQa.cf_value cf = PostQa.JBool true
            \/ PostQa.cf_value cf = PostQa.JNum 1
            \/ exists s, PostQa.cf_value cf = PostQa.JStr s
                 /\ In (toLowerCase (trim s))
                       [js "true"; js "1"; js "yes"; js "checked"; js "on"]))
  /\ PostQa.isCheckboxChecked None = false.
Proof.
  split; [|reflexivity].
  unfold PostQa.isCheckboxChecked. split.
  - destruct cfObj as [cf|]; [|discriminate].
    intros H. exists cf. split; [reflexivity|].
    destruct (PostQa.cf_value cf) as [| |[|]|z|s|]; try discriminate.
    + left; reflexivity.
    + right; left. destruct z as [|[p|p|]|p]; try discriminate. reflexivity.
    + right; right. exists s. split; [reflexivity|].
      apply checked_encodings. exact H.
  - intros (cf & -> & [E|[E|(s & E & H)]]); rewrite E; try reflexivity.
    apply checked_encodings. exact H.
Qed.

(** ** Spreadsheet selection (C2, C10) *)

Lemma find_first_sat (A : Type) (P : A -> bool) l e :
  find P l = Some e -> first_sat P l e.
Proof.
  induction l as [|x l IH]; simpl; [discriminate|].
  destruct (P x) eqn:E.
  - intros [= <-]. exists [], l. repeat split; auto. intros ? [].
  - intros H. destruct (IH H) as (l1 & l2 & -> & He & Hn).
    exists (x :: l1), l2. repeat split; auto.
    intros y [<-|Hy]; auto.
Qed.

Lemma find_none_sat (A : Type) (P : A -> bool) l :
  find P l = None -> none_sat P l.
Proof. intros H x Hx. exact (find_none P l H x Hx). Qed.

Lemma find_filter (A : Type) (S P : A -> bool) l :
  find P (filter S l) = find (fun x => S x && P x) l.
Proof.
  induction l as [|x l IH]; simpl; auto.
  destruct (S x); simpl; auto. destruct (P x); auto.
Qed.

Lemma filter_head_find (A : Type) (S : A -> bool) l :
  match filter S l with [] => None | x :: _ => Some x end = find S l.
Proof.
  induction l as [|x l IH]; simpl; auto. destruct (S x); auto.
Qed.

Lemma first_sat_unique (A : Type) (P : A -> bool) l e e' :
  first_sat P l e -> first_sat P l e' -> e = e'.
Proof.
  intros (l1 & l2 & -> & He & Hn) (l1' & l2' & E & He' & Hn').
  revert l1' E Hn'. induction l1 as [|x l1 IH]; intros [|y l1'] E Hn'.
  - simpl in E. injection E as E1 _. exact E1.
  - simpl in E. injection E as E1 _. rewrite E1 in He.
    rewrite (Hn' y (or_introl eq_refl)) in He. discriminate.
  - simpl in E. injection E as E1 _. rewrite <- E1 in He'.
    rewrite (Hn x (or_introl eq_refl)) in He'. discriminate.
  - simpl in E. injection E as _ E2.
    apply (IH (fun z Hz => Hn z (or_intror Hz)) l1' E2).
    intros z Hz. apply Hn'. right; exact Hz.
Qed.

Lemma first_sat_in (A : Type) (P : A -> bool) l e :
  first_sat P l e -> In e l /\ P e = true.
Proof.
  intros (l1 & l2 & -> & He & _). split; auto.
  apply in_or_app; right; left; reflexivity.
Qed.

Lemma SharepointA_selection items title :
  selection SharepointA.isSheet (SharepointA.exact (norm title))
    (SharepointA.starts (norm title)) SharepointA.preview items
    (SharepointA.findExcelForTask items title).
Proof.
  unfold SharepointA.findExcelForTask.
  destruct (find (fun f => _ && str_eqb _ _) items) as [e|] eqn:E1.
  { apply sel_exact. exact (find_first_sat _ _ E1). }
  destruct (find (fun f => _ && startsWith _ _) items) as [e|] eqn:E2.
  { apply sel_starts; [exact (find_none_sat _ _ E1) | exact (find_first_sat _ _ E2)]. }
  destruct (find (fun f => _ && Regex.has_preview _) items) as [e|] eqn:E3.
  { apply sel_preview; [exact (find_none_sat _ _ E1) | exact (find_none_sat _ _ E2)
                       | exact (find_first_sat _ _ E3)]. }
  destruct (find (fun f => negb (SharepointA.isFolder f)
                          && Regex.isExcel (SharepointA.name f)) items)
    as [e|] eqn:E4.
  - apply sel_any; [exact (find_none_sat _ _ E1) | exact (find_none_sat _ _ E2)
                   | exact (find_none_sat _ _ E3) | exact (find_first_sat _ _ E4)].
  - apply sel_none. exact (find_none_sat _ _ E4).
Qed.

Lemma SharepointB_selection items title :
  selection SharepointB.isSheet (SharepointB.exact (normalize title))
    (SharepointB.starts (normalize title)) SharepointB.preview items
    (SharepointB.findExcelForTask items title).
Proof.
  unfold SharepointB.findExcelForTask.
  pose proof (filter_head_find SharepointB.isSheet items) as Hh.
  unfold SharepointB.isSheet in Hh at 1.
  destruct (filter _ items) as [|first rest] eqn:Ef.
  { apply sel_none. apply find_none_sat. symmetry. exact Hh. }
  rewrite <- Ef. rewrite !find_filter.
  destruct (find (fun x => _ && str_eqb _ _) items) as [e|] eqn:E1.
  { apply sel_exact. exact (find_first_sat _ _ E1). }
  destruct (find (fun x => _ && startsWith _ _) items) as [e|] eqn:E2.
  { apply sel_starts; [exact (find_none_sat _ _ E1) | exact (find_first_sat _ _ E2)]. }
  destruct (find (fun x => _ && Regex.has_preview _) items) as [e|] eqn:E3.
  { apply sel_preview; [exact (find_none_sat _ _ E1) | exact (find_none_sat _ _ E2)
                       | exact (find_first_sat _ _ E3)]. }
  apply sel_any; [exact (find_none_sat _ _ E1) | exact (find_none_sat _ _ E2)
                 | exact (find_none_sat _ _ E3) |].
  apply find_first_sat. symmetry. exact Hh.
Qed.

(** The tiered selection determines its result. *)
Lemma first_none_absurd (A : Type) (P : A -> bool) l e :
  first_sat P l e -> none_sat P l -> False.
Proof.
  intros F N. destruct (first_sat_in F) as [Hin Hp].
  rewrite (N e Hin) in Hp. discriminate.
Qed.

Lemma first_none_weaker (A : Type) (S P : A -> bool) l e :
  first_sat (fun f => S f && P f) l e -> none_sat S l -> False.
Proof.
  intros F N. destruct (first_sat_in F) as [Hin Hp].
  apply andb_true_iff in Hp. destruct Hp as [Hp _].
  rewrite (N e Hin) in Hp. discriminate.
Qed.

Lemma selection_deterministic (A : Type) (sheet exact starts preview : A -> bool)
    items r r' :
  selection sheet exact starts preview items r ->
  selection sheet exact starts preview items r' ->
  r = r'.
Proof.
  intros H H'.
  inversion H; subst; inversion H'; subst;
    try reflexivity;
    try (f_equal; eapply first_sat_unique; eassumption);
    exfalso;
    match goal with
    | F : first_sat ?P ?l ?e, N : none_sat ?P ?l |- _ =>
        exact (first_none_absurd F N)
    | F : first_sat (fun f => ?S f && @?P f) ?l ?e, N : none_sat ?S ?l |- _ =>
        exact (@first_none_weaker _ S P l e F N)
    end.
Qed.

Example findExcelForTask_priority :
  SharepointA.findExcelForTask
    [entryA "preview-notes.xlsx" false; entryA "Task A - v2.xlsx" false;
     entryA "Task A.xlsx" true; entryA "TASK_A.XLSX" false]
    (js "Task A")
  = Some (entryA "TASK_A.XLSX" false)
  /\ SharepointA.findExcelForTask
       [entryA "preview-notes.xlsx" false; entryA "Task A - v2.xlsx" false]
       (js "Task A")
     = Some (entryA "Task A - v2.xlsx" false)
  /\ SharepointA.findExcelForTask
       [entryA "notes.txt" false; entryA "random.xlsx" false]
       (js "Nonexistent")
     = Some (entryA "random.xlsx" false)
  /\ SharepointB.findExcelForTask
       [entryB "random.xlsx" true; entryB "random.xlsx" false]
       (js "Nonexistent")
     = Some (entryB "random.xlsx" false)
  /\ SharepointB.findExcelForTask
       [entryB "sheets.xlsx" true; entryB "notes.txt" false] (js "sheets")
     = None.
Proof. repeat split. Qed.

(** C2 fails in part_000 on an extension in mixed case.  The type filter
    [/\.xlsx?$/i] lets ["Task A.Xlsx"] through, but the helper [base]
    strips [.xlsx], [.xls], [.XLSX] and [.XLS] only, so the name keeps its
    extension when it is normalized and the exact tier misses it: the
    lookup falls through to the first spreadsheet of the listing.  The
    name without its extension does normalize to the title, and
    [src/sharepoint.js], which lower-cases before it strips, selects it. *)
Lemma findExcelForTask_mixed_case_extension :
  let items := [entryB "other.xlsx" false; entryB "Task A.Xlsx" false] in
  SharepointB.isSheet (entryB "Task A.Xlsx" false) = true
  /\ normalize (dropEnd 5 (js "Task A.Xlsx")) = normalize (js "Task A")
  /\ SharepointB.base (js "Task A.Xlsx") = js "task axlsx"
  /\ SharepointB.findExcelForTask items (js "Task A")
     = Some (entryB "other.xlsx" false)
  /\ SharepointA.findExcelForTask
       [entryA "other.xlsx" false; entryA "Task A.Xlsx" false] (js "Task A")
     = Some (entryA "Task A.Xlsx" false).
Proof. repeat split. Qed.

(** In both revisions of [sharepoint.js], the result of [findExcelForTask]
    is the one the tiered selection determines over the entries that pass
    the spreadsheet type filter, with the tier tests as the code computes
    them: first exact match, else first prefix match, else first name with
    "preview", else first spreadsheet, and nothing only when no entry
    passes the filter.  The name compared is [norm(name)] in
    [src/sharepoint.js] (its extension removed for the exact tier) and
    [base(name)] in part_000, which removes the extension in four
    spellings only.  With ["Task A.xlsx"], ["Task A - v2.xlsx"],
    ["preview-notes.xlsx"] and the title ["Task A"], the exact match
    ["Task A.xlsx"] is selected. *)
Theorem findExcelForTask_tiers :
  (forall items title r,
     selection SharepointA.isSheet (SharepointA.exact (norm title))
       (SharepointA.starts (norm title)) SharepointA.preview items r
     <-> SharepointA.findExcelForTask items title = r)
  /\ (forall items title r,
        selection SharepointB.isSheet (SharepointB.exact (normalize title))
          (SharepointB.starts (normalize title)) SharepointB.preview items r
        <-> SharepointB.findExcelForTask items title = r)
  /\ SharepointA.findExcelForTask
       [entryA "Task A.xlsx" false; entryA "Task A - v2.xlsx" false;
        entryA "preview-notes.xlsx" false]
       (js "Task A")
     = Some (entryA "Task A.xlsx" false)
  /\ SharepointB.findExcelForTask
       [entryB "Task A.xlsx" false; entryB "Task A - v2.xlsx" false;
        entryB "preview-notes.xlsx" false]
       (js "Task A")
     = Some (entryB "Task A.xlsx" false).
Proof.
  split; [|split; [|split; reflexivity]].
  - intros items title r. split.
    + intros H. symmetry.
      exact (selection_deterministic H (SharepointA_selection items title)).
    + intros <-. apply SharepointA_selection.
  - intros items title r. split.
    + intros H. symmetry.
      exact (selection_deterministic H (SharepointB_selection items title)).
    + intros <-. apply SharepointB_selection.
Qed.

Lemma startsWith_ci_fold t p :
  length t = length p -> startsWith_ci t p = true ->
  map fold_ci t = map fold_ci p.
Proof.
  revert p; induction t as [|x t IH]; intros [|y p]; simpl;
    try discriminate; auto.
  intros [= L] H. apply andb_true_iff in H. destruct H as [H1 H2].
  unfold eq_ci in H1. apply N.eqb_eq in H1.
  rewrite (IH p L H2). congruence.
Qed.

Lemma endsWith_ci_suffix s p :
  endsWith_ci s p = true ->
  exists stem ext, s = stem ++ ext /\ map fold_ci ext = map fold_ci p.
Proof.
  unfold endsWith_ci. intros H. apply andb_true_iff in H.
  destruct H as [L H]. apply Nat.eqb_eq in L.
  exists (firstn (length s - length p) s), (skipn (length s - length p) s).
  split; [symmetry; apply firstn_skipn|].
  apply startsWith_ci_fold; assumption.
Qed.

Lemma isExcel_ext n : Regex.isExcel n = true -> ends_in_sheet_ext n.
Proof.
  unfold Regex.isExcel. intros H. apply orb_true_iff in H.
  destruct H as [H|H]; apply endsWith_ci_suffix in H;
    destruct H as (stem & ext & E & F); exists stem, ext; split; auto.
Qed.

Lemma selection_sheet (A : Type) (sheet exact starts preview : A -> bool)
    items e :
  selection sheet exact starts preview items (Some e) ->
  In e items /\ sheet e = true.
Proof.
  intros H. inversion H as [? F| ? _ F| ? _ _ F| ? _ _ _ F|]; subst;
    apply first_sat_in in F; destruct F as [Hin Hp];
    try (apply andb_true_iff in Hp; destruct Hp as [Hp _]); auto.
Qed.

(** C10: an entry [findExcelForTask] returns is an entry of the listing, is
    a file ([isFolder] is false in [src/sharepoint.js], the [file] facet is
    present in part_000) and its name ends in [.xls] or [.xlsx] in any
    case, whatever tier selected it. *)
Theorem findExcelForTask_sheet_file :
  (forall items title e,
     SharepointA.findExcelForTask items title = Some e ->
     In e items /\ SharepointA.isFolder e = false
     /\ ends_in_sheet_ext (SharepointA.name e))
  /\ (forall items title e,
        SharepointB.findExcelForTask items title = Some e ->
        In e items /\ SharepointB.isFile e = true
        /\ ends_in_sheet_ext (SharepointB.name e)).
Proof.
  split; intros items title e H.
  - pose proof (SharepointA_selection items title) as S. rewrite H in S.
    apply selection_sheet in S. destruct S as [Hin Hs].
    unfold SharepointA.isSheet in Hs. apply andb_true_iff in Hs.
    destruct Hs as [Hf Hx]. apply negb_true_iff in Hf.
    repeat split; auto. apply isExcel_ext; assumption.
  - pose proof (SharepointB_selection items title) as S. rewrite H in S.
    apply selection_sheet in S. destruct S as [Hin Hs].
    unfold SharepointB.isSheet in Hs. apply andb_true_iff in Hs.
    destruct Hs as [Hf Hx].
    repeat split; auto. apply isExcel_ext; assumption.
Qed.

(** The last-resort tier on a listing with a folder named like a
    spreadsheet and a text file: the file [random.XLS] is returned. *)
Lemma findExcelForTask_sheet_file_witness :
  SharepointA.findExcelForTask
    [entryA "budget.xlsx" true; entryA "notes.txt" false;
     entryA "random.XLS" false]
    (js "Nonexistent")
  = Some (entryA "random.XLS" false)
  /\ SharepointA.isFolder (entryA "random.XLS" false) = false
  /\ ends_in_sheet_ext (SharepointA.name (entryA "random.XLS" false)).
Proof.
  split; [reflexivity|].
  apply (proj1 findExcelForTask_sheet_file
           [entryA "budget.xlsx" true; entryA "notes.txt" false;
            entryA "random.XLS" false]
           (js "Nonexistent")).
  reflexivity.
Defined.

(** ** De-duplication of the links (C6) *)

Lemma has_In s x : JsSet.has s x = true <-> In x s.
Proof.
  unfold JsSet.has. rewrite existsb_exists. split.
  - intros (y & Hy & E). apply str_eqb_eq in E. subst. exact Hy.
  - intros H. exists x. split; [exact H | apply str_eqb_refl].
Qed.

Lemma add_spec s x :
  (In x s /\ JsSet.add s x = s) \/ (~ In x s /\ JsSet.add s x = s ++ [x]).
Proof.
  unfold JsSet.add. destruct (JsSet.has s x) eqn:E.
  - left. split; [apply has_In; exact E | reflexivity].
  - right. split; [|reflexivity]. rewrite <- has_In. congruence.
Qed.

(** Folding [add] over [l] appends to the set the strings of [l] it does
    not hold yet. *)
Lemma NoDup_snoc (A : Type) (s : list A) x :
  NoDup s -> ~ In x s -> NoDup (s ++ [x]).
Proof.
  intros Hs Hn. apply NoDup_app; auto.
  - constructor; [intros []|constructor].
  - intros a Ha [<-|[]]. contradiction.
Qed.

Lemma fold_add_grows l : forall s,
  NoDup s ->
  exists t, fold_left JsSet.add l s = s ++ t
    /\ NoDup (s ++ t)
    /\ (forall v, In v t <-> In v l /\ ~ In v s).
Proof.
  induction l as [|x l IH]; intros s Hs; simpl.
  - exists []. rewrite app_nil_r. split; [reflexivity|]. split; [exact Hs|].
    intros v. simpl. tauto.
  - destruct (add_spec s x) as [[Hin ->]|[Hn ->]].
    + destruct (IH s Hs) as (t & E & Hd & Ht).
      exists t. split; [exact E|]. split; [exact Hd|].
      intros v. rewrite Ht. split.
      * tauto.
      * intros [[<-|Hv] Hns]; [contradiction | tauto].
    + destruct (IH (s ++ [x]) (@NoDup_snoc _ s x Hs Hn)) as (t & E & Hd & Ht).
      exists (x :: t). rewrite E. rewrite <- app_assoc in *. simpl in *.
      split; [reflexivity|]. split; [exact Hd|].
      intros v. split.
      * intros [<-|Hv]; [split; [left; reflexivity | exact Hn]|].
        apply Ht in Hv. destruct Hv as [Hl Hns].
        split; [right; exact Hl|]. intros Hvs. apply Hns.
        apply in_or_app. left. exact Hvs.
      * intros [[<-|Hv] Hns]; [left; reflexivity|].
        destruct (list_eq_dec N.eq_dec x v) as [->|Hne]; [left; reflexivity|].
        right. apply Ht. split; [exact Hv|]. intros Hin.
        apply in_app_or in Hin.
        destruct Hin as [Hin|[Hin|[]]]; [exact (Hns Hin) | exact (Hne Hin)].
Qed.

Lemma of_array_dedup_stable l : dedup_stable l (JsSet.of_array l).
Proof.
  unfold JsSet.of_array, JsSet.empty. split; [|split].
  - destruct (fold_add_grows l (NoDup_nil _)) as (t & -> & Hd & _). exact Hd.
  - intros u. destruct (fold_add_grows l (NoDup_nil _)) as (t & -> & _ & Ht).
    simpl. rewrite Ht. simpl. tauto.
  - intros l1 u l2 -> Hn. rewrite fold_left_app. simpl.
    destruct (fold_add_grows l1 (NoDup_nil _)) as (r1 & -> & Hd1 & H1).
    simpl in *.
    assert (~ In u r1) as Hn1 by (rewrite H1; tauto).
    destruct (add_spec r1 u) as [[Hin _]|[_ ->]]; [contradiction|].
    simpl in Hd1.
    destruct (fold_add_grows l2 (@NoDup_snoc _ r1 u Hd1 Hn1)) as (t & -> & _ & _).
    exists r1, t. rewrite <- app_assoc. split; [reflexivity|].
    intros v. rewrite H1. tauto.
Qed.

Lemma fold_left_map (A B C : Type) (f : A -> C -> A) (h : B -> C) l a :
  fold_left (fun a x => f a (h x)) l a = fold_left f (map h l) a.
Proof. revert a; induction l as [|x l IH]; intros a; simpl; auto. Qed.

Lemma fold_left_flat_map (A B C : Type) (f : A -> C -> A) (g : B -> list C) l a :
  fold_left (fun a x => fold_left f (g x) a) l a = fold_left f (flat_map g l) a.
Proof.
  revert a; induction l as [|x l IH]; intros a; simpl; auto.
  rewrite fold_left_app. apply IH.
Qed.

Lemma fold_left_ext (A B : Type) (f g : A -> B -> A) l a :
  (forall a x, f a x = g a x) -> fold_left f l a = fold_left g l a.
Proof.
  intros E. revert a; induction l as [|x l IH]; intros a; simpl; auto.
  rewrite E. apply IH.
Qed.

(** The nested loops of the extraction add the links of the scan, one
    after the other, to one set. *)
Lemma SharepointA_extract_of_array (Sheet : Type) (csv : Sheet -> jsstring) wb :
  SharepointA.extractPreviewLinksFromXlsx csv wb
  = JsSet.of_array (csv_links csv wb).
Proof.
  unfold SharepointA.extractPreviewLinksFromXlsx, JsSet.to_array,
    JsSet.of_array, csv_links.
  rewrite <- fold_left_flat_map. apply fold_left_ext. intros a n.
  apply (fold_left_map JsSet.add trim).
Qed.

Lemma grid_fold g a :
  fold_left
    (fun links row =>
       fold_left
         (fun links cell =>
            fold_left (fun links m => JsSet.add links (trim m))
              (Regex.match_preview (Xlsx.cell_text cell)) links)
         row links)
    g a
  = fold_left JsSet.add (grid_links g) a.
Proof.
  unfold grid_links. rewrite <- fold_left_flat_map.
  apply fold_left_ext. intros a' row.
  rewrite <- fold_left_flat_map. apply fold_left_ext. intros a'' cell.
  apply (fold_left_map JsSet.add trim).
Qed.

Lemma SharepointB_extract_of_array wb :
  SharepointB.extractPreviewLinksFromXlsx wb
  = match SharepointB.pickSheet (Xlsx.SheetNames wb) with
    | Some sheetName =>
        if truthy sheetName
        then JsSet.of_array (grid_links (Xlsx.Sheets wb sheetName))
        else []
    | None => []
    end.
Proof.
  unfold SharepointB.extractPreviewLinksFromXlsx.
  destruct (SharepointB.pickSheet _) as [n|]; [|reflexivity].
  destruct (truthy n); [|reflexivity]. simpl.
  unfold JsSet.to_array, JsSet.of_array. apply grid_fold.
Qed.

Example extract_repeated_link :
  SharepointB.extractPreviewLinksFromXlsx repeated_link = [link_x; link_y]
  /\ grid_links (Xlsx.Sheets repeated_link (js "Preview links"))
     = [link_x; link_y; link_y; link_x]
  /\ SharepointA.extractPreviewLinksFromXlsx (fun t : jsstring => t)
       {| Xlsx.SheetNames := [js "One"; js "Two"];
          Xlsx.Sheets := fun n =>
            if str_eqb n (js "One")
            then link_y ++ [9; 10]%N ++ link_x
            else js "x" ++ [9]%N ++ link_y |}
     = [link_y; link_x].
Proof. repeat split. Qed.

(** C6: the links the extraction returns, in both revisions, and the
    links the orchestrator composes with, are the links of the scan without
    repetition (strings compared code unit by code unit), each at the
    place of its first occurrence.  A sheet that shows a link twice yields
    it once, where it was first seen. *)
Theorem previewLinks_dedup_stable :
  (forall (Sheet : Type) (csv : Sheet -> jsstring) wb,
     dedup_stable (csv_links csv wb)
       (SharepointA.extractPreviewLinksFromXlsx csv wb))
  /\ (forall wb sheetName,
        SharepointB.pickSheet (Xlsx.SheetNames wb) = Some sheetName ->
        truthy sheetName = true ->
        dedup_stable (grid_links (Xlsx.Sheets wb sheetName))
          (SharepointB.extractPreviewLinksFromXlsx wb))
  /\ (forall wb, NoDup (SharepointB.extractPreviewLinksFromXlsx wb))
  /\ (forall previewLinks,
        dedup_stable previewLinks (PostQa.uniqueLinks previewLinks))
  /\ SharepointB.extractPreviewLinksFromXlsx repeated_link = [link_x; link_y].
Proof.
  split; [|split; [|split; [|split]]].
  - intros Sheet csv wb. rewrite SharepointA_extract_of_array.
    apply of_array_dedup_stable.
  - intros wb n Hp Ht. rewrite SharepointB_extract_of_array, Hp, Ht.
    apply of_array_dedup_stable.
  - intros wb. rewrite SharepointB_extract_of_array.
    destruct (SharepointB.pickSheet _) as [n|]; [|constructor].
    destruct (truthy n); [|constructor].
    apply of_array_dedup_stable.
  - intros l. apply of_array_dedup_stable.
  - reflexivity.
Qed.

Lemma previewLinks_dedup_stable_witness :
  SharepointB.pickSheet (Xlsx.SheetNames repeated_link) = Some (js "Preview links")
  /\ truthy (js "Preview links") = true
  /\ dedup_stable (grid_links (Xlsx.Sheets repeated_link (js "Preview links")))
       (SharepointB.extractPreviewLinksFromXlsx repeated_link).
Proof.
  split; [reflexivity|]. split; [reflexivity|].
  apply (proj1 (proj2 previewLinks_dedup_stable)); reflexivity.
Defined.

(** ** The sheets the extraction reads (C5) *)

(** Comparisons that the bounds in the context settle. *)
Ltac settle_cmp :=
  repeat match goal with
    | |- context [N.leb ?a ?b] =>
        first [ replace (N.leb a b) with true by (symmetry; apply N.leb_le; lia)
              | replace (N.leb a b) with false by (symmetry; apply N.leb_gt; lia) ]
    | |- context [N.eqb ?a ?b] =>
        first [ replace (N.eqb a b) with false by (symmetry; apply N.eqb_neq; lia)
              | replace (N.eqb a b) with true by (symmetry; apply N.eqb_eq; lia) ]
    end.

Lemma range_not_space c : (33 <= c <= 159)%N -> is_space c = false.
Proof. intros H. unfold is_space. settle_cmp. reflexivity. Qed.

Lemma is_upper_range c : is_upper c = true <-> (65 <= c <= 90)%N.
Proof.
  unfold is_upper. rewrite andb_true_iff, !N.leb_le. tauto.
Qed.

Lemma eq_ci_not_space x c :
  eq_ci x c = true -> is_space x = false -> is_space c = false.
Proof.
  unfold eq_ci, fold_ci. intros H Hx. apply N.eqb_eq in H.
  destruct (is_upper c) eqn:Uc.
  - apply is_upper_range in Uc. apply range_not_space. lia.
  - destruct (is_upper x) eqn:Ux.
    + apply is_upper_range in Ux. apply range_not_space. lia.
    + subst c. exact Hx.
Qed.

Lemma startsWith_ci_not_space p : forall s,
  Forall (fun x => is_space x = false) p ->
  startsWith_ci s p = true ->
  Forall (fun c => is_space c = false) (firstn (length p) s).
Proof.
  induction p as [|x p IH]; intros s Hp H; [constructor|].
  destruct s as [|c s]; [discriminate|]. simpl in H.
  apply andb_true_iff in H. destruct H as [H1 H2].
  inversion Hp; subst. simpl. constructor.
  - eapply eq_ci_not_space; eauto.
  - apply IH; assumption.
Qed.

Lemma takeWhile_Forall p s : Forall (fun c => p c = true) (Regex.takeWhile p s).
Proof.
  induction s as [|c s IH]; simpl; [constructor|].
  destruct (p c) eqn:E; constructor; assumption.
Qed.

Lemma tokc_not_space c : Regex.tokc c = true -> is_space c = false.
Proof.
  unfold Regex.tokc. intros H. apply andb_true_iff in H.
  destruct H as [H _]. apply negb_true_iff in H. exact H.
Qed.

Lemma preview_at_not_space prev s m :
  Regex.preview_at prev s = Some m -> Forall (fun c => is_space c = false) m.
Proof.
  unfold Regex.preview_at, Regex.scheme_len.
  destruct (Regex.boundary prev); [|discriminate].
  destruct (startsWith_ci s (js "https://")) eqn:E8;
    [|destruct (startsWith_ci s (js "http://")) eqn:E7; [|discriminate]].
  - destruct (Regex.lazy_sig _); [|discriminate]. intros [= <-].
    apply Forall_app. split.
    + apply (@startsWith_ci_not_space (js "https://") s); auto.
      repeat constructor.
    + eapply Forall_impl; [|apply takeWhile_Forall]. exact tokc_not_space.
  - destruct (Regex.lazy_sig _); [|discriminate]. intros [= <-].
    apply Forall_app. split.
    + apply (@startsWith_ci_not_space (js "http://") s); auto.
      repeat constructor.
    + eapply Forall_impl; [|apply takeWhile_Forall]. exact tokc_not_space.
Qed.

Lemma match_all_from at_ s : forall prev skip m,
  In m (Regex.match_all at_ prev skip s) ->
  exists prev' s', at_ prev' s' = Some m.
Proof.
  induction s as [|c r IH]; intros prev skip m H; [destruct H|].
  simpl in H. destruct skip as [|k].
  - destruct (at_ prev (c :: r)) as [m'|] eqn:E.
    + destruct H as [<-|H]; [eauto | eapply IH; eauto].
    + eapply IH; eauto.
  - eapply IH; eauto.
Qed.

Lemma not_space_trim m : Forall (fun c => is_space c = false) m -> trim m = m.
Proof.
  intros H. apply trim_fix.
  - destruct H as [|c r Hc _]; simpl; [reflexivity | rewrite Hc; reflexivity].
  - destruct m as [|c r]; [reflexivity|]. unfold ends_clean.
    rewrite Forall_forall in H. rewrite H; [reflexivity|].
    destruct (@exists_last _ (c :: r)) as (l' & a & E); [discriminate|].
    rewrite E, last_last. apply in_or_app; right; left; reflexivity.
Qed.

(** [u.trim()] changes no match of the preview pattern. *)
Lemma match_preview_trim text :
  map trim (Regex.match_preview text) = Regex.match_preview text.
Proof.
  rewrite <- (map_id (Regex.match_preview text)) at 2.
  apply map_ext_in. intros m H. apply not_space_trim.
  apply match_all_from in H. destruct H as (prev & s & H).
  exact (preview_at_not_space _ _ H).
Qed.

Lemma grid_links_In g u :
  In u (grid_links g)
  <-> exists row cell, In row g /\ In cell row
        /\ In u (Regex.match_preview (Xlsx.cell_text cell)).
Proof.
  unfold grid_links, cell_links. rewrite in_flat_map. split.
  - intros (row & Hr & H). apply in_flat_map in H.
    destruct H as (cell & Hc & H). rewrite match_preview_trim in H. eauto.
  - intros (row & cell & Hr & Hc & H). exists row. split; [exact Hr|].
    apply in_flat_map. exists cell. rewrite match_preview_trim. auto.
Qed.

(** The sheet [extractPreviewLinksFromXlsx] of part_000 reads. *)
Lemma pickSheet_spec names :
  match SharepointB.pickSheet names with
  | Some n =>
      first_sat (fun n => str_eqb (normalize n) (js "preview links")) names n
      \/ (none_sat (fun n => str_eqb (normalize n) (js "preview links")) names
          /\ hd_error names = Some n)
  | None => names = []
  end.
Proof.
  unfold SharepointB.pickSheet.
  change (normalize (js "Preview Links")) with (js "preview links").
  destruct (find _ names) as [n|] eqn:E.
  - pose proof (find_first_sat _ _ E) as F.
    destruct (first_sat_in F) as [_ Hn]. apply str_eqb_eq in Hn.
    destruct n as [|c n]; [vm_compute in Hn; discriminate|].
    simpl. left. exact F.
  - pose proof (find_none_sat _ _ E) as F.
    destruct names as [|n names]; simpl; auto.
Qed.

(** In [src/sharepoint.js] every sheet of the workbook is scanned: a match
    in the CSV text of any sheet is in the result. *)
Lemma SharepointA_scans_every_sheet (Sheet : Type) (csv : Sheet -> jsstring)
    wb sheetName u :
  In sheetName (Xlsx.SheetNames wb) ->
  In u (Regex.match_preview (csv (Xlsx.Sheets wb sheetName))) ->
  In u (SharepointA.extractPreviewLinksFromXlsx csv wb).
Proof.
  intros Hn Hu. rewrite SharepointA_extract_of_array.
  apply (proj1 (proj2 (of_array_dedup_stable _))).
  unfold csv_links. apply in_flat_map. exists sheetName. split; [exact Hn|].
  rewrite match_preview_trim. exact Hu.
Qed.

(** C5, as the specification states it, fails in part_000: the workbook
    [two_sheets] holds a preview link in a cell of its second sheet,
    "Links", and the extraction, which reads the first sheet only, returns
    no link. *)
Lemma extractPreviewLinksFromXlsx_one_sheet :
  In (js "Links") (Xlsx.SheetNames two_sheets)
  /\ In [Xlsx.CText (js "see " ++ link_x)] (Xlsx.Sheets two_sheets (js "Links"))
  /\ In link_x (Regex.match_preview
                  (Xlsx.cell_text (Xlsx.CText (js "see " ++ link_x))))
  /\ ~ In link_x (SharepointB.extractPreviewLinksFromXlsx two_sheets).
Proof.
  split; [right; left; reflexivity|].
  split; [left; reflexivity|].
  split; [left; reflexivity|].
  intros H. vm_compute in H. exact H.
Qed.

(** C5, amended: [extractPreviewLinksFromXlsx] of part_000 reads one sheet,
    the first whose normalized name is "preview links" and otherwise the
    first sheet of the workbook.  It turns every cell of every row of that
    sheet into its string form and scans it with the preview pattern: the
    result holds exactly the matches found in the cells of that sheet.
    Without a sheet, or when the sheet picked has an empty name, the result
    is empty. *)
Theorem extractPreviewLinksFromXlsx_selected_sheet
    (wb : Xlsx.workbook Xlsx.grid) :
  match SharepointB.pickSheet (Xlsx.SheetNames wb) with
  | Some sheetName =>
      (first_sat (fun n => str_eqb (normalize n) (js "preview links"))
         (Xlsx.SheetNames wb) sheetName
       \/ (none_sat (fun n => str_eqb (normalize n) (js "preview links"))
             (Xlsx.SheetNames wb)
           /\ hd_error (Xlsx.SheetNames wb) = Some sheetName))
      /\ if truthy sheetName
         then forall u,
             In u (SharepointB.extractPreviewLinksFromXlsx wb)
             <-> exists row cell,
                   In row (Xlsx.Sheets wb sheetName) /\ In cell row
                   /\ In u (Regex.match_preview (Xlsx.cell_text cell))
         else SharepointB.extractPreviewLinksFromXlsx wb = []
  | None =>
      Xlsx.SheetNames wb = []
      /\ SharepointB.extractPreviewLinksFromXlsx wb = []
  end.
Proof.
  pose proof (pickSheet_spec (Xlsx.SheetNames wb)) as P.
  rewrite SharepointB_extract_of_array.
  destruct (SharepointB.pickSheet _) as [n|]; [|split; auto].
  split; [exact P|].
  destruct (truthy n); [|reflexivity].
  intros u. rewrite <- grid_links_In.
  apply (proj1 (proj2 (of_array_dedup_stable _))).
Qed.

(** ** The gate (C1, C3) *)

Example run_passes :
  fst (PostQa.run PostQa.pending_part_002 config_part_001
         (PostQa.steady (task_with "Needs Approval (Dev)" (PostQa.JBool true))
            (fun _ => true))
         PostQa.init)
  = PostQa.Ok ({| PostQa.passed := true;
                  PostQa.statusObserved := js "Needs Approval (Dev)";
                  PostQa.checkboxObserved := true |},
               task_with "Needs Approval (Dev)" (PostQa.JBool true)).
Proof. reflexivity. Qed.

(** A status that stays "QA" with the checkbox checked: one re-fetch after
    one delay, then the failure comment. *)
Example run_rechecks_once :
  let w := PostQa.steady (task_with "QA" (PostQa.JStr (js "yes"))) (fun _ => true) in
  PostQa.trace (snd (PostQa.run PostQa.pending_part_002 config_part_001 w PostQa.init))
  = [PostQa.EvGet; PostQa.EvSleep 1500; PostQa.EvGet;
     PostQa.EvPost (PostQa.failMsg config_part_001 (js "QA"))]
  /\ PostQa.trace (snd (PostQa.run PostQa.pending_part_001 config_part_001 w PostQa.init))
     = [PostQa.EvGet; PostQa.EvSleep 1500; PostQa.EvGet;
        PostQa.EvPost (PostQa.failMsg config_part_001 (js "QA"))].
Proof. split; reflexivity. Qed.

(** The automation lands during the delay: the second snapshot passes. *)
Example run_recheck_passes :
  let w := {| PostQa.gets := fun n =>
                match n with
                | O => Some (task_with "QA (Dev)" (PostQa.JNum 1))
                | _ => Some (task_with "Needs Approval (Dev)" (PostQa.JNum 1))
                end;
              PostQa.posts := fun _ => true |} in
  let out := PostQa.run PostQa.pending_part_002 config_part_001 w PostQa.init in
  PostQa.trace (snd out) = [PostQa.EvGet; PostQa.EvSleep 1500; PostQa.EvGet]
  /\ fst out
     = PostQa.Ok ({| PostQa.passed := true;
                     PostQa.statusObserved := js "Needs Approval (Dev)";
                     PostQa.checkboxObserved := true |},
                  task_with "QA (Dev)" (PostQa.JNum 1)).
Proof. split; reflexivity. Qed.

(** The two revisions disagree on the pending labels: "QA(Dev)" without a
    space is pending for the pattern of part_001 only, " qa " with spaces
    around for the normalized comparison of part_002 only. *)
Remark pending_labels_differ :
  PostQa.pending_part_001 (js "QA(Dev)") = true
  /\ PostQa.pending_part_002 (js "QA(Dev)") = false
  /\ PostQa.pending_part_001 (js " qa ") = false
  /\ PostQa.pending_part_002 (js " qa ") = true.
Proof. repeat split. Qed.

(** What [run] does once the status of the final decision is known. *)
Lemma run_unfold pending cfg w :
  PostQa.run pending cfg w PostQa.init
  = match PostQa.gets w 0 with
    | None =>
        (PostQa.Throw,
         {| PostQa.nGets := 1; PostQa.nPosts := 0; PostQa.trace := [PostQa.EvGet] |})
    | Some task =>
        let passedQA :=
          PostQa.isCheckboxChecked (PostQa.findCustomField task (PostQa.passedQA cfg)) in
        let decide statusNow (st : PostQa.St) :=
          let statusOk :=
            str_eqb (normalize statusNow) (normalize (PostQa.requiredStatus cfg)) in
          if negb statusOk || negb passedQA then
            (PostQa.Ok ({| PostQa.passed := false;
                           PostQa.statusObserved := statusNow;
                           PostQa.checkboxObserved := passedQA |}, task),
             if PostQa.postGateFailureComment cfg
             then {| PostQa.nGets := PostQa.nGets st;
                     PostQa.nPosts := S (PostQa.nPosts st);
                     PostQa.trace :=
                       PostQa.trace st
                       ++ [PostQa.EvPost (PostQa.failMsg cfg statusNow)] |}
             else st)
          else
            (PostQa.Ok ({| PostQa.passed := true;
                           PostQa.statusObserved := statusNow;
                           PostQa.checkboxObserved := passedQA |}, task), st) in
        if recheck_needed pending cfg task then
          match PostQa.gets w 1 with
          | None =>
              (PostQa.Throw,
               {| PostQa.nGets := 2; PostQa.nPosts := 0;
                  PostQa.trace :=
                    [PostQa.EvGet; PostQa.EvSleep 1500; PostQa.EvGet] |})
          | Some t2 =>
              decide (PostQa.statusOf t2)
                {| PostQa.nGets := 2; PostQa.nPosts := 0;
                   PostQa.trace :=
                     [PostQa.EvGet; PostQa.EvSleep 1500; PostQa.EvGet] |}
          end
        else
          decide (PostQa.statusOf task)
            {| PostQa.nGets := 1; PostQa.nPosts := 0;
               PostQa.trace := [PostQa.EvGet] |}
    end.
Proof.
  unfold PostQa.run, PostQa.bind, PostQa.cuGet, recheck_needed. simpl.
  destruct (PostQa.gets w 0) as [task|]; [|reflexivity].
  set (ok1 := str_eqb (normalize (PostQa.statusOf task)) _).
  set (pq := PostQa.isCheckboxChecked _).
  destruct (negb ok1 && pq && pending (PostQa.statusOf task)) eqn:R.
  - unfold PostQa.sleep, PostQa.ret. simpl.
    destruct (PostQa.gets w 1) as [t2|]; [|reflexivity]. simpl.
    destruct (negb _ || negb pq); [|reflexivity].
    destruct (PostQa.postGateFailureComment cfg); [|reflexivity].
    unfold PostQa.try_, PostQa.cuPost. simpl.
    destruct (PostQa.posts w 0); reflexivity.
  - unfold PostQa.ret. simpl.
    destruct (negb _ || negb pq); [|reflexivity].
    destruct (PostQa.postGateFailureComment cfg); [|reflexivity].
    unfold PostQa.try_, PostQa.cuPost. simpl.
    destruct (PostQa.posts w 0); reflexivity.
Qed.


Lemma count_gets_app a b :
  count_gets (a ++ b) = (count_gets a + count_gets b)%nat.
Proof.
  induction a as [|e a IH]; simpl; auto. destruct e; simpl; rewrite IH; lia.
Qed.

Lemma sleeps_app a b : sleeps (a ++ b) = sleeps a ++ sleeps b.
Proof.
  induction a as [|e a IH]; simpl; auto. destruct e; simpl; rewrite IH; auto.
Qed.

(** The trace of [run], by cases on the first snapshot. *)
Lemma run_trace pending cfg w :
  let tr := PostQa.trace (snd (PostQa.run pending cfg w PostQa.init)) in
  exists tail, only_posts tail /\
    match PostQa.gets w 0 with
    | None => tr = [PostQa.EvGet]
    | Some t1 =>
        if recheck_needed pending cfg t1
        then tr = [PostQa.EvGet; PostQa.EvSleep 1500; PostQa.EvGet] ++ tail
        else tr = PostQa.EvGet :: tail
    end.
Proof.
  rewrite run_unfold.
  destruct (PostQa.gets w 0) as [t1|]; [|exists []; split; [constructor | reflexivity]].
  simpl. destruct (recheck_needed pending cfg t1).
  - destruct (PostQa.gets w 1) as [t2|];
      [|exists []; split; [constructor | reflexivity]].
    destruct (negb _ || negb _); [destruct (PostQa.postGateFailureComment cfg)|];
      simpl.
    + eexists [_]. split; [repeat constructor; eauto | reflexivity].
    + exists []. split; [constructor | reflexivity].
    + exists []. split; [constructor | reflexivity].
  - destruct (negb _ || negb _); [destruct (PostQa.postGateFailureComment cfg)|];
      simpl.
    + eexists [_]. split; [repeat constructor; eauto | reflexivity].
    + exists []. split; [constructor | reflexivity].
    + exists []. split; [constructor | reflexivity].
Qed.

Lemma only_posts_quiet tail :
  only_posts tail -> count_gets tail = 0%nat /\ sleeps tail = [].
Proof.
  induction 1 as [|e r [m ->] _ [IH1 IH2]]; simpl; auto.
Qed.

(** C3, as the specification states it, fails: the decision after the
    re-fetch is not recomputed from the fresh data.  Only the status is
    read again; the checkbox keeps the value of the first snapshot.  When
    the task is "QA" and checked at first, and "Needs Approval (Dev)" and
    unchecked when fetched again, the fresh snapshot fails the gate and
    [run] passes it, with either set of pending labels, and goes on with
    the first snapshot. *)
Lemma recheck_keeps_first_checkbox :
  let t1 := task_with "QA" (PostQa.JBool true) in
  let t2 := task_with "Needs Approval (Dev)" (PostQa.JBool false) in
  let w := {| PostQa.gets := fun n =>
                match n with O => Some t1 | _ => Some t2 end;
              PostQa.posts := fun _ => true |} in
  str_eqb (normalize (PostQa.statusOf t2))
          (normalize (PostQa.requiredStatus config_part_001))
  && PostQa.isCheckboxChecked
       (PostQa.findCustomField t2 (PostQa.passedQA config_part_001))
  = false
  /\ (recheck_needed PostQa.pending_part_001 config_part_001 t1 = true
      /\ exists d,
           fst (PostQa.run PostQa.pending_part_001 config_part_001 w PostQa.init)
           = PostQa.Ok (d, t1)
           /\ PostQa.passed d = true)
  /\ (recheck_needed PostQa.pending_part_002 config_part_001 t1 = true
      /\ exists d,
           fst (PostQa.run PostQa.pending_part_002 config_part_001 w PostQa.init)
           = PostQa.Ok (d, t1)
           /\ PostQa.passed d = true).
Proof.
  split; [reflexivity|].
  split; (split; [reflexivity|]); eexists; split; reflexivity.
Qed.

(** C3, amended: whatever the tracker answers and whichever set of pending
    labels is in force, [run] asks for the work item at most twice.  The
    second request is made exactly when the first snapshot fails on its
    status with the checkbox checked and a pending status; it comes after
    one delay of 1500 ms; the decision is then taken once, on the status
    of the second snapshot and the checkbox of the first, and the first
    snapshot is the task the later steps work on; only the failure comment
    may follow: no other request and no other delay, whatever the second
    snapshot says. *)
Theorem recheck_at_most_once (pending : jsstring -> bool)
    (cfg : PostQa.Config) (w : PostQa.World) :
  let out := PostQa.run pending cfg w PostQa.init in
  let tr := PostQa.trace (snd out) in
  (count_gets tr <= 2)%nat
  /\ (count_gets tr = 2%nat
      <-> exists t1, PostQa.gets w 0 = Some t1
                     /\ recheck_needed pending cfg t1 = true)
  /\ (sleeps tr = if Nat.eqb (count_gets tr) 2 then [1500%N] else [])
  /\ (forall t1, PostQa.gets w 0 = Some t1 ->
      recheck_needed pending cfg t1 = true ->
      (exists tail, tr = [PostQa.EvGet; PostQa.EvSleep 1500; PostQa.EvGet] ++ tail
                    /\ only_posts tail)
      /\ forall t2, PostQa.gets w 1 = Some t2 ->
           exists d, fst out = PostQa.Ok (d, t1)
             /\ PostQa.statusObserved d = PostQa.statusOf t2
             /\ PostQa.passed d
                = str_eqb (normalize (PostQa.statusOf t2))
                          (normalize (PostQa.requiredStatus cfg))
                  && PostQa.isCheckboxChecked
                       (PostQa.findCustomField t1 (PostQa.passedQA cfg))).
Proof.
  intros out tr.
  destruct (run_trace pending cfg w) as (tail & Hp & Ht).
  fold out in Ht. fold tr in Ht.
  destruct (only_posts_quiet Hp) as [Hg Hs].
  split; [|split; [|split]].
  - destruct (PostQa.gets w 0) as [t1|]; [|rewrite Ht; simpl; lia].
    destruct (recheck_needed pending cfg t1); rewrite Ht;
      [rewrite count_gets_app|]; simpl; lia.
  - destruct (PostQa.gets w 0) as [t1|] eqn:G0.
    + destruct (recheck_needed pending cfg t1) eqn:R; rewrite Ht.
      * rewrite count_gets_app. simpl. split; [eauto | lia].
      * simpl. split; [lia|]. intros (t & [= <-] & R'). congruence.
    + rewrite Ht. simpl. split; [lia|]. intros (t & E & _). discriminate.
  - destruct (PostQa.gets w 0) as [t1|]; [|rewrite Ht; reflexivity].
    destruct (recheck_needed pending cfg t1); rewrite Ht.
    + rewrite count_gets_app, sleeps_app, Hg, Hs. reflexivity.
    + simpl. rewrite Hg, Hs. reflexivity.
  - intros t1 G0 R. rewrite G0, R in Ht. split; [eauto|].
    intros t2 G1. unfold out. rewrite run_unfold, G0. simpl. rewrite R, G1.
    destruct (str_eqb _ _); destruct (PostQa.isCheckboxChecked _); simpl;
      eexists; split; reflexivity || (split; reflexivity).
Qed.

(** The trace of a run whose status leaves the pending state during the
    delay. *)
Lemma recheck_at_most_once_witness :
  let w := {| PostQa.gets := fun n =>
                match n with
                | O => Some (task_with "QA (Dev)" (PostQa.JNum 1))
                | _ => Some (task_with "Needs Approval (Dev)" (PostQa.JNum 1))
                end;
              PostQa.posts := fun _ => true |} in
  let t1 := task_with "QA (Dev)" (PostQa.JNum 1) in
  let t2 := task_with "Needs Approval (Dev)" (PostQa.JNum 1) in
  let out := PostQa.run PostQa.pending_part_002 config_part_001 w PostQa.init in
  PostQa.gets w 0 = Some t1
  /\ recheck_needed PostQa.pending_part_002 config_part_001 t1 = true
  /\ PostQa.gets w 1 = Some t2
  /\ exists d, fst out = PostQa.Ok (d, t1)
       /\ PostQa.statusObserved d = PostQa.statusOf t2
       /\ PostQa.passed d
          = str_eqb (normalize (PostQa.statusOf t2))
                    (normalize (PostQa.requiredStatus config_part_001))
            && PostQa.isCheckboxChecked
                 (PostQa.findCustomField t1 (PostQa.passedQA config_part_001)).
Proof.
  intros w t1 t2 out.
  split; [reflexivity|]. split; [reflexivity|]. split; [reflexivity|].
  apply (proj2 (proj2 (proj2 (proj2
           (recheck_at_most_once PostQa.pending_part_002 config_part_001 w)))
           t1 eq_refl eq_refl)).
  reflexivity.
Defined.

(** ** The comment (C7) *)

Example compose_draft :
  fst (PostQa.compose config_part_001 (js "CF-123") [link_x; link_x] []
         [js "111"; js "222"])
  = js "DRAFT - Review before sending" ++ [10; 10]%N
    ++ js "**QA Passed " ++ [0x2192]%N ++ js " Preview Links for _CF-123_**"
    ++ [10; 10]%N ++ js "**Preview Links**" ++ [10]%N
    ++ js "- [Link 1](https://files.example.com/x?convert_e=123456)"
    ++ [10; 10]%N ++ js "_No QA images found._".
Proof. reflexivity. Qed.

Example buildComment_final :
  PostQa.buildCommentLines (js "T") [] [] [js "111"; js "222"] true
  = [js "<@111> <@222>" ++ [10]%N;
     js "**QA Passed " ++ [0x2192]%N ++ js " Preview Links for _T_**" ++ [10]%N;
     js "_No preview links found._" ++ [10]%N;
     js "_No QA images found._"].
Proof. reflexivity. Qed.

(** The lines of the comment are the mention line, when there is one,
    followed by lines that do not depend on the mentions. *)
Lemma buildCommentLines_mentions taskName previewLinks images mentionIds flag :
  PostQa.buildCommentLines taskName previewLinks images mentionIds flag
  = (if flag && negb (length mentionIds =? 0)%nat
     then [PostQa.formatMentions mentionIds ++ [10]%N] else [])
    ++ PostQa.buildCommentLines taskName previewLinks images [] false.
Proof. reflexivity. Qed.

(** C7: in draft mode the comment [run] composes is the banner, when
    configured, followed by the comment built without mentions: neither
    the mention ids of the work item nor [final.includeMentions] reach it.
    In general the line of mentions is emitted, and then first, exactly
    when the mode is not draft, [final.includeMentions] is set and the list
    of mention ids is not empty. *)
Theorem draft_suppresses_mentions :
  (forall cfg taskName previewLinks images mentionIds,
     PostQa.isDraft cfg = true ->
     fst (PostQa.compose cfg taskName previewLinks images mentionIds)
     = (if PostQa.draft_addBanner cfg
        then PostQa.draft_bannerText cfg ++ [10; 10]%N else [])
       ++ PostQa.buildComment taskName (PostQa.uniqueLinks previewLinks)
            images [] false)
  /\ (forall cfg taskName previewLinks images mentionIds,
        PostQa.buildCommentLines taskName previewLinks images mentionIds
          (PostQa.includeMentions cfg)
        = (if negb (PostQa.isDraft cfg) && PostQa.final_includeMentions cfg
              && negb (length mentionIds =? 0)%nat
           then [PostQa.formatMentions mentionIds ++ [10]%N] else [])
          ++ PostQa.buildCommentLines taskName previewLinks images [] false).
Proof.
  split.
  - intros cfg taskName previewLinks images mentionIds D.
    unfold PostQa.compose, PostQa.includeMentions, PostQa.buildComment.
    rewrite D. cbn [negb andb fst].
    rewrite buildCommentLines_mentions. cbn [andb app].
    destruct (PostQa.draft_addBanner cfg); [|reflexivity].
    rewrite <- app_assoc. reflexivity.
  - intros cfg taskName previewLinks images mentionIds.
    apply buildCommentLines_mentions.
Qed.

Lemma draft_suppresses_mentions_witness :
  PostQa.isDraft config_part_001 = true
  /\ fst (PostQa.compose config_part_001 (js "CF-123") [link_x] []
            [js "111"; js "222"])
     = (if PostQa.draft_addBanner config_part_001
        then PostQa.draft_bannerText config_part_001 ++ [10; 10]%N else [])
       ++ PostQa.buildComment (js "CF-123") (PostQa.uniqueLinks [link_x])
            [] [] false.
Proof.
  split; [reflexivity|].
  apply (proj1 draft_suppresses_mentions). reflexivity.
Defined.

(** ** The dispatch endpoint (C9) *)

Example handler_dispatches :
  let env := {| Dispatch.GH_REPO := Some (js "lacey-griffith/airdrop");
                Dispatch.GH_WORKFLOW := Some (js "post-qa.yml");
                Dispatch.GH_REF := None;
                Dispatch.GH_TOKEN := Some (js "ghp_token");
                Dispatch.SHARED_DISPATCH_TOKEN := Some (js " s3cret ") |} in
  let req := {| Dispatch.method := Some (js "POST");
                Dispatch.query := None;
                Dispatch.body :=
                  Dispatch.BodyObject (Some (js " 868fj80zu ")) None None;
                Dispatch.headers :=
                  {| Dispatch.h_x_auth := None; Dispatch.h_X_Auth := None;
                     Dispatch.h_authorization := Some (js "bearer s3cret");
                     Dispatch.h_Authorization := None;
                     Dispatch.h_content_type := None |};
                Dispatch.stream := None |} in
  Dispatch.handler_bearer github_accepts env req
  = {| Dispatch.status := 200;
       Dispatch.sent :=
         [ {| Dispatch.gh_url :=
                js "https://api.github.com/repos/lacey-griffith/airdrop/actions/workflows/post-qa.yml/dispatches";
              Dispatch.gh_authorization := js "Bearer ghp_token";
              Dispatch.gh_ref := js "main";
              Dispatch.gh_task := js "868fj80zu" |} ] |}
  /\ Dispatch.status (Dispatch.handler_xauth github_accepts env req) = 401%N
  /\ Dispatch.status (Dispatch.handler_env github_accepts env req) = 401%N.
Proof. repeat split. Qed.

Lemma dispatch_after_auth_refused gh env taskId :
  Dispatch.dispatch_after_auth gh env false taskId = Dispatch.answer 401 [].
Proof. reflexivity. Qed.

(** C9: when [SHARED_DISPATCH_TOKEN] is absent or empty, each of the three
    revisions of the handler answers 401 or 500 and sends nothing to
    GitHub, whatever the request carries: an empty token does not match an
    empty secret. *)
Theorem dispatch_requires_secret (gh : Dispatch.GitHub) (env : Dispatch.Env)
    (req : Dispatch.Req) :
  Dispatch.SHARED_DISPATCH_TOKEN env = None
  \/ Dispatch.SHARED_DISPATCH_TOKEN env = Some [] ->
  forall handler,
    In handler [Dispatch.handler_bearer; Dispatch.handler_xauth;
                Dispatch.handler_env] ->
    (Dispatch.status (handler gh env req) = 401%N
     \/ Dispatch.status (handler gh env req) = 500%N)
    /\ Dispatch.sent (handler gh env req) = [].
Proof.
  intros Hs handler Hh.
  assert (trim (Dispatch.str_or (Dispatch.SHARED_DISPATCH_TOKEN env) []) = [])
    as Hexp by (destruct Hs as [-> | ->]; reflexivity).
  assert (Dispatch.is_truthy (Dispatch.SHARED_DISPATCH_TOKEN env) = false)
    as Htr by (destruct Hs as [-> | ->]; reflexivity).
  destruct Hh as [<-|[<-|[<-|[]]]].
  - unfold Dispatch.handler_bearer.
    destruct (Dispatch.taskId_of _ _); [|split; [right|]; reflexivity].
    rewrite Hexp. cbn [truthy andb]. rewrite dispatch_after_auth_refused.
    split; [left|]; reflexivity.
  - unfold Dispatch.handler_xauth.
    destruct (Dispatch.taskId_of _ _); [|split; [right|]; reflexivity].
    rewrite Hexp. cbn [truthy andb]. rewrite dispatch_after_auth_refused.
    split; [left|]; reflexivity.
  - unfold Dispatch.handler_env. rewrite Htr. cbn [negb].
    rewrite !orb_true_r. split; [right|]; reflexivity.
Qed.

Lemma dispatch_requires_secret_witness :
  (Dispatch.SHARED_DISPATCH_TOKEN env_empty_secret = None
   \/ Dispatch.SHARED_DISPATCH_TOKEN env_empty_secret = Some [])
  /\ In Dispatch.handler_bearer
        [Dispatch.handler_bearer; Dispatch.handler_xauth; Dispatch.handler_env]
  /\ (Dispatch.status
        (Dispatch.handler_bearer github_accepts env_empty_secret
           request_without_token) = 401%N
      \/ Dispatch.status
           (Dispatch.handler_bearer github_accepts env_empty_secret
              request_without_token) = 500%N)
  /\ Dispatch.sent
       (Dispatch.handler_bearer github_accepts env_empty_secret
          request_without_token) = [].
Proof.
  split; [right; reflexivity|]. split; [left; reflexivity|].
  apply (@dispatch_requires_secret github_accepts env_empty_secret
           request_without_token).
  - right; reflexivity.
  - left; reflexivity.
Defined.

(** ** Complements *)

(** Links that differ in the case of a letter are different links. *)
Example uniqueLinks_case_sensitive :
  PostQa.uniqueLinks [js "https://a.b/?convert_e=123456";
                      js "https://A.b/?convert_e=123456";
                      js "https://a.b/?convert_e=123456"]
  = [js "https://a.b/?convert_e=123456"; js "https://A.b/?convert_e=123456"].
Proof. reflexivity. Qed.

(** The two revisions of the extraction on the workbook [two_sheets]: the
    one of [src/sharepoint.js] finds the link of the second sheet in its
    CSV text, the one of part_000 does not read that sheet. *)
Remark extraction_revisions_differ :
  SharepointA.extractPreviewLinksFromXlsx plain_csv two_sheets = [link_x]
  /\ SharepointB.extractPreviewLinksFromXlsx two_sheets = [].
Proof. split; reflexivity. Qed.

(** A sheet named like "Preview Links" is read even when it is not the
    first one. *)
Example extraction_prefers_named_sheet :
  SharepointB.extractPreviewLinksFromXlsx
    {| Xlsx.SheetNames := [js "Sheet1"; js " preview  LINKS! "];
       Xlsx.Sheets := fun n =>
         if str_eqb n (js "Sheet1") then [[Xlsx.CText link_x]]
         else [[Xlsx.CText link_y]] |}
  = [link_y].
Proof. reflexivity. Qed.

(** The first revision of [buildComment] emits the mention line whenever
    the list of ids is not empty: it is the later one with the flag set. *)
Remark buildCommentLines_first_flag taskName previewLinks images mentionIds :
  PostQa.buildCommentLines_first taskName previewLinks images mentionIds
  = PostQa.buildCommentLines taskName previewLinks images mentionIds true.
Proof. reflexivity. Qed.

(** The fallback of step 4 on the description of the work item. *)
Example descriptionLinks_example :
  PostQa.descriptionLinks
    {| PostQa.task_name := Some (js "CF-123");
       PostQa.task_status := None;
       PostQa.custom_fields := [];
       PostQa.description :=
         Some (js "see (" ++ link_x ++ js ") or https://example.com/plain "
               ++ link_y) |}
  = [link_x; link_y].
Proof. reflexivity. Qed.

(** * Further properties *)

(** ** The normalizers *)

Lemma lower_fixed_not_upper c : lower_fixed c -> is_upper c = false.
Proof.
  unfold lower_fixed, toLowerCase1. destruct (is_upper c); [|reflexivity].
  intros [= H]. lia.
Qed.

Lemma word_not_upper c :
  is_word c = true -> is_upper c = false ->
  (is_lower c || is_digit c || (c =? 95)%N) = true.
Proof. unfold is_word. intros H U. rewrite U in H. exact H. Qed.

(** X1: a normalized string holds lower-case ASCII letters, digits, the
    underscore (for [normalize]) or the dot and the hyphen (for [norm]) and
    single code units of space only, and neither starts nor ends with
    whitespace, whatever the input holds. *)
Theorem normalize_alphabet (x : jsstring) :
  (Forall (fun c => normalize_unit c = true) (normalize x)
   /\ head_free is_space (normalize x) = true
   /\ ends_clean (normalize x) = true)
  /\ (Forall (fun c => norm_unit c = true) (norm x)
      /\ head_free is_space (norm x) = true
      /\ ends_clean (norm x) = true).
Proof.
  split.
  - rewrite normalize_canon.
    destruct (@canon_shape is_space (fun c => is_word c || is_space c)
                toLowerCase lower_fixed eq_refl toLowerCase_fixed x)
      as (Hs & Hq & Hh & He).
    split; [|split; assumption].
    rewrite Forall_forall in *. intros c Hc.
    specialize (Hs c Hc). specialize (Hq c Hc). unfold normalize_unit.
    destruct Hs as [->|[Hsp Hk]]; [reflexivity|].
    rewrite Hsp, orb_false_r in Hk.
    rewrite (@word_not_upper c Hk (@lower_fixed_not_upper c Hq)). reflexivity.
  - rewrite norm_canon.
    destruct (@canon_shape (fun c => (c =? 95)%N || is_space c)
                (fun c => is_word c || (c =? 46)%N || (c =? 45)%N || (c =? 32)%N)
                (fun s => map dashfold (toLowerCase s))
                (fun c => lower_fixed c /\ dashfold c = c)
                (conj eq_refl eq_refl) dashfold_out x)
      as (Hs & Hq & Hh & He).
    split; [|split; assumption].
    rewrite Forall_forall in *. intros c Hc.
    specialize (Hs c Hc). destruct (Hq c Hc) as [Hq1 _]. unfold norm_unit.
    destruct Hs as [->|[Hcl Hk]]; [reflexivity|].
    apply orb_false_iff in Hcl. destruct Hcl as [H95 _].
    apply orb_true_iff in Hk. destruct Hk as [Hk|Hk]; [|rewrite Hk; apply orb_true_r].
    apply orb_true_iff in Hk. destruct Hk as [Hk|Hk];
      [|rewrite Hk; rewrite !orb_true_r; reflexivity].
    apply orb_true_iff in Hk. destruct Hk as [Hk|Hk];
      [|rewrite Hk; rewrite !orb_true_r; reflexivity].
    pose proof (@word_not_upper c Hk (@lower_fixed_not_upper c Hq1)) as W.
    rewrite H95, orb_false_r in W. rewrite W. reflexivity.
Qed.





(** ** The set of links *)

Lemma fold_add_fresh l : forall s,
  NoDup (s ++ l) -> fold_left JsSet.add l s = s ++ l.
Proof.
  induction l as [|x l IH]; intros s H; simpl.
  - rewrite app_nil_r. reflexivity.
  - assert (~ In x s) as Hn.
    { intros Hin. apply NoDup_remove_2 in H. apply H.
      apply in_or_app. left. exact Hin. }
    destruct (add_spec s x) as [[Hin _]|[_ ->]]; [contradiction|].
    rewrite IH; rewrite <- app_assoc; [reflexivity | exact H].
Qed.

Lemma of_array_fixed l : NoDup l -> JsSet.of_array l = l.
Proof. intros H. apply (fold_add_fresh l [] H). Qed.

(** X3: the de-duplication [run] applies before composing changes nothing in
    what the extraction returns, in either revision, and applying it twice
    is applying it once. *)
Theorem uniqueLinks_keeps_extraction :
  (forall (Sheet : Type) (csv : Sheet -> jsstring) wb,
     PostQa.uniqueLinks (SharepointA.extractPreviewLinksFromXlsx csv wb)
     = SharepointA.extractPreviewLinksFromXlsx csv wb)
  /\ (forall wb,
        PostQa.uniqueLinks (SharepointB.extractPreviewLinksFromXlsx wb)
        = SharepointB.extractPreviewLinksFromXlsx wb)
  /\ (forall previewLinks,
        PostQa.uniqueLinks (PostQa.uniqueLinks previewLinks)
        = PostQa.uniqueLinks previewLinks).
Proof.
  unfold PostQa.uniqueLinks, JsSet.to_array.
  split; [|split].
  - intros Sheet csv wb. rewrite SharepointA_extract_of_array.
    apply of_array_fixed. apply of_array_dedup_stable.
  - intros wb. rewrite SharepointB_extract_of_array.
    destruct (SharepointB.pickSheet _) as [n|]; [|reflexivity].
    destruct (truthy n); [|reflexivity].
    apply of_array_fixed. apply of_array_dedup_stable.
  - intros l. apply of_array_fixed. apply of_array_dedup_stable.
Qed.

(** ** The gate, further *)

(** X4: with the checkbox unchecked [run] asks for the task once, neither
    waits nor asks again, tries the failure comment when configured
    (required and observed status in its text) and returns the failed
    decision: an error of the comment request is swallowed. *)
Theorem gate_unchecked (pending : jsstring -> bool) (cfg : PostQa.Config)
    (w : PostQa.World) (t1 : PostQa.Task) :
  PostQa.gets w 0 = Some t1 ->
  PostQa.isCheckboxChecked (PostQa.findCustomField t1 (PostQa.passedQA cfg))
  = false ->
  let out := PostQa.run pending cfg w PostQa.init in
  fst out
  = PostQa.Ok ({| PostQa.passed := false;
                  PostQa.statusObserved := PostQa.statusOf t1;
                  PostQa.checkboxObserved := false |}, t1)
  /\ PostQa.trace (snd out)
     = PostQa.EvGet
       :: (if PostQa.postGateFailureComment cfg
           then [PostQa.EvPost (PostQa.failMsg cfg (PostQa.statusOf t1))]
           else []).
Proof.
  intros G0 Pq out. unfold out. rewrite run_unfold, G0. cbn zeta.
  unfold recheck_needed. rewrite Pq, andb_false_r. cbn [andb].
  rewrite orb_true_r.
  destruct (PostQa.postGateFailureComment cfg); split; reflexivity.
Qed.

Lemma gate_unchecked_witness :
  let w := PostQa.steady (task_with "Needs Approval (Dev)" (PostQa.JStr (js "no")))
             (fun _ => false) in
  let t1 := task_with "Needs Approval (Dev)" (PostQa.JStr (js "no")) in
  let out := PostQa.run PostQa.pending_part_002 config_part_001 w PostQa.init in
  PostQa.gets w 0 = Some t1
  /\ PostQa.isCheckboxChecked
       (PostQa.findCustomField t1 (PostQa.passedQA config_part_001)) = false
  /\ fst out
     = PostQa.Ok ({| PostQa.passed := false;
                     PostQa.statusObserved := PostQa.statusOf t1;
                     PostQa.checkboxObserved := false |}, t1)
  /\ PostQa.trace (snd out)
     = PostQa.EvGet
       :: (if PostQa.postGateFailureComment config_part_001
           then [PostQa.EvPost (PostQa.failMsg config_part_001 (PostQa.statusOf t1))]
           else []).
Proof.
  intros w t1 out. split; [reflexivity|]. split; [reflexivity|].
  apply (@gate_unchecked PostQa.pending_part_002 config_part_001 w t1);
    reflexivity.
Defined.

(** X5: the gate step fails only when a request for the task fails: the first
    one, or the second one when the re-check is due. *)
Theorem gate_throws_iff (pending : jsstring -> bool) (cfg : PostQa.Config)
    (w : PostQa.World) :
  fst (PostQa.run pending cfg w PostQa.init) = PostQa.Throw
  <-> PostQa.gets w 0 = None
      \/ exists t1, PostQa.gets w 0 = Some t1
                    /\ recheck_needed pending cfg t1 = true
                    /\ PostQa.gets w 1 = None.
Proof.
  rewrite run_unfold.
  destruct (PostQa.gets w 0) as [t1|] eqn:G0.
  - cbn zeta. destruct (recheck_needed pending cfg t1) eqn:R.
    + destruct (PostQa.gets w 1) as [t2|] eqn:G1.
      * split.
        -- destruct (negb _ || negb _); discriminate.
        -- intros [H|(t & _ & _ & H)]; discriminate.
      * split; [|reflexivity]. intros _. right. exists t1. auto.
    + split.
      * destruct (negb _ || negb _); discriminate.
      * intros [H|(t & [= <-] & R' & _)]; [discriminate | congruence].
  - split; [auto | reflexivity].
Qed.

(** ** The dispatch endpoint, further *)

Ltac refuse := left; split; [reflexivity | cbn; tauto].

Lemma dispatch_after_auth_shape gh env authOk taskId :
  trim taskId = taskId ->
  refused (Dispatch.dispatch_after_auth gh env authOk taskId)
  \/ forwarded accepted_204 gh (Dispatch.dispatch_after_auth gh env authOk taskId).
Proof.
  intros Ht. unfold Dispatch.dispatch_after_auth.
  destruct authOk; cbn [negb]; [|refuse].
  destruct (truthy taskId) eqn:T; cbn [negb]; [|refuse].
  destruct (negb _ || negb _ || negb _); [refuse|].
  set (r0 := {| Dispatch.gh_url := _ |}).
  right. exists r0.
  assert (Dispatch.gh_task r0 = taskId) as Et by reflexivity.
  destruct (gh r0) as [[st txt]|] eqn:G; cbn [accepted_204].
  - destruct (N.eqb_spec st 204) as [->|Hn];
      (split; [reflexivity|]); rewrite Et; repeat split; auto; cbn; tauto.
  - (split; [reflexivity|]); rewrite Et; repeat split; auto; cbn; tauto.
Qed.

Lemma taskId_of_trimmed q b taskId :
  Dispatch.taskId_of q b = Some taskId -> trim taskId = taskId.
Proof.
  unfold Dispatch.taskId_of.
  repeat match goal with
    | |- context [match ?x with _ => _ end] => destruct x
    end; intros [= <-]; apply trim_idempotent.
Qed.

Lemma handler_bearer_shape gh env req :
  refused (Dispatch.handler_bearer gh env req)
  \/ forwarded accepted_204 gh (Dispatch.handler_bearer gh env req).
Proof.
  unfold Dispatch.handler_bearer.
  destruct (Dispatch.taskId_of _ _) as [taskId|] eqn:E; [|refuse].
  apply dispatch_after_auth_shape. exact (taskId_of_trimmed _ _ E).
Qed.

Lemma handler_xauth_shape gh env req :
  refused (Dispatch.handler_xauth gh env req)
  \/ forwarded accepted_204 gh (Dispatch.handler_xauth gh env req).
Proof.
  unfold Dispatch.handler_xauth.
  destruct (Dispatch.taskId_of _ _) as [taskId|] eqn:E; [|refuse].
  apply dispatch_after_auth_shape. exact (taskId_of_trimmed _ _ E).
Qed.

Lemma handler_env_shape gh env req :
  refused (Dispatch.handler_env gh env req)
  \/ forwarded accepted_2xx gh (Dispatch.handler_env gh env req).
Proof.
  unfold Dispatch.handler_env.
  destruct (negb _ || negb _ || negb _ || negb _); [refuse|].
  destruct (if includes _ _ then _ else _) as [body|]; [|refuse].
  destruct (if Dispatch.is_truthy (Dispatch.q_token _) then _ else _) as [tok|];
    [|refuse].
  destruct (negb (str_eqb _ _)); [refuse|].
  destruct (if Dispatch.is_truthy (Dispatch.q_task_id _) then _ else _) as [bt|];
    [|refuse].
  set (taskId := trim _).
  destruct (truthy taskId) eqn:T; cbn [negb]; [|refuse].
  set (r0 := {| Dispatch.gh_url := _ |}).
  right. exists r0.
  assert (Dispatch.gh_task r0 = taskId) as Et by reflexivity.
  assert (trim taskId = taskId) as Ht by apply trim_idempotent.
  destruct (gh r0) as [[st txt]|] eqn:G; cbn [accepted_2xx].
  - destruct ((200 <=? st)%N && (st <=? 299)%N);
      (split; [reflexivity|]); rewrite Et; repeat split; auto; cbn; tauto.
  - (split; [reflexivity|]); rewrite Et; repeat split; auto; cbn; tauto.
Qed.

Lemma shape_outcomes accepted gh out :
  refused out \/ forwarded accepted gh out ->
  In (Dispatch.status out) [200; 400; 401; 500; 502]%N
  /\ (length (Dispatch.sent out) <= 1)%nat
  /\ (Dispatch.status out = 200%N
      <-> exists r, Dispatch.sent out = [r] /\ accepted (gh r) = true)
  /\ (Dispatch.status out = 400%N \/ Dispatch.status out = 401%N ->
      Dispatch.sent out = [])
  /\ (forall r, In r (Dispatch.sent out) ->
      truthy (Dispatch.gh_task r) = true
      /\ trim (Dispatch.gh_task r) = Dispatch.gh_task r).
Proof.
  intros [[Hs Hc]|(r & Hs & Ht & Htr & Ha)].
  - rewrite Hs. cbn in Hc. split; [cbn; tauto|]. split; [cbn; lia|].
    split; [|split].
    + split.
      * intros E. rewrite E in Hc.
        destruct Hc as [H|[H|[H|[]]]]; discriminate.
      * intros (r & E & _). discriminate.
    + reflexivity.
    + intros r [].
  - rewrite Hs. split; [|split; [cbn; lia|split; [|split]]].
    + destruct (accepted (gh r)); [rewrite Ha; cbn; tauto|].
      cbn in Ha. cbn. tauto.
    + split.
      * intros E. exists r. split; [reflexivity|].
        destruct (accepted (gh r)); [reflexivity|].
        rewrite E in Ha. destruct Ha as [H|[H|[]]]; discriminate.
      * intros (r' & [= <-] & A). rewrite A in Ha. exact Ha.
    + intros [E|E]; rewrite E in Ha;
        destruct (accepted (gh r)); try discriminate;
        destruct Ha as [H|[H|[]]]; discriminate.
    + intros r' [<-|[]]. split; assumption.
Qed.

(** X6: whatever GitHub answers, a handler sends at most one request, and it
    answers 200 exactly when it sent one that GitHub accepted (status 204
    for the two later revisions, any 2xx for the first); 400 and 401 are
    answered without any request.  The task id it forwards is trimmed and
    not empty. *)
Theorem dispatch_outcomes (gh : Dispatch.GitHub) (env : Dispatch.Env)
    (req : Dispatch.Req) :
  forall handler accepted,
    In (handler, accepted)
       [(Dispatch.handler_bearer, accepted_204);
        (Dispatch.handler_xauth, accepted_204);
        (Dispatch.handler_env, accepted_2xx)] ->
    let out := handler gh env req in
    In (Dispatch.status out) [200; 400; 401; 500; 502]%N
    /\ (length (Dispatch.sent out) <= 1)%nat
    /\ (Dispatch.status out = 200%N
        <-> exists r, Dispatch.sent out = [r] /\ accepted (gh r) = true)
    /\ (Dispatch.status out = 400%N \/ Dispatch.status out = 401%N ->
        Dispatch.sent out = [])
    /\ (forall r, In r (Dispatch.sent out) ->
        truthy (Dispatch.gh_task r) = true
        /\ trim (Dispatch.gh_task r) = Dispatch.gh_task r).
Proof.
  intros handler accepted Hh out. subst out.
  destruct Hh as [[= <- <-]|[[= <- <-]|[[= <- <-]|[]]]];
    apply shape_outcomes.
  - apply handler_bearer_shape.
  - apply handler_xauth_shape.
  - apply handler_env_shape.
Qed.

Lemma dispatch_outcomes_witness :
  let out := Dispatch.handler_bearer github_accepts env_empty_secret
               request_without_token in
  In (Dispatch.handler_bearer, accepted_204)
     [(Dispatch.handler_bearer, accepted_204);
      (Dispatch.handler_xauth, accepted_204);
      (Dispatch.handler_env, accepted_2xx)]
  /\ (length (Dispatch.sent out) <= 1)%nat.
Proof.
  intros out. split; [left; reflexivity|].
  apply (@dispatch_outcomes github_accepts env_empty_secret
           request_without_token Dispatch.handler_bearer accepted_204).
  left; reflexivity.
Defined.

Lemma dispatch_after_auth_sent gh env authOk taskId :
  Dispatch.sent (Dispatch.dispatch_after_auth gh env authOk taskId) <> [] ->
  authOk = true.
Proof.
  destruct authOk; [reflexivity|]. cbn. congruence.
Qed.

Lemma or_chain (a b c : option jsstring) s :
  Dispatch.str_or (Dispatch.or_str (Dispatch.or_str a b) c) [] = s ->
  truthy s = true ->
  In s [Dispatch.str_or a []; Dispatch.str_or b []; Dispatch.str_or c []].
Proof.
  unfold Dispatch.str_or, Dispatch.or_str, PostQa.str_or, PostQa.or_str.
  intros E T.
  destruct a as [a|]; [destruct (truthy a) eqn:Ta|];
    (destruct b as [b|]; [destruct (truthy b) eqn:Tb|]);
    (destruct c as [c|]; [destruct (truthy c) eqn:Tc|]);
    cbn in *; rewrite ?Ta, ?Tb, ?Tc in *; cbn in *; subst;
    try discriminate; auto.
Qed.

(** X7: a handler sends a request to GitHub only when the secret is set and
    the request carries it: in the query, in [X-Auth], in
    [Authorization: Bearer] (latest revision) or in the JSON body (first
    revision). *)
Theorem dispatch_needs_token (gh : Dispatch.GitHub) (env : Dispatch.Env)
    (req : Dispatch.Req) :
  (Dispatch.sent (Dispatch.handler_bearer gh env req) <> [] ->
   truthy (expectedToken env) = true
   /\ In (expectedToken env) [tokenQP req; tokenHdr req; bearerToken req])
  /\ (Dispatch.sent (Dispatch.handler_xauth gh env req) <> [] ->
      truthy (expectedToken env) = true
      /\ In (expectedToken env) [tokenQP req; tokenHdr req])
  /\ (Dispatch.sent (Dispatch.handler_env gh env req) <> [] ->
      exists secret,
        Dispatch.SHARED_DISPATCH_TOKEN env = Some secret
        /\ truthy secret = true
        /\ In secret
             [Dispatch.str_or (Dispatch.q_token (Dispatch.query_of req)) [];
              bodyToken req;
              Dispatch.str_or (Dispatch.h_x_auth (Dispatch.headers req)) []]).
Proof.
  split; [|split].
  - unfold Dispatch.handler_bearer.
    destruct (Dispatch.taskId_of _ _) as [taskId|]; [|cbn; congruence].
    intros H. apply dispatch_after_auth_sent in H.
    apply andb_true_iff in H. destruct H as [He H].
    fold (expectedToken env) in *. fold (tokenQP req) in H.
    fold (tokenHdr req) in H. fold (bearerToken req) in H.
    split; [exact He|].
    rewrite !orb_true_iff, !str_eqb_eq in H. cbn.
    destruct H as [[H|H]|H]; auto.
  - unfold Dispatch.handler_xauth.
    destruct (Dispatch.taskId_of _ _) as [taskId|]; [|cbn; congruence].
    intros H. apply dispatch_after_auth_sent in H.
    apply andb_true_iff in H. destruct H as [He H].
    fold (expectedToken env) in *. fold (tokenQP req) in H.
    fold (tokenHdr req) in H.
    split; [exact He|].
    rewrite !orb_true_iff, !str_eqb_eq in H. cbn.
    destruct H as [H|H]; auto.
  - unfold Dispatch.handler_env. cbn zeta.
    change (if includes
                 (Dispatch.str_or (Dispatch.h_content_type (Dispatch.headers req)) [])
                 (js "application/json")
            then Dispatch.stream req
            else Some (Dispatch.BodyObject None None None))
      with (jsonBody req).
    unfold bodyToken.
    destruct (Dispatch.SHARED_DISPATCH_TOKEN env) as [secret|] eqn:Es;
      [|cbn; rewrite !orb_true_r; cbn; congruence].
    cbn [Dispatch.is_truthy Dispatch.str_or PostQa.str_or].
    destruct (truthy secret) eqn:Ts;
      [|cbn; rewrite !orb_true_r; cbn; congruence].
    destruct (negb _ || negb _ || negb _ || negb true); [cbn; congruence|].
    destruct (jsonBody req) as [body|]; [|cbn; congruence].
    set (q := Dispatch.query_of req).
    destruct (Dispatch.is_truthy (Dispatch.q_token q)) eqn:Hq.
    + destruct (str_eqb _ secret) eqn:E; [|cbn; congruence].
      intros _. exists secret. split; [reflexivity|]. split; [exact Ts|].
      apply str_eqb_eq in E. apply or_chain in E; [|exact Ts].
      cbn in E |- *. tauto.
    + destruct (Dispatch.body_token body) as [tok|] eqn:Eb; [|cbn; congruence].
      destruct (str_eqb _ secret) eqn:E; [|cbn; congruence].
      intros _. exists secret. split; [reflexivity|]. split; [exact Ts|].
      apply str_eqb_eq in E. apply or_chain in E; [|exact Ts].
      assert (Dispatch.str_or tok []
              = match body with
                | Dispatch.BodyObject _ _ token => Dispatch.str_or token []
                | _ => []
                end) as Et.
      { destruct body; cbn in Eb; try discriminate;
          injection Eb as <-; reflexivity. }
      rewrite <- Et. exact E.
Qed.

Lemma dispatch_needs_token_witness :
  Dispatch.sent (Dispatch.handler_bearer github_accepts env_secret request_bearer)
  <> []
  /\ truthy (expectedToken env_secret) = true
  /\ In (expectedToken env_secret)
        [tokenQP request_bearer; tokenHdr request_bearer;
         bearerToken request_bearer].
Proof.
  assert (Dispatch.sent
            (Dispatch.handler_bearer github_accepts env_secret request_bearer)
          <> []) as H by (cbn; discriminate).
  split; [exact H|].
  exact (proj1 (dispatch_needs_token github_accepts env_secret request_bearer) H).
Defined.

(** X8: the latest handler answers as the one before it whenever that one does
    not answer 401: reading [Authorization: Bearer] only adds requests
    that are let through. *)
Theorem handler_bearer_extends (gh : Dispatch.GitHub) (env : Dispatch.Env)
    (req : Dispatch.Req) :
  Dispatch.status (Dispatch.handler_xauth gh env req) <> 401%N ->
  Dispatch.handler_bearer gh env req = Dispatch.handler_xauth gh env req.
Proof.
  unfold Dispatch.handler_bearer, Dispatch.handler_xauth.
  destruct (Dispatch.taskId_of _ _) as [taskId|]; [|reflexivity].
  cbn zeta.
  destruct (truthy _ && (str_eqb _ _ || str_eqb _ _)) eqn:A.
  - intros _. apply andb_true_iff in A. destruct A as [A1 A2].
    rewrite A1, A2. reflexivity.
  - intros H. exfalso. apply H. reflexivity.
Qed.

Lemma handler_bearer_extends_witness :
  let req := {| Dispatch.method := None;
                Dispatch.query :=
                  Some {| Dispatch.q_task_id := Some (js "868fj80zu");
                          Dispatch.q_task := None;
                          Dispatch.q_token := Some (js "s3cret") |};
                Dispatch.body := Dispatch.BodyNull;
                Dispatch.headers :=
                  {| Dispatch.h_x_auth := None; Dispatch.h_X_Auth := None;
                     Dispatch.h_authorization := None;
                     Dispatch.h_Authorization := None;
                     Dispatch.h_content_type := None |};
                Dispatch.stream := None |} in
  Dispatch.status (Dispatch.handler_xauth github_accepts env_secret req) <> 401%N
  /\ Dispatch.handler_bearer github_accepts env_secret req
     = Dispatch.handler_xauth github_accepts env_secret req.
Proof.
  intros req.
  assert (Dispatch.status (Dispatch.handler_xauth github_accepts env_secret req)
          <> 401%N) as H by (cbn; discriminate).
  split; [exact H|].
  exact (handler_bearer_extends github_accepts env_secret req H).
Defined.

(** ** Folder listings, further *)

Lemma startsWith_refl s : startsWith s s = true.
Proof. induction s as [|c s IH]; simpl; auto. rewrite N.eqb_refl. exact IH. Qed.

Lemma startsWith_app_l p q : forall s,
  startsWith s (p ++ q) = true -> startsWith s p = true.
Proof.
  induction p as [|x p IH]; intros s H; [destruct s; reflexivity|].
  destruct s as [|y s]; [discriminate|]. simpl in *.
  apply andb_true_iff in H. destruct H as [H1 H2].
  rewrite H1. exact (IH s H2).
Qed.

Lemma startsWith_includes s p : startsWith s p = true -> includes s p = true.
Proof. intros H. destruct s; cbn [includes]; rewrite H; reflexivity. Qed.

Lemma includes_nil s : includes s [] = true.
Proof. destruct s; reflexivity. Qed.

(** X9: [findTaskSubfolder] returns a folder of the listing whose normalized
    name contains the normalized title, and returns nothing only when no
    folder does; a folder whose normalized name equals the title wins over
    the others.  A title without any letter, digit or underscore
    normalizes to the empty string, which every name contains: some folder
    is then returned as soon as the listing has one. *)
Theorem findTaskSubfolder_contains
    (items : list SharepointB.DriveItem) (taskTitle : jsstring) :
  let want := normalize taskTitle in
  match SharepointB.findTaskSubfolder items taskTitle with
  | Some f =>
      In f items /\ SharepointB.isFolder f = true
      /\ includes (normalize (SharepointB.name f)) want = true
  | None =>
      forall f, In f items -> SharepointB.isFolder f = true ->
                includes (normalize (SharepointB.name f)) want = false
  end
  /\ (forall f,
        first_sat (fun f => SharepointB.isFolder f
                            && str_eqb (normalize (SharepointB.name f)) want)
                  items f ->
        SharepointB.findTaskSubfolder items taskTitle = Some f)
  /\ (want = [] ->
      (SharepointB.findTaskSubfolder items taskTitle = None
       <-> forall f, In f items -> SharepointB.isFolder f = false)).
Proof.
  intros want.
  assert (match SharepointB.findTaskSubfolder items taskTitle with
          | Some f =>
              In f items /\ SharepointB.isFolder f = true
              /\ includes (normalize (SharepointB.name f)) want = true
          | None =>
              forall f, In f items -> SharepointB.isFolder f = true ->
                        includes (normalize (SharepointB.name f)) want = false
          end) as Main.
  { unfold SharepointB.findTaskSubfolder. fold want. rewrite !find_filter.
    destruct (find (fun x => _ && str_eqb _ _) items) as [f|] eqn:E1.
    { apply find_first_sat, first_sat_in in E1. destruct E1 as [Hin Hp].
      apply andb_true_iff in Hp. destruct Hp as [Hf Hp].
      apply str_eqb_eq in Hp. rewrite Hp.
      repeat split; auto. apply startsWith_includes, startsWith_refl. }
    destruct (find (fun x => _ && startsWith _ _) items) as [f|] eqn:E2.
    { apply find_first_sat, first_sat_in in E2. destruct E2 as [Hin Hp].
      apply andb_true_iff in Hp. destruct Hp as [Hf Hp].
      repeat split; auto.
      apply startsWith_includes. exact (startsWith_app_l _ _ _ Hp). }
    destruct (find (fun x => _ && includes _ _) items) as [f|] eqn:E3.
    { apply find_first_sat, first_sat_in in E3. destruct E3 as [Hin Hp].
      apply andb_true_iff in Hp. destruct Hp as [Hf Hp]. auto. }
    intros f Hin Hf. pose proof (find_none_sat _ _ E3 f Hin) as H.
    cbn in H. rewrite Hf in H. exact H. }
  split; [exact Main|]. split.
  - intros f F. unfold SharepointB.findTaskSubfolder. fold want.
    rewrite !find_filter.
    destruct (find (fun x => _ && str_eqb _ _) items) as [f'|] eqn:E1.
    + f_equal. exact (first_sat_unique (find_first_sat _ _ E1) F).
    + exfalso. exact (first_none_absurd F (find_none_sat _ _ E1)).
  - intros W. split.
    + intros E f Hin. rewrite E in Main.
      destruct (SharepointB.isFolder f) eqn:Hf; [|reflexivity].
      specialize (Main f Hin Hf). rewrite W, includes_nil in Main.
      discriminate.
    + intros H. destruct (SharepointB.findTaskSubfolder items taskTitle)
        as [f|]; [|reflexivity].
      destruct Main as (Hin & Hf & _). rewrite (H f Hin) in Hf. discriminate.
Qed.

Lemma last_app_nonempty (s p : jsstring) d : p <> [] -> last (s ++ p) d = last p d.
Proof.
  intros Hp. induction s as [|c s IH]; [reflexivity|].
  simpl. destruct (s ++ p) eqn:E; [|exact IH].
  apply app_eq_nil in E. destruct E as [_ E]. contradiction.
Qed.

Lemma last_map (f : N -> N) s d : last (map f s) (f d) = f (last s d).
Proof.
  induction s as [|c s IH]; [reflexivity|].
  simpl. destruct s; [reflexivity | exact IH].
Qed.

(** A name that ends with [p] whatever the case ends with the last letter
    of [p], whatever its case. *)
Lemma endsWith_ci_last s p :
  endsWith_ci s p = true -> p <> [] ->
  fold_ci (last s 0%N) = fold_ci (last p 0%N).
Proof.
  intros H Hp. apply endsWith_ci_suffix in H.
  destruct H as (stem & ext & -> & E).
  assert (ext <> []) as He.
  { intros ->. destruct p; [contradiction | discriminate]. }
  rewrite (last_app_nonempty stem 0%N He).
  rewrite <- !(last_map fold_ci). rewrite E. reflexivity.
Qed.

Lemma isExcel_not_image n :
  Regex.isExcel n = true -> SharepointA.isImageName n = false.
Proof.
  unfold Regex.isExcel, SharepointA.isImageName. intros H.
  apply orb_true_iff in H.
  assert (fold_ci (last n 0%N) = 120%N \/ fold_ci (last n 0%N) = 115%N) as L.
  { destruct H as [H|H]; apply endsWith_ci_last in H; try discriminate;
      rewrite H; [left | right]; reflexivity. }
  repeat match goal with
    | |- context [endsWith_ci n ?p] =>
        let E := fresh "E" in
        destruct (endsWith_ci n p) eqn:E;
        [apply endsWith_ci_last in E; [|discriminate];
         cbn in E; destruct L as [L|L]; rewrite L in E; discriminate|]
    end.
  reflexivity.
Qed.

(** X10: the spreadsheet [findExcelForTask] selects is never among the images
    [getImageFiles] returns for the same listing in [src/sharepoint.js]:
    no name ends both in a spreadsheet and in an image extension.  In
    part_000, where the mime type also makes an image, it is among them
    only when its mime type starts with [image/]. *)
Theorem spreadsheet_not_image :
  (forall items title e,
     SharepointA.findExcelForTask items title = Some e ->
     ~ In e (SharepointA.getImageFiles items))
  /\ (forall items title e,
        SharepointB.findExcelForTask items title = Some e ->
        In e (SharepointB.getImageFiles items) ->
        exists mime, SharepointB.file e = Some mime
                     /\ startsWith (toLowerCase mime) (js "image/") = true).
Proof.
  split; intros items title e H.
  - pose proof (SharepointA_selection items title) as S. rewrite H in S.
    apply selection_sheet in S. destruct S as [_ Hs].
    unfold SharepointA.isSheet in Hs. apply andb_true_iff in Hs.
    destruct Hs as [_ Hx]. unfold SharepointA.getImageFiles.
    rewrite filter_In. intros [_ Hi].
    rewrite (isExcel_not_image _ Hx), andb_false_r in Hi. discriminate.
  - pose proof (SharepointB_selection items title) as S. rewrite H in S.
    apply selection_sheet in S. destruct S as [_ Hs].
    unfold SharepointB.isSheet in Hs. apply andb_true_iff in Hs.
    destruct Hs as [_ Hx]. unfold SharepointB.getImageFiles.
    rewrite filter_In. intros [_ Hi].
    unfold SharepointB.isImageName in Hi.
    rewrite (isExcel_not_image _ Hx) in Hi. cbn [orb] in Hi.
    apply andb_true_iff in Hi. destruct Hi as [Hf Hm].
    destruct (SharepointB.file e) as [mime|]; [|discriminate].
    exists mime. split; [reflexivity | exact Hm].
Qed.

Lemma spreadsheet_not_image_witness :
  SharepointA.findExcelForTask
    [entryA "shot.png" false; entryA "random.XLS" false] (js "Nonexistent")
  = Some (entryA "random.XLS" false)
  /\ ~ In (entryA "random.XLS" false)
          (SharepointA.getImageFiles
             [entryA "shot.png" false; entryA "random.XLS" false]).
Proof.
  split; [reflexivity|].
  apply (proj1 spreadsheet_not_image
           [entryA "shot.png" false; entryA "random.XLS" false]
           (js "Nonexistent")).
  reflexivity.
Defined.

Lemma skipn_app_length (A : Type) (t p : list A) :
  skipn (length (t ++ p) - length p) (t ++ p) = p.
Proof.
  rewrite length_app, Nat.add_sub. induction t as [|x t IH]; simpl; auto.
Qed.

Lemma firstn_app_length (A : Type) (t p : list A) :
  firstn (length (t ++ p) - length p) (t ++ p) = t.
Proof.
  rewrite length_app, Nat.add_sub. induction t as [|x t IH]; simpl;
    [reflexivity | f_equal; exact IH].
Qed.

Lemma endsWith_app t p : endsWith (t ++ p) p = true.
Proof.
  unfold endsWith. rewrite skipn_app_length, str_eqb_refl. cbn [andb].
  apply Nat.leb_le. rewrite length_app. lia.
Qed.

Lemma dropEnd_app t p : dropEnd (length p) (t ++ p) = t.
Proof. unfold dropEnd. apply firstn_app_length. Qed.

Lemma endsWith_ci_app t p q :
  length p = length q -> startsWith_ci p q = true ->
  endsWith_ci (t ++ p) q = true.
Proof.
  intros L H. unfold endsWith_ci. rewrite <- L, skipn_app_length, H, L.
  rewrite Nat.eqb_refl. reflexivity.
Qed.

Lemma endsWith_last s p :
  endsWith s p = true -> p <> [] -> last s 0%N = last p 0%N.
Proof.
  unfold endsWith. intros H Hp. apply andb_true_iff in H.
  destruct H as [H _]. apply str_eqb_eq in H.
  rewrite <- (firstn_skipn (length s - length p) s), H.
  apply last_app_nonempty. exact Hp.
Qed.

Lemma endsWith_other_last (t ext p : jsstring) :
  ext <> [] -> p <> [] -> last ext 0%N <> last p 0%N ->
  endsWith (t ++ ext) p = false.
Proof.
  intros He Hp Hl. destruct (endsWith (t ++ ext) p) eqn:E; [|reflexivity].
  apply endsWith_last in E; [|exact Hp].
  rewrite (last_app_nonempty t 0%N He) in E. contradiction.
Qed.

(** The four spellings of the extension that [findExcelForTask] of
    part_000 removes. *)
Lemma strip_xlsx_raw_app t ext :
  In ext [js ".xlsx"; js ".xls"; js ".XLSX"; js ".XLS"] ->
  Regex.strip_xlsx_raw (t ++ ext) = t /\ Regex.isExcel (t ++ ext) = true.
Proof.
  unfold Regex.strip_xlsx_raw, Regex.isExcel.
  intros [<-|[<-|[<-|[<-|[]]]]].
  - rewrite endsWith_app. cbn [orb]. split; [apply (dropEnd_app t (js ".xlsx"))|].
    rewrite (endsWith_ci_app t (js ".xlsx") (js ".xlsx")); reflexivity.
  - rewrite (endsWith_other_last t (ext := js ".xls") (p := js ".xlsx")),
      (endsWith_other_last t (ext := js ".xls") (p := js ".XLSX")),
      endsWith_app; try discriminate.
    cbn [orb]. split; [apply (dropEnd_app t (js ".xls"))|].
    rewrite (endsWith_ci_app t (js ".xls") (js ".xls")); try reflexivity.
    apply orb_true_r.
  - rewrite (endsWith_other_last t (ext := js ".XLSX") (p := js ".xlsx")),
      endsWith_app; try discriminate.
    cbn [orb]. split; [apply (dropEnd_app t (js ".XLSX"))|].
    rewrite (endsWith_ci_app t (js ".XLSX") (js ".xlsx")); reflexivity.
  - rewrite (endsWith_other_last t (ext := js ".XLS") (p := js ".xlsx")),
      (endsWith_other_last t (ext := js ".XLS") (p := js ".XLSX")),
      (endsWith_other_last t (ext := js ".XLS") (p := js ".xls")),
      endsWith_app; try discriminate.
    cbn [orb]. split; [apply (dropEnd_app t (js ".XLS"))|].
    rewrite (endsWith_ci_app t (js ".XLS") (js ".xls")); try reflexivity.
    apply orb_true_r.
Qed.

(** X11: in part_000, when the listing holds a file named as the task title
    followed by [.xlsx], [.xls], [.XLSX] or [.XLS], [findExcelForTask]
    returns a spreadsheet of the exact tier: one whose name without
    extension normalizes to the normalized title. *)
Theorem named_after_title_exact
    (items : list SharepointB.DriveItem) (taskTitle : jsstring)
    (f : SharepointB.DriveItem) (ext : jsstring) :
  In f items ->
  SharepointB.isFile f = true ->
  In ext [js ".xlsx"; js ".xls"; js ".XLSX"; js ".XLS"] ->
  SharepointB.name f = taskTitle ++ ext ->
  exists h,
    SharepointB.findExcelForTask items taskTitle = Some h
    /\ In h items
    /\ SharepointB.isSheet h = true
    /\ SharepointB.base (SharepointB.name h) = normalize taskTitle.
Proof.
  intros Hin Hf He Hn.
  destruct (@strip_xlsx_raw_app taskTitle ext He) as [Hs Hx].
  assert (SharepointB.isSheet f && SharepointB.exact (normalize taskTitle) f
          = true) as Hp.
  { unfold SharepointB.isSheet, SharepointB.exact, SharepointB.base.
    rewrite Hf, Hn, Hx, Hs, str_eqb_refl. reflexivity. }
  pose proof (SharepointB_selection items taskTitle) as S.
  inversion S as [e F E| e N| e N| e N|N]; subst;
    try (rewrite (N f Hin) in Hp; discriminate).
  exists e. split; [reflexivity|].
  apply first_sat_in in F. destruct F as [Hie Hpe].
  apply andb_true_iff in Hpe. destruct Hpe as [Hse Hee].
  apply str_eqb_eq in Hee. auto.
Qed.

Lemma named_after_title_exact_witness :
  let items := [entryB "Task A - v2.xlsx" false; entryB "Task A!.XLS" false] in
  In (entryB "Task A!.XLS" false) items
  /\ SharepointB.isFile (entryB "Task A!.XLS" false) = true
  /\ In (js ".XLS") [js ".xlsx"; js ".xls"; js ".XLSX"; js ".XLS"]
  /\ SharepointB.name (entryB "Task A!.XLS" false) = js "Task A!" ++ js ".XLS"
  /\ exists h,
       SharepointB.findExcelForTask items (js "Task A!") = Some h
       /\ In h items
       /\ SharepointB.isSheet h = true
       /\ SharepointB.base (SharepointB.name h) = normalize (js "Task A!").
Proof.
  intros items.
  split; [right; left; reflexivity|]. split; [reflexivity|].
  split; [cbn; tauto|]. split; [reflexivity|].
  apply (@named_after_title_exact items (js "Task A!")
           (entryB "Task A!.XLS" false) (js ".XLS")).
  - right; left; reflexivity.
  - reflexivity.
  - cbn; tauto.
  - reflexivity.
Defined.

Lemma toLowerCase_app a b : toLowerCase (a ++ b) = toLowerCase a ++ toLowerCase b.
Proof. unfold toLowerCase. apply flat_map_app. Qed.

Lemma toLowerCase1_ascii c : (fold_ci c < 256)%N -> toLowerCase1 c = [fold_ci c].
Proof.
  unfold toLowerCase1, fold_ci. destruct (is_upper c); [reflexivity|].
  intros H. settle_cmp. reflexivity.
Qed.

Lemma toLowerCase_ascii s :
  Forall (fun c => (c < 256)%N) (map fold_ci s) ->
  toLowerCase s = map fold_ci s.
Proof.
  unfold toLowerCase. induction s as [|c s IH]; intros H; [reflexivity|].
  inversion H; subst. simpl. rewrite toLowerCase1_ascii, IH; auto.
Qed.

Lemma collapse_runs_app_free cls e :
  Forall (fun c => cls c = false) e ->
  forall a b, collapse_runs cls b (a ++ e) = collapse_runs cls b a ++ e.
Proof.
  intros He. induction a as [|c a IH]; intros b.
  - simpl. revert b. induction He as [|x e Hx _ IHe]; intros b; [reflexivity|].
    simpl. rewrite Hx. f_equal. apply IHe.
  - simpl. destruct (cls c); [destruct b|]; rewrite IH; reflexivity.
Qed.

Lemma trimStart_app_free p e :
  head_free is_space e = true -> e <> [] ->
  trimStart (p ++ e) = trimStart p ++ e.
Proof.
  intros He Hn. induction p as [|c p IH]; simpl.
  - apply trimStart_fix. exact He.
  - destruct (is_space c); [exact IH | reflexivity].
Qed.

Lemma trimEnd_app_free x e :
  e <> [] -> is_space (last e 0%N) = false -> trimEnd (x ++ e) = x ++ e.
Proof.
  intros Hn Hl. apply trimEnd_fix_iff. unfold ends_clean.
  destruct (x ++ e) eqn:E.
  - reflexivity.
  - rewrite <- E, (last_app_nonempty x 0%N Hn), Hl. reflexivity.
Qed.

Lemma trimEnd_split s :
  trimEnd s = s
  \/ exists c rest, s = trimEnd s ++ c :: rest /\ is_space c = true.
Proof.
  induction s as [|x r IH]; [left; reflexivity|].
  cbn [trimEnd]. destruct IH as [IH|(c & rest & IH & Hc)].
  - rewrite IH. destruct r as [|y r'].
    + destruct (is_space x) eqn:Ex; [right; exists x, []; auto | left; reflexivity].
    + left; reflexivity.
  - destruct (trimEnd r) as [|y t] eqn:E.
    + destruct (is_space x) eqn:Ex.
      * right. exists x, r. auto.
      * right. exists c, rest. rewrite IH at 1. auto.
    + right. exists c, rest. rewrite IH at 1. auto.
Qed.

Lemma startsWith_app p q : startsWith (p ++ q) p = true.
Proof.
  induction p as [|c p IH]; [destruct q; reflexivity|].
  simpl. rewrite N.eqb_refl. exact IH.
Qed.

Lemma fold_ci_idem c : fold_ci (fold_ci c) = fold_ci c.
Proof.
  unfold fold_ci. destruct (is_upper c) eqn:U; [|rewrite U; reflexivity].
  apply is_upper_range in U. unfold is_upper. settle_cmp. reflexivity.
Qed.

Lemma startsWith_ci_map p : forall s,
  startsWith_ci s p = startsWith_ci (map fold_ci s) p.
Proof.
  induction p as [|x p IH]; intros s; [destruct s; reflexivity|].
  destruct s as [|y s]; [reflexivity|]. simpl. rewrite <- IH. f_equal.
  unfold eq_ci. f_equal. symmetry. apply fold_ci_idem.
Qed.

(** The shape of [norm] on a name made of a stem and a spreadsheet
    extension: the extension in lower case after the stem normalized
    without the final trim. *)
Lemma norm_with_extension t ext e :
  map fold_ci ext = e -> e = js ".xlsx" \/ e = js ".xls" ->
  exists s,
    norm (t ++ ext) = s ++ e
    /\ norm t = trimEnd s
    /\ Forall (fun c => c = 32%N \/ is_space c = false) s.
Proof.
  intros Ee He.
  assert (toLowerCase ext = e) as El.
  { rewrite toLowerCase_ascii; rewrite Ee; [reflexivity|].
    destruct He as [-> | ->]; repeat constructor. }
  set (cls := fun c => (c =? 95)%N || is_space c).
  set (keep := fun c => is_word c || (c =? 46)%N || (c =? 45)%N || (c =? 32)%N).
  set (P := keep_only keep (collapse_runs cls false (map dashfold (toLowerCase t)))).
  exists (trimStart P).
  assert (norm (t ++ ext) = trim (P ++ e)) as E1.
  { unfold norm. fold cls keep. rewrite toLowerCase_app, El, map_app.
    assert (map dashfold e = e) as -> by (destruct He as [-> | ->]; reflexivity).
    rewrite collapse_runs_app_free
      by (destruct He as [-> | ->]; repeat constructor).
    unfold keep_only. rewrite filter_app.
    assert (filter keep e = e) as -> by (destruct He as [-> | ->]; reflexivity).
    reflexivity. }
  split; [|split].
  - rewrite E1. unfold trim.
    rewrite trimStart_app_free
      by (destruct He as [-> | ->]; reflexivity || discriminate).
    apply trimEnd_app_free; destruct He as [-> | ->];
      reflexivity || discriminate.
  - reflexivity.
  - apply trimStart_Forall. unfold P.
    assert (Forall (fun c => c = 32%N \/ cls c = false)
              (collapse_runs cls false (map dashfold (toLowerCase t)))) as F
      by apply collapse_runs_sep.
    apply keep_only_Forall.
    eapply Forall_impl; [|exact F].
    intros c [->|Hc]; [left; reflexivity|]. right.
    unfold cls in Hc. apply orb_false_iff in Hc. tauto.
Qed.

Lemma strip_xlsx_app s e :
  e = js ".xlsx" \/ e = js ".xls" -> Regex.strip_xlsx (s ++ e) = s.
Proof.
  unfold Regex.strip_xlsx. intros [-> | ->].
  - rewrite endsWith_app. apply (dropEnd_app s (js ".xlsx")).
  - rewrite (endsWith_other_last s (ext := js ".xls") (p := js ".xlsx")),
      endsWith_app; try discriminate.
    apply (dropEnd_app s (js ".xls")).
Qed.

(** X12: in [src/sharepoint.js], when the listing holds a file named as the task
    title followed by [.xlsx] or [.xls] in any case, [findExcelForTask]
    returns a spreadsheet of the exact or of the prefix tier: the lookup
    never falls back to a name with "preview" or to the first
    spreadsheet.  (The prefix tier takes over when the title ends in
    characters that normalize to a space.) *)
Theorem named_after_title_matched
    (items : list SharepointA.FolderEntry) (taskTitle : jsstring)
    (f : SharepointA.FolderEntry) (ext : jsstring) :
  In f items ->
  SharepointA.isFolder f = false ->
  map fold_ci ext = js ".xlsx" \/ map fold_ci ext = js ".xls" ->
  SharepointA.name f = taskTitle ++ ext ->
  exists h,
    SharepointA.findExcelForTask items taskTitle = Some h
    /\ In h items
    /\ SharepointA.isSheet h = true
    /\ (SharepointA.exact (norm taskTitle) h = true
        \/ SharepointA.starts (norm taskTitle) h = true).
Proof.
  intros Hin Hf He Hn.
  assert (Regex.isExcel (taskTitle ++ ext) = true) as Hx.
  { unfold Regex.isExcel. apply orb_true_iff.
    destruct He as [He|He]; [left | right];
      apply endsWith_ci_app;
      try (rewrite <- (length_map fold_ci), He; reflexivity);
      [assert (startsWith_ci ext (js ".xlsx")
               = startsWith_ci (map fold_ci ext) (js ".xlsx")) as ->
      |assert (startsWith_ci ext (js ".xls")
               = startsWith_ci (map fold_ci ext) (js ".xls")) as ->];
      try (rewrite He; reflexivity);
      apply startsWith_ci_map. }
  destruct (@norm_with_extension taskTitle ext (map fold_ci ext) eq_refl He)
    as (s & E1 & E2 & Fs).
  assert (SharepointA.isSheet f = true) as Hsf.
  { unfold SharepointA.isSheet. rewrite Hf, Hn, Hx. reflexivity. }
  assert (SharepointA.exact (norm taskTitle) f = true
          \/ SharepointA.starts (norm taskTitle) f = true) as Hm.
  { unfold SharepointA.exact, SharepointA.starts. rewrite Hn, E1.
    rewrite (strip_xlsx_app s He), E2.
    destruct (trimEnd_split s) as [Es|(c & rest & Es & Hc)].
    - left. rewrite Es. apply str_eqb_refl.
    - right. rewrite Es at 1.
      assert (c = 32%N) as ->.
      { rewrite Forall_forall in Fs. destruct (Fs c) as [E|E]; auto.
        - rewrite Es. apply in_or_app. right. left. reflexivity.
        - congruence. }
      rewrite <- app_assoc.
      change (trimEnd s ++ (32%N :: rest) ++ map fold_ci ext)
        with (trimEnd s ++ js " " ++ (rest ++ map fold_ci ext)).
      rewrite app_assoc. apply startsWith_app. }
  pose proof (SharepointA_selection items taskTitle) as S.
  inversion S as [e F E| e N F E| e N N' F E| e N N' N'' F E|N]; subst.
  - exists e. split; [reflexivity|]. apply first_sat_in in F.
    destruct F as [Hie Hpe]. apply andb_true_iff in Hpe. tauto.
  - exists e. split; [reflexivity|]. apply first_sat_in in F.
    destruct F as [Hie Hpe]. apply andb_true_iff in Hpe. tauto.
  - exfalso. pose proof (N f Hin) as H1. pose proof (N' f Hin) as H2.
    cbn in H1, H2. rewrite Hsf in H1, H2. cbn in H1, H2.
    destruct Hm; congruence.
  - exfalso. pose proof (N f Hin) as H1. pose proof (N' f Hin) as H2.
    cbn in H1, H2. rewrite Hsf in H1, H2. cbn in H1, H2.
    destruct Hm; congruence.
  - exfalso. rewrite (N f Hin) in Hsf. discriminate.
Qed.

Lemma named_after_title_matched_witness :
  let items := [entryA "preview.xlsx" false; entryA "Task A_.XlsX" false] in
  In (entryA "Task A_.XlsX" false) items
  /\ SharepointA.isFolder (entryA "Task A_.XlsX" false) = false
  /\ (map fold_ci (js ".XlsX") = js ".xlsx" \/ map fold_ci (js ".XlsX") = js ".xls")
  /\ SharepointA.name (entryA "Task A_.XlsX" false) = js "Task A_" ++ js ".XlsX"
  /\ exists h,
       SharepointA.findExcelForTask items (js "Task A_") = Some h
       /\ In h items
       /\ SharepointA.isSheet h = true
       /\ (SharepointA.exact (norm (js "Task A_")) h = true
           \/ SharepointA.starts (norm (js "Task A_")) h = true).
Proof.
  intros items.
  split; [right; left; reflexivity|]. split; [reflexivity|].
  split; [left; reflexivity|]. split; [reflexivity|].
  apply (@named_after_title_matched items (js "Task A_")
           (entryA "Task A_.XlsX" false) (js ".XlsX")).
  - right; left; reflexivity.
  - reflexivity.
  - left; reflexivity.
  - reflexivity.
Defined.

(** ** The preview pattern, further *)

Lemma match_all_within at_ s : forall prev skip m,
  In m (Regex.match_all at_ prev skip s) ->
  exists prev' pre s', s = pre ++ s' /\ at_ prev' s' = Some m.
Proof.
  induction s as [|c r IH]; intros prev skip m H; [destruct H|].
  assert (forall p k, In m (Regex.match_all at_ p k r) ->
            exists prev' pre s', c :: r = pre ++ s' /\ at_ prev' s' = Some m)
    as Step.
  { intros p k Hm. destruct (IH p k m Hm) as (prev' & pre & s' & -> & E).
    exists prev', (c :: pre), s'. split; [reflexivity | exact E]. }
  simpl in H. destruct skip as [|k]; [|eauto].
  destruct (at_ prev (c :: r)) as [m'|] eqn:E; [|eauto].
  destruct H as [<-|H]; [|eauto].
  exists prev, [], (c :: r). split; [reflexivity | exact E].
Qed.

Lemma takeWhile_prefix p s : exists rest, s = Regex.takeWhile p s ++ rest.
Proof.
  induction s as [|c s [rest IH]]; [exists []; reflexivity|].
  simpl. destruct (p c).
  - exists rest. simpl. f_equal. exact IH.
  - exists (c :: s). reflexivity.
Qed.

Lemma includes_app_r a : forall s p, includes s p = true -> includes (a ++ s) p = true.
Proof.
  induction a as [|c a IH]; intros s p H; [exact H|].
  cbn [app includes]. rewrite (IH s p H). apply orb_true_r.
Qed.

Lemma eq_ci_tokc x c : eq_ci x c = true -> Regex.tokc x = true -> Regex.tokc c = true.
Proof.
  unfold Regex.tokc. intros H T. apply andb_true_iff in T. destruct T as [T1 T2].
  apply negb_true_iff in T1, T2. apply N.eqb_neq in T2.
  rewrite (eq_ci_not_space x c H T1). cbn [negb andb].
  apply negb_true_iff, N.eqb_neq. intros ->.
  unfold eq_ci, fold_ci in H. apply N.eqb_eq in H.
  destruct (is_upper x) eqn:U.
  - apply is_upper_range in U. cbn in H. lia.
  - cbn in H. congruence.
Qed.

Lemma startsWith_ci_tokc p : forall s,
  Forall (fun x => Regex.tokc x = true) p ->
  startsWith_ci s p = true ->
  Forall (fun c => Regex.tokc c = true) (firstn (length p) s).
Proof.
  induction p as [|x p IH]; intros s Hp H; [constructor|].
  destruct s as [|c s]; [discriminate|]. simpl in H.
  apply andb_true_iff in H. destruct H as [H1 H2].
  inversion Hp; subst. simpl. constructor.
  - eapply eq_ci_tokc; eauto.
  - apply IH; assumption.
Qed.

Lemma takeWhile_all p s :
  Forall (fun c => p c = true) s -> forall t,
  Regex.takeWhile p (s ++ t) = s ++ Regex.takeWhile p t.
Proof.
  induction 1 as [|c s Hc _ IH]; intros t; [reflexivity|].
  simpl. rewrite Hc, IH. reflexivity.
Qed.

Lemma takeWhile_firstn p n s :
  Forall (fun c => p c = true) (firstn n s) ->
  Regex.takeWhile p s = firstn n s ++ Regex.takeWhile p (skipn n s).
Proof.
  intros H. rewrite <- (firstn_skipn n s) at 1. apply takeWhile_all. exact H.
Qed.

Lemma takeWhile_twice (p q : N -> bool) s :
  (forall c, p c = true -> q c = true) ->
  Regex.takeWhile p (Regex.takeWhile q s) = Regex.takeWhile p s.
Proof.
  intros Hpq. induction s as [|c s IH]; [reflexivity|].
  simpl. destruct (q c) eqn:Q.
  - simpl. destruct (p c); [f_equal; exact IH | reflexivity].
  - destruct (p c) eqn:P; [|reflexivity].
    rewrite (Hpq c P) in Q. discriminate.
Qed.

Lemma startsWith_ci_takeWhile p : forall s,
  Forall (fun x => Regex.tokc x = true) p ->
  startsWith_ci s p = true ->
  startsWith_ci (Regex.takeWhile Regex.tokc s) p = true.
Proof.
  induction p as [|x p IH]; intros s Hp H;
    [destruct (Regex.takeWhile _ _); reflexivity|].
  destruct s as [|c s]; [discriminate|]. simpl in H.
  apply andb_true_iff in H. destruct H as [H1 H2].
  inversion Hp; subst. simpl.
  rewrite (eq_ci_tokc x c H1) by assumption.
  simpl. rewrite H1. apply IH; assumption.
Qed.

Lemma digit_tokc c : is_digit c = true -> Regex.tokc c = true.
Proof.
  unfold is_digit, Regex.tokc. intros H. apply andb_true_iff in H.
  destruct H as [H1 H2]. apply N.leb_le in H1, H2.
  rewrite range_not_space by lia. cbn [negb andb].
  apply negb_true_iff, N.eqb_neq. lia.
Qed.

Lemma skipn_app_exact (A : Type) (a b : list A) n :
  length a = n -> skipn n (a ++ b) = b.
Proof.
  intros <-. induction a as [|x a IH]; [reflexivity | exact IH].
Qed.

(** A signature found in a text is still there when the text is cut at
    the end of the token. *)
Lemma sig_at_takeWhile s :
  Regex.sig_at s = true -> Regex.sig_at (Regex.takeWhile Regex.tokc s) = true.
Proof.
  unfold Regex.sig_at. intros H.
  assert (forall lit,
            Forall (fun x => Regex.tokc x = true) lit -> length lit = 10%nat ->
            startsWith_ci s lit = true ->
            Regex.digits6 (skipn 10 s) = true ->
            Regex.digits6 (skipn 10 (Regex.takeWhile Regex.tokc s)) = true) as D.
  { intros lit Hl Ll Hs Hd.
    pose proof (@startsWith_ci_tokc lit s Hl Hs) as F. rewrite Ll in F.
    rewrite (@takeWhile_firstn Regex.tokc 10 s F).
    assert (length (firstn 10 s) = 10%nat) as L10.
    { rewrite length_firstn. apply Nat.min_l.
      destruct (Nat.le_gt_cases 10 (length s)) as [Hle|Hgt]; [exact Hle|].
      exfalso. clear - Hs Ll Hgt.
      assert (forall p s', startsWith_ci s' p = true ->
                           (length p <= length s')%nat) as Len.
      { induction p as [|x p IH]; intros [|y s'] E; simpl in *;
          try lia; try discriminate.
        apply andb_true_iff in E. destruct E as [_ E].
        specialize (IH s' E). lia. }
      specialize (Len lit s Hs). lia. }
    rewrite (@skipn_app_exact _ _ _ _ L10).
    unfold Regex.digits6 in *. rewrite takeWhile_twice; [exact Hd|].
    exact digit_tokc. }
  apply orb_true_iff in H. destruct H as [H|H].
  - apply orb_true_iff in H. destruct H as [H|H].
    + rewrite startsWith_ci_takeWhile; [reflexivity | repeat constructor | exact H].
    + apply andb_true_iff in H. destruct H as [H1 H2].
      rewrite (@startsWith_ci_takeWhile (js "convert_e=") s);
        [|repeat constructor | exact H1].
      rewrite (D (js "convert_e=")); auto; [|repeat constructor].
      rewrite orb_true_r. reflexivity.
  - apply andb_true_iff in H. destruct H as [H1 H2].
    rewrite (@startsWith_ci_takeWhile (js "convert_v=") s);
      [|repeat constructor | exact H1].
    rewrite (D (js "convert_v=")); auto; [|repeat constructor].
    apply orb_true_r.
Qed.

Lemma lazy_sig_found r :
  Regex.lazy_sig r = true ->
  exists j, Forall (fun c => Regex.tokc c = true) (firstn j r)
            /\ Regex.sig_at (skipn j r) = true.
Proof.
  induction r as [|c r IH]; [discriminate|].
  simpl. intros H. apply andb_true_iff in H. destruct H as [Hc H].
  apply orb_true_iff in H. destruct H as [H|H].
  - exists 1%nat. split; [repeat constructor; exact Hc | exact H].
  - destruct (IH H) as (j & F & Sg). exists (Datatypes.S j). split; [|exact Sg].
    simpl. constructor; assumption.
Qed.

Lemma preview_at_shape prev s m :
  Regex.preview_at prev s = Some m ->
  (startsWith_ci m (js "http://") = true \/ startsWith_ci m (js "https://") = true)
  /\ Forall (fun c => Regex.tokc c = true) m
  /\ (exists rest, s = m ++ rest)
  /\ has_signature m.
Proof.
  unfold Regex.preview_at, Regex.scheme_len.
  destruct (Regex.boundary prev); [|discriminate].
  assert (forall lit n,
            Forall (fun x => Regex.tokc x = true) lit -> length lit = n ->
            startsWith_ci s lit = true ->
            Regex.lazy_sig (skipn n s) = true ->
            let m := firstn n s ++ Regex.takeWhile Regex.tokc (skipn n s) in
            startsWith_ci m lit = true
            /\ Forall (fun c => Regex.tokc c = true) m
            /\ (exists rest, s = m ++ rest)
            /\ has_signature m) as Shape.
  { intros lit n Hl Ln Hs Hz m0.
    pose proof (@startsWith_ci_tokc lit s Hl Hs) as F. rewrite Ln in F.
    assert (length (firstn n s) = n) as Lf.
    { rewrite length_firstn. apply Nat.min_l. subst n.
      clear - Hs. revert s Hs.
      induction lit as [|x p IH]; intros [|y s'] E; simpl in *;
        try lia; try discriminate.
      apply andb_true_iff in E. destruct E as [_ E].
      specialize (IH s' E). lia. }
    assert (m0 = Regex.takeWhile Regex.tokc s) as Em
      by (symmetry; apply takeWhile_firstn; exact F).
    split; [|split; [|split]].
    - rewrite Em. apply startsWith_ci_takeWhile; assumption.
    - rewrite Em. apply takeWhile_Forall.
    - rewrite Em. apply takeWhile_prefix.
    - destruct (@lazy_sig_found _ Hz) as (j & Fj & Sj).
      exists (j + n)%nat. unfold m0.
      rewrite <- skipn_skipn.
      rewrite (@skipn_app_exact _ _ _ _ Lf).
      rewrite (@takeWhile_firstn Regex.tokc j (skipn n s) Fj).
      assert (length (firstn j (skipn n s)) = j) as Lj.
      { rewrite length_firstn. apply Nat.min_l.
        destruct (Nat.le_gt_cases j (length (skipn n s))) as [Hle|Hgt];
          [exact Hle|].
        rewrite skipn_all2 in Sj by lia. discriminate. }
      rewrite (@skipn_app_exact _ _ _ _ Lj).
      apply sig_at_takeWhile. exact Sj. }
  destruct (startsWith_ci s (js "https://")) eqn:E8;
    [|destruct (startsWith_ci s (js "http://")) eqn:E7; [|discriminate]].
  - destruct (Regex.lazy_sig _) eqn:Z; [|discriminate]. intros [= <-].
    destruct (Shape (js "https://") 8%nat ltac:(repeat constructor) eq_refl E8 Z)
      as (A & B & C & D).
    repeat split; auto.
  - destruct (Regex.lazy_sig _) eqn:Z; [|discriminate]. intros [= <-].
    destruct (Shape (js "http://") 7%nat ltac:(repeat constructor) eq_refl E7 Z)
      as (A & B & C & D).
    repeat split; auto.
Qed.

(** X13: every link the preview pattern yields, in a cell of a sheet or
    through [extractPreviewLinksFromText] (from which the links of a
    description come), is a piece of the scanned text that starts with
    [http://] or [https://] in any case, holds no whitespace and no closing
    parenthesis, and contains one of the three signatures. *)
Theorem preview_links_sound (text m : jsstring) :
  In m (Regex.match_preview text)
  \/ In m (PostQa.extractPreviewLinksFromText text) ->
  (startsWith_ci m (js "http://") = true \/ startsWith_ci m (js "https://") = true)
  /\ Forall (fun c => Regex.tokc c = true) m
  /\ includes text m = true
  /\ has_signature m.
Proof.
  intros H.
  assert (In m (Regex.match_preview text)) as H'.
  { destruct H as [H|H]; [exact H|].
    unfold PostQa.extractPreviewLinksFromText in H.
    rewrite match_preview_trim in H. exact H. }
  clear H. apply match_all_within in H'.
  destruct H' as (prev & pre & s & -> & E).
  destruct (@preview_at_shape _ _ _ E) as (A & B & (rest & ->) & D).
  repeat split; auto.
  apply includes_app_r, startsWith_includes, startsWith_app.
Qed.

Lemma preview_links_sound_witness :
  In link_x (Regex.match_preview (js "see (" ++ link_x ++ js ") now"))
  /\ includes (js "see (" ++ link_x ++ js ") now") link_x = true
  /\ has_signature link_x.
Proof.
  assert (In link_x (Regex.match_preview (js "see (" ++ link_x ++ js ") now")))
    as H by (left; reflexivity).
  split; [exact H|].
  exact (proj2 (proj2 (@preview_links_sound _ _ (or_introl H)))).
Defined.

(** ** [parseTaskId] *)

Lemma task_segment_shape s : forall seg,
  PostQaMore.task_segment s = Some seg ->
  seg <> [] /\ Forall (fun c => PostQaMore.idc c = true) seg
  /\ includes_ci s (js "/t/") = true.
Proof.
  induction s as [|c r IH]; intros seg H; [discriminate|].
  cbn [PostQaMore.task_segment] in H. cbn [includes_ci].
  destruct (startsWith_ci (c :: r) (js "/t/")) eqn:E.
  - destruct (Regex.takeWhile PostQaMore.idc (skipn 3 (c :: r))) as [|d t] eqn:T.
    + destruct (IH seg H) as (A & B & C). auto.
    + injection H as <-. split; [discriminate|]. split; [|reflexivity].
      rewrite <- T. apply takeWhile_Forall.
  - destruct (IH seg H) as (A & B & C). rewrite C. rewrite orb_true_r. auto.
Qed.

Lemma task_segment_none s :
  Forall (fun c => PostQaMore.idc c = true) s -> PostQaMore.task_segment s = None.
Proof.
  induction 1 as [|c r Hc _ IH]; [reflexivity|].
  cbn [PostQaMore.task_segment]. rewrite IH.
  replace (startsWith_ci (c :: r) (js "/t/")) with false; [reflexivity|].
  symmetry. unfold PostQaMore.idc in Hc.
  apply negb_true_iff in Hc. apply orb_false_iff in Hc. destruct Hc as [Hc _].
  apply orb_false_iff in Hc. destruct Hc as [Hc _]. apply N.eqb_neq in Hc.
  change (startsWith_ci (c :: r) (js "/t/"))
    with (eq_ci 47 c && startsWith_ci r (js "t/")).
  apply andb_false_iff. left. unfold eq_ci.
  change (fold_ci 47) with 47%N. apply N.eqb_neq.
  unfold fold_ci.
  destruct (is_upper c) eqn:U; [apply is_upper_range in U; lia | congruence].
Qed.

(** X14: the identifier [run] works on is stable: [parseTaskId] maps its own
    result to itself, keeps every input without [/], [?] and [#] as it is,
    and when it changes the input the result is a non-empty piece free of
    these three characters taken after a [/t/] marker. *)
Theorem parseTaskId_idempotent (input : jsstring) :
  PostQaMore.parseTaskId (PostQaMore.parseTaskId input)
  = PostQaMore.parseTaskId input
  /\ (PostQaMore.parseTaskId input = input
      \/ PostQaMore.parseTaskId input <> []
         /\ Forall (fun c => PostQaMore.idc c = true) (PostQaMore.parseTaskId input)
         /\ includes_ci input (js "/t/") = true).
Proof.
  unfold PostQaMore.parseTaskId.
  destruct (PostQaMore.task_segment input) as [seg|] eqn:E.
  - destruct (@task_segment_shape _ _ E) as (A & B & C).
    rewrite (@task_segment_none _ B). split; [reflexivity|]. right. auto.
  - rewrite E. split; [reflexivity | left; reflexivity].
Qed.

Lemma startsWith_ci_short p : forall a b,
  (length p <= length a)%nat ->
  startsWith_ci (a ++ b) p = startsWith_ci a p.
Proof.
  induction p as [|x p IH]; intros a b L.
  - destruct a, b; reflexivity.
  - destruct a as [|y a]; simpl in *; [lia|].
    rewrite IH by lia. reflexivity.
Qed.

Lemma takeWhile_stop p id rest :
  Forall (fun c => p c = true) id ->
  match rest with [] => True | c :: _ => p c = false end ->
  Regex.takeWhile p (id ++ rest) = id.
Proof.
  intros F R. rewrite (@takeWhile_all p id F).
  destruct rest as [|c r]; simpl; [|rewrite R]; apply app_nil_r.
Qed.

Lemma task_segment_of_url pre : forall id rest,
  includes_ci (pre ++ js "/t") (js "/t/") = false ->
  id <> [] ->
  Forall (fun c => PostQaMore.idc c = true) id ->
  match rest with [] => True | c :: _ => PostQaMore.idc c = false end ->
  PostQaMore.task_segment (pre ++ js "/t/" ++ id ++ rest) = Some id.
Proof.
  induction pre as [|c p IH]; intros id rest Hn Hid F R.
  - cbn [app js map list_ascii_of_string PostQaMore.task_segment].
    change (startsWith_ci _ (js "/t/")) with true. cbn [skipn].
    rewrite (@takeWhile_stop PostQaMore.idc id rest F R).
    destruct id; [congruence | reflexivity].
  - cbn [includes_ci app] in Hn. apply orb_false_iff in Hn.
    destruct Hn as [Hs Hr].
    change ((c :: p) ++ js "/t/" ++ id ++ rest)
      with (c :: (p ++ js "/t/" ++ id ++ rest)).
    cbn [PostQaMore.task_segment].
    assert (startsWith_ci (c :: p ++ js "/t/" ++ id ++ rest) (js "/t/")
            = startsWith_ci (c :: p ++ js "/t") (js "/t/")) as Eq.
    { replace (c :: p ++ js "/t/" ++ id ++ rest)
        with ((c :: p ++ js "/t") ++ (js "/" ++ id ++ rest)).
      - apply startsWith_ci_short. cbn [length]. rewrite length_app. cbn. lia.
      - cbn [app]. f_equal. rewrite <- app_assoc. reflexivity. }
    rewrite Eq, Hs. apply IH; assumption.
Qed.

(** X15: a task URL gives its identifier: when the marker [/t/] does not occur
    before, [parseTaskId] returns the piece between the marker and the next
    [/], [?], [#] or the end of the input. *)
Theorem parseTaskId_of_url (pre id rest : jsstring) :
  includes_ci (pre ++ js "/t") (js "/t/") = false ->
  id <> [] ->
  Forall (fun c => PostQaMore.idc c = true) id ->
  match rest with [] => True | c :: _ => PostQaMore.idc c = false end ->
  PostQaMore.parseTaskId (pre ++ js "/t/" ++ id ++ rest) = id.
Proof.
  intros Hn Hid F R. unfold PostQaMore.parseTaskId.
  rewrite (@task_segment_of_url pre id rest Hn Hid F R). reflexivity.
Qed.

Lemma parseTaskId_of_url_witness :
  PostQaMore.parseTaskId (js "https://app.clickup.com/t/868fj80zu?comment=1")
  = js "868fj80zu".
Proof.
  apply (@parseTaskId_of_url (js "https://app.clickup.com") (js "868fj80zu")
           (js "?comment=1")).
  - reflexivity.
  - discriminate.
  - repeat constructor.
  - reflexivity.
Defined.


(** ** The comment lists what was found *)

Lemma includes_infix a p b : includes (a ++ p ++ b) p = true.
Proof. apply includes_app_r, startsWith_includes, startsWith_app. Qed.

Lemma join_In sep x l :
  In x l -> exists a b, PostQa.join sep l = a ++ x ++ b.
Proof.
  induction l as [|y l IH]; [intros []|].
  intros [->|H].
  - destruct l as [|z l].
    + exists [], []. cbn. rewrite app_nil_r. reflexivity.
    + exists [], (sep ++ PostQa.join sep (z :: l)). reflexivity.
  - destruct (IH H) as (a & b & E). destruct l as [|z l]; [destruct H|].
    exists (y ++ sep ++ a), b.
    change (PostQa.join sep (y :: z :: l))
      with (y ++ sep ++ PostQa.join sep (z :: l)).
    rewrite E, <- !app_assoc. reflexivity.
Qed.

Lemma linkLines_In url l : forall k,
  In url l ->
  exists i, In (js "- [Link " ++ String_of_nat (i + 1) ++ js "](" ++ url ++ js ")")
               (PostQa.linkLines k l).
Proof.
  induction l as [|u l IH]; intros k; [intros []|].
  intros [->|H].
  - exists k. left. reflexivity.
  - destruct (IH (S k) H) as (i & Hi). exists i. right. exact Hi.
Qed.

Lemma compose_text cfg taskName previewLinks images ids :
  exists banner,
    fst (PostQa.compose cfg taskName previewLinks images ids)
    = banner ++ PostQa.join [10]%N
        (PostQa.buildCommentLines taskName (PostQa.uniqueLinks previewLinks)
           images ids (PostQa.includeMentions cfg)).
Proof.
  unfold PostQa.compose, PostQa.buildComment. cbn [fst].
  destruct (PostQa.isDraft cfg && PostQa.draft_addBanner cfg).
  - exists (PostQa.draft_bannerText cfg ++ [10; 10]%N).
    rewrite <- app_assoc. reflexivity.
  - exists []. reflexivity.
Qed.

(** X16: nothing found is left out of the comment: the text [run] composes holds
    every preview link it was given, as the target of a Markdown link, and
    the address of every image. *)
Theorem comment_shows_links_and_images
    (cfg : PostQa.Config) (taskName : jsstring)
    (previewLinks : list jsstring) (images : list PostQa.Image)
    (mentionIds : list jsstring) :
  let text := fst (PostQa.compose cfg taskName previewLinks images mentionIds) in
  (forall url, In url previewLinks ->
     includes text (js "](" ++ url ++ js ")") = true)
  /\ (forall img, In img images -> includes text (PostQa.img_url img) = true).
Proof.
  intros text. subst text.
  destruct (compose_text cfg taskName previewLinks images mentionIds)
    as (banner & ->).
  assert (forall line piece a b,
            In line (PostQa.buildCommentLines taskName
                       (PostQa.uniqueLinks previewLinks) images mentionIds
                       (PostQa.includeMentions cfg)) ->
            line = a ++ piece ++ b ->
            includes
              (banner ++ PostQa.join [10]%N
                 (PostQa.buildCommentLines taskName
                    (PostQa.uniqueLinks previewLinks) images mentionIds
                    (PostQa.includeMentions cfg))) piece = true) as Shown.
  { intros line piece a b Hl ->.
    destruct (@join_In [10]%N _ _ Hl) as (x & y & ->).
    replace (banner ++ x ++ (a ++ piece ++ b) ++ y)
      with ((banner ++ x ++ a) ++ piece ++ (b ++ y))
      by (rewrite <- !app_assoc; reflexivity).
    apply includes_infix. }
  split.
  - intros url Hu.
    assert (In url (PostQa.uniqueLinks previewLinks)) as Hu'.
    { apply (proj1 (proj2 (of_array_dedup_stable previewLinks))). exact Hu. }
    destruct (@linkLines_In url _ 0%nat Hu') as (i & Hi).
    apply (Shown (js "- [Link " ++ String_of_nat (i + 1) ++ js "](" ++ url ++ js ")")
             (js "](" ++ url ++ js ")")
             (js "- [Link " ++ String_of_nat (i + 1)) []).
    + unfold PostQa.buildCommentLines.
      apply in_or_app; right. apply in_or_app; right. apply in_or_app; left.
      destruct (PostQa.uniqueLinks previewLinks) as [|u0 l0] eqn:E;
        [destruct Hu'|].
      apply in_or_app; right. apply in_or_app; left. exact Hi.
    + rewrite app_nil_r, <- !app_assoc. reflexivity.
  - intros img Hi.
    apply (Shown (PostQa.imageLine img) (PostQa.img_url img)
             (js "- " ++ (if truthy (PostQa.img_name img)
                          then PostQa.img_name img else js "image")
              ++ js " " ++ [0x2192]%N ++ js " ") []).
    + unfold PostQa.buildCommentLines.
      apply in_or_app; right. apply in_or_app; right. apply in_or_app; right.
      destruct images as [|i0 l0]; [destruct Hi|].
      apply in_or_app; right. apply in_map. exact Hi.
    + unfold PostQa.imageLine. rewrite app_nil_r, <- !app_assoc. reflexivity.
Qed.

(** ** After the gate *)

Lemma uploads_accepted_app w e1 : forall h e2,
  uploads_accepted w h (e1 ++ e2)
  = uploads_accepted w h e1 ++ uploads_accepted w (h ++ e1) e2.
Proof.
  induction e1 as [|c e1 IH]; intros h e2.
  - rewrite app_nil_r. reflexivity.
  - cbn [app uploads_accepted]. rewrite IH, <- !app_assoc. reflexivity.
Qed.

Lemma keeps_pure P A (a : A) : keeps P (Pipeline.pure a).
Proof.
  intros w v. exists []. cbn. rewrite !app_nil_r. auto.
Qed.

Lemma keeps_andThen P A B (m : Pipeline.Run A) (k : A -> Pipeline.Run B) :
  keeps P m -> (forall a, keeps P (k a)) -> keeps P (Pipeline.andThen m k).
Proof.
  intros Hm Hk w v. unfold Pipeline.andThen.
  destruct (Hm w v) as (e1 & C1 & F1 & U1 & L1).
  destruct (m w v) as [[a|] v1]; cbn [snd] in *.
  - destruct (Hk a w v1) as (e2 & C2 & F2 & U2 & L2).
    exists (e1 ++ e2). split; [|split; [|split]].
    + rewrite C2, C1, app_assoc. reflexivity.
    + apply Forall_app. auto.
    + rewrite U2, U1, C1, uploads_accepted_app, app_assoc. reflexivity.
    + destruct L2 as [L2|L2]; [|right; exact L2].
      rewrite L2. exact L1.
  - exists e1. auto.
Qed.

Lemma keeps_request (P : Pipeline.Call -> Prop) A c
    (answer : Pipeline.Outside -> list Pipeline.Call -> option A) :
  P c ->
  match c with Pipeline.UploadAttachment _ _ _ => False | _ => True end ->
  keeps P (Pipeline.request c answer).
Proof.
  intros Hc Hn w v. exists [c]. unfold Pipeline.request.
  assert (uploads_accepted w (Pipeline.calls v) [c] = []) as E
    by (destruct c; try reflexivity; destruct Hn).
  rewrite E, app_nil_r.
  destruct (answer w (Pipeline.calls v ++ [c])); cbn; auto.
Qed.

Lemma keeps_extract P buf : keeps P (Pipeline.extractPreviewLinksFromXlsx buf).
Proof.
  intros w v. exists []. unfold Pipeline.extractPreviewLinksFromXlsx.
  destruct (Pipeline.readWorkbook w buf); cbn; rewrite !app_nil_r; auto.
Qed.

Lemma keeps_workbook P buf :
  keeps P (Pipeline.andThen (Pipeline.extractPreviewLinksFromXlsx buf)
             Pipeline.setPreviewLinks).
Proof.
  intros w v. exists [].
  unfold Pipeline.andThen, Pipeline.extractPreviewLinksFromXlsx.
  destruct (Pipeline.readWorkbook w buf) as [wb|] eqn:E; cbn;
    rewrite !app_nil_r; repeat split; auto.
  right. exists buf, wb. auto.
Qed.

Lemma keeps_upload (P : Pipeline.Call -> Prop) TASK_ID filename buf :
  P (Pipeline.UploadAttachment TASK_ID filename buf) ->
  keeps P
    (Pipeline.andThen (Pipeline.cuUploadAttachment TASK_ID filename buf)
       (fun uploadedUrl =>
          Pipeline.pushUploaded {| PostQa.img_name := filename;
                                   PostQa.img_url := uploadedUrl |})).
Proof.
  intros Hc w v. exists [Pipeline.UploadAttachment TASK_ID filename buf].
  unfold Pipeline.andThen, Pipeline.cuUploadAttachment, Pipeline.request.
  cbn [uploads_accepted].
  destruct (Pipeline.uploadedUrl w
              (Pipeline.calls v ++ [Pipeline.UploadAttachment TASK_ID filename buf]));
    cbn; rewrite ?app_nil_r; auto.
Qed.

Lemma keeps_forOf P A (l : list A) (body : A -> Pipeline.Run unit) :
  (forall x, keeps P (body x)) -> keeps P (Pipeline.forOf l body).
Proof.
  intros Hb. induction l as [|x l IH]; cbn [Pipeline.forOf].
  - apply keeps_pure.
  - apply keeps_andThen; [apply Hb | intros _; exact IH].
Qed.

Lemma keeps_readFolder TASK_ID taskName qaFolderUrl token :
  keeps (storage_call qaFolderUrl token TASK_ID)
        (Pipeline.readFolder TASK_ID taskName qaFolderUrl token).
Proof.
  unfold Pipeline.readFolder.
  apply keeps_andThen; [apply keeps_request; cbn; auto|]. intros rootItems.
  apply keeps_andThen.
  { destruct (SharepointB.findTaskSubfolder rootItems taskName);
      [apply keeps_request; cbn; auto | apply keeps_pure]. }
  intros items. apply keeps_andThen.
  { destruct (SharepointB.findExcelForTask items taskName);
      [|apply keeps_pure].
    apply keeps_andThen; [apply keeps_request; cbn; auto|].
    intros buf. apply keeps_workbook. }
  intros _. apply keeps_forOf. intros img.
  apply keeps_andThen; [apply keeps_request; cbn; auto|].
  intros buf. apply keeps_upload. reflexivity.
Qed.

Lemma keeps_tryCatch P (m : Pipeline.Run unit) :
  keeps P m -> keeps P (Pipeline.tryCatch m)
  /\ forall w v, fst (Pipeline.tryCatch m w v) = PostQa.Ok tt.
Proof.
  intros H. split; intros w v; [specialize (H w v)|];
    unfold Pipeline.tryCatch; destruct (m w v) as [[[]|] v']; auto.
Qed.

(** X17: once the gate is passed, [run] ends in one of three ways.  Without an
    address in the QA Doc field it calls nothing.  When the token request
    throws, it stops there, with no comment.  Otherwise it posts exactly
    one comment, as its last call, whatever the storage service, the
    spreadsheet library and the uploads answer: every failure in between is
    caught.  The calls in between go to the storage service with the token
    obtained, the first listing for the address of the field, and upload to
    the task itself only; without a token there are none.  The comment
    lists the images the tracker accepted, in the order of the uploads, or
    the image attachments of the task when there are none; its links are
    those of a workbook the library read, or else, and always without a
    token, those of the description. *)
Theorem afterGate_posts_once
    (cfg : Pipeline.Settings) (TASK_ID : jsstring) (task : PostQa.Task)
    (attachments : list Pipeline.Attachment) (w : Pipeline.Outside) :
  let out := Pipeline.afterGate cfg TASK_ID task attachments w Pipeline.start in
  match qaFolderUrl_of cfg task with
  | [] => out = (PostQa.Ok tt, Pipeline.start)
  | _ :: _ =>
      match Pipeline.graphToken w [Pipeline.GetGraphToken] with
      | PostQa.Throw =>
          fst out = PostQa.Throw
          /\ Pipeline.calls (snd out) = [Pipeline.GetGraphToken]
      | PostQa.Ok token =>
          exists mid links,
            let images :=
              match uploads_accepted w [Pipeline.GetGraphToken] mid with
              | [] => map Pipeline.taskAttachment
                          (Pipeline.selectTaskImageAttachments cfg attachments)
              | l => l
              end in
            let comment :=
              PostQa.compose (Pipeline.config cfg) (taskName_of TASK_ID task)
                links images (Pipeline.resolveMentionIdsFromTask cfg task) in
            Pipeline.calls (snd out)
            = Pipeline.GetGraphToken :: mid
              ++ [Pipeline.Post (fst comment) (snd comment)]
            /\ Forall (storage_call (qaFolderUrl_of cfg task)
                         (match token with Some t => t | None => [] end)
                         TASK_ID) mid
            /\ (PostQa.str_or token [] = [] ->
                mid = [] /\ links = PostQa.descriptionLinks task)
            /\ (links = PostQa.descriptionLinks task
                \/ exists buf wb,
                     Pipeline.readWorkbook w buf = Some wb
                     /\ links = SharepointB.extractPreviewLinksFromXlsx wb
                     /\ links <> [])
            /\ fst out
               = (if Pipeline.postAccepted w (Pipeline.calls (snd out))
                  then PostQa.Ok tt else PostQa.Throw)
      end
  end.
Proof.
  intros out. subst out. unfold qaFolderUrl_of, Pipeline.afterGate.
  destruct (Pipeline.getTextFieldValue
              (PostQa.findCustomField task (Pipeline.qaDocUrl cfg)))
    as [|u0 url] eqn:Eu; [reflexivity|].
  cbn [truthy negb].
  unfold Pipeline.andThen, Pipeline.getGraphToken.
  change (Pipeline.calls Pipeline.start ++ [Pipeline.GetGraphToken])
    with [Pipeline.GetGraphToken].
  destruct (Pipeline.graphToken w [Pipeline.GetGraphToken]) as [token|];
    [|split; reflexivity].
  set (v1 := {| Pipeline.calls := [Pipeline.GetGraphToken];
                Pipeline.previewLinks := Pipeline.previewLinks Pipeline.start;
                Pipeline.uploadedImages := Pipeline.uploadedImages Pipeline.start |}).
  assert (keeps (storage_call (u0 :: url)
                   (match token with Some t => t | None => [] end) TASK_ID)
                (Pipeline.step3 TASK_ID
                   (PostQa.str_or (PostQa.task_name task) TASK_ID)
                   (u0 :: url) token)
          /\ (forall w v,
                fst (Pipeline.step3 TASK_ID
                       (PostQa.str_or (PostQa.task_name task) TASK_ID)
                       (u0 :: url) token w v) = PostQa.Ok tt)
          /\ (PostQa.str_or token [] = [] ->
              forall w v,
                snd (Pipeline.step3 TASK_ID
                       (PostQa.str_or (PostQa.task_name task) TASK_ID)
                       (u0 :: url) token w v) = v)) as (K & R & Q).
  { unfold Pipeline.step3. destruct token as [t|].
    - destruct t as [|c t]; cbn [truthy].
      + split; [apply keeps_pure|]. split; reflexivity.
      + destruct (@keeps_tryCatch
                    (storage_call (u0 :: url) (c :: t) TASK_ID)
                    (Pipeline.readFolder TASK_ID
                       (PostQa.str_or (PostQa.task_name task) TASK_ID)
                       (u0 :: url) (c :: t))
                    (keeps_readFolder _ _ _ _)) as (K & R).
        split; [exact K|]. split; [exact R|]. intros Hx. discriminate Hx.
    - split; [apply keeps_pure|]. split; reflexivity. }
  destruct (K w v1) as (mid & C & F & U & L).
  specialize (R w v1).
  destruct (Pipeline.step3 TASK_ID
              (PostQa.str_or (PostQa.task_name task) TASK_ID)
              (u0 :: url) token w v1) as [r v2] eqn:E3.
  cbn [fst snd] in *. subst r.
  unfold Pipeline.vars, Pipeline.cuPost, Pipeline.request.
  unfold taskName_of.
  exists mid, (Pipeline.finalLinks task v2).
  cbn zeta.
  assert (Pipeline.finalImages cfg attachments v2
          = match uploads_accepted w [Pipeline.GetGraphToken] mid with
            | [] => map Pipeline.taskAttachment
                        (Pipeline.selectTaskImageAttachments cfg attachments)
            | l => l
            end) as EI.
  { unfold Pipeline.finalImages. rewrite U. reflexivity. }
  rewrite <- EI.
  set (comment := PostQa.compose (Pipeline.config cfg)
                    (PostQa.str_or (PostQa.task_name task) TASK_ID)
                    (Pipeline.finalLinks task v2)
                    (Pipeline.finalImages cfg attachments v2)
                    (Pipeline.resolveMentionIdsFromTask cfg task)).
  assert (Pipeline.calls v2 ++ [Pipeline.Post (fst comment) (snd comment)]
          = Pipeline.GetGraphToken :: mid
            ++ [Pipeline.Post (fst comment) (snd comment)]) as EC
    by (rewrite C; reflexivity).
  split; [|split; [|split; [|split]]].
  - destruct (Pipeline.postAccepted w
                (Pipeline.calls v2 ++ [Pipeline.Post (fst comment) (snd comment)]));
      cbn [snd Pipeline.calls]; exact EC.
  - exact F.
  - intros Hx. specialize (Q Hx w v1). rewrite E3 in Q. cbn [snd] in Q.
    subst v2. cbn [Pipeline.calls v1] in C. split; [|reflexivity].
    destruct mid; [reflexivity|]. cbn in C. discriminate C.
  - unfold Pipeline.finalLinks.
    destruct (Pipeline.previewLinks v2) as [|l0 ls] eqn:EL; [left; reflexivity|].
    destruct L as [L|(buf & wb & Hr & L)].
    + discriminate L.
    + right. exists buf, wb. rewrite <- L. repeat split; auto. discriminate.
  - destruct (Pipeline.postAccepted w
                (Pipeline.calls v2 ++ [Pipeline.Post (fst comment) (snd comment)]))
      eqn:EP; cbn [fst snd Pipeline.calls]; rewrite EP; reflexivity.
Qed.

Lemma forOf_images_links TASK_ID token (l : list SharepointB.DriveItem) :
  forall w v,
    Pipeline.previewLinks
      (snd (Pipeline.forOf l
              (fun img =>
                 Pipeline.andThen
                   (Pipeline.downloadItemBuffer (SharepointB.driveId img)
                      (SharepointB.id img) token)
                   (fun buf =>
                      Pipeline.andThen
                        (Pipeline.cuUploadAttachment TASK_ID
                           (SharepointB.name img) buf)
                        (fun uploadedUrl =>
                           Pipeline.pushUploaded
                             {| PostQa.img_name := SharepointB.name img;
                                PostQa.img_url := uploadedUrl |})))
              w v))
    = Pipeline.previewLinks v.
Proof.
  induction l as [|img l IH]; intros w v; [reflexivity|].
  cbn [Pipeline.forOf]. unfold Pipeline.andThen at 1.
  unfold Pipeline.andThen at 1.
  unfold Pipeline.downloadItemBuffer at 1. unfold Pipeline.request at 1.
  destruct (Pipeline.itemBuffer w _) as [buf|]; [|reflexivity].
  unfold Pipeline.andThen at 1.
  unfold Pipeline.cuUploadAttachment at 1. unfold Pipeline.request at 1.
  cbn [Pipeline.calls Pipeline.previewLinks Pipeline.uploadedImages].
  destruct (Pipeline.uploadedUrl w _) as [u|]; [|reflexivity].
  unfold Pipeline.pushUploaded at 1. rewrite IH. reflexivity.
Qed.

(** X18: links read from the spreadsheet survive what fails after them: when
    the folder is listed, has no subfolder named after the task, its
    spreadsheet is downloaded and read and holds at least one link, the
    comment posted shows exactly these links, whatever the downloads and
    uploads of the images answer; and it lists the images accepted until
    the first failure, or the attachments of the task when there are
    none. *)
Theorem links_survive_image_failures
    (cfg : Pipeline.Settings) (TASK_ID : jsstring) (task : PostQa.Task)
    (attachments : list Pipeline.Attachment) (w : Pipeline.Outside)
    (token : jsstring) (items : list SharepointB.DriveItem)
    (excelItem : SharepointB.DriveItem) (buf : Pipeline.Buffer)
    (wb : Xlsx.workbook Xlsx.grid) :
  let url := qaFolderUrl_of cfg task in
  let h1 := [Pipeline.GetGraphToken; Pipeline.ListFolderItems url token] in
  let h2 := h1 ++ [Pipeline.DownloadItemBuffer (SharepointB.driveId excelItem)
                     (SharepointB.id excelItem) token] in
  truthy url = true ->
  truthy token = true ->
  Pipeline.graphToken w [Pipeline.GetGraphToken] = PostQa.Ok (Some token) ->
  Pipeline.folderItems w h1 = Some items ->
  SharepointB.findTaskSubfolder items (taskName_of TASK_ID task) = None ->
  SharepointB.findExcelForTask items (taskName_of TASK_ID task) = Some excelItem ->
  Pipeline.itemBuffer w h2 = Some buf ->
  Pipeline.readWorkbook w buf = Some wb ->
  SharepointB.extractPreviewLinksFromXlsx wb <> [] ->
  exists mid,
    let images :=
      match uploads_accepted w h2 mid with
      | [] => map Pipeline.taskAttachment
                  (Pipeline.selectTaskImageAttachments cfg attachments)
      | l => l
      end in
    let comment :=
      PostQa.compose (Pipeline.config cfg) (taskName_of TASK_ID task)
        (SharepointB.extractPreviewLinksFromXlsx wb) images
        (Pipeline.resolveMentionIdsFromTask cfg task) in
    Pipeline.calls
      (snd (Pipeline.afterGate cfg TASK_ID task attachments w Pipeline.start))
    = h2 ++ mid ++ [Pipeline.Post (fst comment) (snd comment)].
Proof.
  intros url h1 h2 Hu Ht Hg Hi Hs He Hb Hw Hl.
  subst h2 h1 url. unfold qaFolderUrl_of, taskName_of in *.
  unfold Pipeline.afterGate. rewrite Hu. cbn [negb].
  unfold Pipeline.andThen at 1. unfold Pipeline.getGraphToken at 1.
  cbn [Pipeline.calls Pipeline.start app]. rewrite Hg.
  unfold Pipeline.andThen at 1. unfold Pipeline.step3. rewrite Ht.
  unfold Pipeline.tryCatch, Pipeline.readFolder.
  unfold Pipeline.andThen at 1.
  unfold Pipeline.listFolderItems at 1. unfold Pipeline.request at 1.
  cbn [Pipeline.calls Pipeline.previewLinks Pipeline.uploadedImages
       Pipeline.start app].
  rewrite Hi.
  unfold Pipeline.andThen at 1. rewrite Hs. unfold Pipeline.pure at 1.
  unfold Pipeline.andThen at 1. rewrite He.
  unfold Pipeline.andThen at 1.
  unfold Pipeline.downloadItemBuffer at 1. unfold Pipeline.request at 1.
  cbn [Pipeline.calls Pipeline.previewLinks Pipeline.uploadedImages app].
  cbn [app] in Hb. rewrite Hb.
  unfold Pipeline.andThen at 1.
  unfold Pipeline.extractPreviewLinksFromXlsx at 1. rewrite Hw.
  unfold Pipeline.setPreviewLinks at 1.
  cbn [Pipeline.calls Pipeline.previewLinks Pipeline.uploadedImages].
  match goal with
  | |- context [Pipeline.forOf ?l ?body w ?v] =>
      set (loop := Pipeline.forOf l body); set (v3 := v)
  end.
  assert (keeps (storage_call
                   (Pipeline.getTextFieldValue
                      (PostQa.findCustomField task (Pipeline.qaDocUrl cfg)))
                   token TASK_ID) loop) as K.
  { subst loop. apply keeps_forOf. intros img.
    apply keeps_andThen; [apply keeps_request; cbn; auto|].
    intros b. apply keeps_upload. reflexivity. }
  destruct (K w v3) as (mid & C & _ & U & _).
  pose proof (forOf_images_links TASK_ID token
                (SharepointB.getImageFiles items) w v3) as L.
  fold loop in L.
  exists mid.
  destruct (loop w v3) as [r v4]. cbn [snd] in C, U, L.
  assert (Pipeline.finalLinks task v4 = SharepointB.extractPreviewLinksFromXlsx wb)
    as EL.
  { unfold Pipeline.finalLinks. rewrite L. cbn [Pipeline.previewLinks v3].
    destruct (SharepointB.extractPreviewLinksFromXlsx wb); [congruence | reflexivity]. }
  assert (Pipeline.finalImages cfg attachments v4
          = match uploads_accepted w (Pipeline.calls v3) mid with
            | [] => map Pipeline.taskAttachment
                        (Pipeline.selectTaskImageAttachments cfg attachments)
            | l => l
            end) as EI.
  { unfold Pipeline.finalImages. rewrite U. reflexivity. }
  cbv zeta.
  assert (forall (r : PostQa.Res unit),
            Pipeline.calls
              (snd (let (r0, v') := match r with
                                     | PostQa.Ok _ => (PostQa.Ok tt, v4)
                                     | PostQa.Throw => (PostQa.Ok tt, v4)
                                     end in
                    match r0 with
                    | PostQa.Ok a =>
                        Pipeline.andThen Pipeline.vars
                          (fun v =>
                             Pipeline.cuPost
                               (fst (PostQa.compose (Pipeline.config cfg)
                                       (PostQa.str_or (PostQa.task_name task) TASK_ID)
                                       (Pipeline.finalLinks task v)
                                       (Pipeline.finalImages cfg attachments v)
                                       (Pipeline.resolveMentionIdsFromTask cfg task)))
                               (snd (PostQa.compose (Pipeline.config cfg)
                                       (PostQa.str_or (PostQa.task_name task) TASK_ID)
                                       (Pipeline.finalLinks task v)
                                       (Pipeline.finalImages cfg attachments v)
                                       (Pipeline.resolveMentionIdsFromTask cfg task))))
                          w v'
                    | PostQa.Throw => (PostQa.Throw, v')
                    end))
            = Pipeline.calls v4
              ++ [Pipeline.Post
                    (fst (PostQa.compose (Pipeline.config cfg)
                            (PostQa.str_or (PostQa.task_name task) TASK_ID)
                            (Pipeline.finalLinks task v4)
                            (Pipeline.finalImages cfg attachments v4)
                            (Pipeline.resolveMentionIdsFromTask cfg task)))
                    (snd (PostQa.compose (Pipeline.config cfg)
                            (PostQa.str_or (PostQa.task_name task) TASK_ID)
                            (Pipeline.finalLinks task v4)
                            (Pipeline.finalImages cfg attachments v4)
                            (Pipeline.resolveMentionIdsFromTask cfg task)))]) as Fin.
  { intros r0. unfold Pipeline.andThen, Pipeline.vars, Pipeline.cuPost,
      Pipeline.request.
    destruct r0; destruct (Pipeline.postAccepted w _); reflexivity. }
  rewrite Fin, EL, EI, C. cbn [Pipeline.calls v3].
  rewrite <- app_assoc. reflexivity.
Qed.

Lemma links_survive_image_failures_witness :
  let task := task_with "Needs Approval (Dev)" (PostQa.JBool true) in
  let h2 := [Pipeline.GetGraphToken;
             Pipeline.ListFolderItems (js "https://sp/x") (js "tok");
             Pipeline.DownloadItemBuffer (js "drive") (js "CF-123.xlsx") (js "tok")] in
  exists mid,
    let images :=
      match uploads_accepted second_image_fails h2 mid with
      | [] => map Pipeline.taskAttachment
                  (Pipeline.selectTaskImageAttachments settings_part_002 [])
      | l => l
      end in
    let comment :=
      PostQa.compose config_part_001 (js "CF-123") [link_x; link_y] images
        (Pipeline.resolveMentionIdsFromTask settings_part_002 task) in
    Pipeline.calls
      (snd (Pipeline.afterGate settings_part_002 (js "868fj80zu") task []
              second_image_fails Pipeline.start))
    = h2 ++ mid ++ [Pipeline.Post (fst comment) (snd comment)].
Proof.
  intros task h2.
  apply (@links_survive_image_failures settings_part_002 (js "868fj80zu") task []
           second_image_fails (js "tok")
           [entryB "CF-123.xlsx" false; entryB "a.png" false; entryB "b.png" false]
           (entryB "CF-123.xlsx" false) [80; 75]%N repeated_link).
  - reflexivity.
  - reflexivity.
  - reflexivity.
  - reflexivity.
  - reflexivity.
  - reflexivity.
  - reflexivity.
  - reflexivity.
  - discriminate.
Defined.

(** In that run the second image cannot be downloaded: the comment is
    posted all the same, with both links and the first image. *)
Example second_image_fails_run :
  let task := task_with "Needs Approval (Dev)" (PostQa.JBool true) in
  let out := Pipeline.afterGate settings_part_002 (js "868fj80zu") task []
               second_image_fails Pipeline.start in
  fst out = PostQa.Ok tt
  /\ Pipeline.calls (snd out)
     = [Pipeline.GetGraphToken;
        Pipeline.ListFolderItems (js "https://sp/x") (js "tok");
        Pipeline.DownloadItemBuffer (js "drive") (js "CF-123.xlsx") (js "tok");
        Pipeline.DownloadItemBuffer (js "drive") (js "a.png") (js "tok");
        Pipeline.UploadAttachment (js "868fj80zu") (js "a.png") [80; 75]%N;
        Pipeline.DownloadItemBuffer (js "drive") (js "b.png") (js "tok");
        Pipeline.Post
          (fst (PostQa.compose config_part_001 (js "CF-123") [link_x; link_y]
                  [{| PostQa.img_name := js "a.png";
                      PostQa.img_url := js "https://cu/a.png" |}] []))
          false].
Proof. vm_compute. split; reflexivity. Qed.

(** ** The share id *)

Lemma list_ind3 (A : Type) (P : list A -> Prop) :
  P [] -> (forall a, P [a]) -> (forall a b, P [a; b]) ->
  (forall a b c r, P r -> P (a :: b :: c :: r)) ->
  forall l, P l.
Proof.
  intros H0 H1 H2 H3 l.
  assert (P l /\ (forall a, P (a :: l)) /\ (forall a b, P (a :: b :: l))) as H;
    [|exact (proj1 H)].
  induction l as [|x l (I0 & I1 & I2)]; [auto|].
  split; [apply I1|]. split; [intros a; apply I2|].
  intros a b. apply H3. exact I0.
Qed.

Lemma b64url_spec i : urlsafe (b64url i) = true /\ sextet_of (b64url i) = (i mod 64)%N.
Proof.
  unfold b64url, ShareId.b64.
  assert (N.to_nat (i mod 64) < 64)%nat as L
    by (pose proof (N.mod_upper_bound i 64); lia).
  remember (N.to_nat (i mod 64)) as k eqn:Ek.
  assert ((i mod 64)%N = N.of_nat k) as Ei by lia.
  rewrite Ei. clear Ek Ei.
  assert (forallb
            (fun k =>
               let x := nth k ShareId.alphabet 0%N in
               let c := (if (if x =? 43 then 45 else x) =? 47 then 95
                         else if x =? 43 then 45 else x)%N in
               urlsafe c && (sextet_of c =? N.of_nat k)%N)
            (seq 0 64) = true) as T by (vm_compute; reflexivity).
  rewrite forallb_forall in T. specialize (T k).
  rewrite in_seq in T. specialize (T ltac:(lia)). cbv zeta in T.
  apply andb_true_iff in T. destruct T as [T1 T2]. apply N.eqb_eq in T2.
  split; assumption.
Qed.

Lemma urlsafe_not_pad c : urlsafe c = true -> (c =? 61)%N = false.
Proof.
  intros H. apply N.eqb_neq. intros ->. discriminate H.
Qed.

Lemma strip_padding_keep c r :
  (c =? 61)%N = false ->
  ShareId.strip_padding (c :: r) = c :: ShareId.strip_padding r.
Proof.
  intros H. cbn [ShareId.strip_padding]. rewrite H.
  destruct (ShareId.strip_padding r); reflexivity.
Qed.

Lemma shareId_body_unfold bytes :
  shareId_body bytes
  = match bytes with
    | [] => []
    | [a] => [b64url (a / 4); b64url ((a mod 4) * 16)]
    | [a; b] =>
        [b64url (a / 4); b64url ((a mod 4) * 16 + b / 16);
         b64url ((b mod 16) * 4)]
    | a :: b :: c :: r =>
        b64url (a / 4) :: b64url ((a mod 4) * 16 + b / 16)
        :: b64url ((b mod 16) * 4 + c / 64) :: b64url (c mod 64)
        :: shareId_body r
    end%N.
Proof.
  assert (forall i, (b64url i =? 61)%N = false) as K
    by (intros i; apply urlsafe_not_pad, b64url_spec).
  unfold shareId_body.
  destruct bytes as [|a [|b [|c r]]]; [reflexivity| | |].
  - cbn [ShareId.base64 ShareId.replace_plus ShareId.replace_slash map].
    fold (b64url (a / 4)). fold (b64url ((a mod 4) * 16)).
    rewrite !strip_padding_keep by apply K. reflexivity.
  - cbn [ShareId.base64 ShareId.replace_plus ShareId.replace_slash map].
    fold (b64url (a / 4)). fold (b64url ((a mod 4) * 16 + b / 16)).
    fold (b64url ((b mod 16) * 4)).
    rewrite !strip_padding_keep by apply K. reflexivity.
  - cbn [ShareId.base64 ShareId.replace_plus ShareId.replace_slash map].
    fold (b64url (a / 4)). fold (b64url ((a mod 4) * 16 + b / 16)).
    fold (b64url ((b mod 16) * 4 + c / 64)). fold (b64url (c mod 64)).
    rewrite !strip_padding_keep by apply K. reflexivity.
Qed.

Lemma shareId_body_urlsafe bytes :
  Forall (fun c => urlsafe c = true) (shareId_body bytes)
  /\ length (shareId_body bytes) = ((4 * length bytes + 2) / 3)%nat.
Proof.
  induction bytes as [|a|a b|a b c r [IH1 IH2]] using list_ind3;
    rewrite shareId_body_unfold.
  - split; [constructor | reflexivity].
  - split; [repeat constructor; apply b64url_spec | reflexivity].
  - split; [repeat constructor; apply b64url_spec | reflexivity].
  - split; [repeat constructor; try apply b64url_spec; exact IH1|].
    cbn [length]. rewrite IH2.
    replace (4 * S (S (S (length r))) + 2)%nat
      with (4 * length r + 2 + 4 * 3)%nat by lia.
    rewrite Nat.div_add by discriminate. lia.
Qed.

(** X19: the share id of a folder address needs no escaping in the path of the
    request: after ["u!"] it holds only letters, digits, [-] and [_], four
    characters for three bytes of the address in UTF-8, with no padding.
    Both revisions compute the same id. *)
Theorem shareId_urlsafe (url : jsstring) :
  exists body,
    ShareId.encodeSharingUrl url = js "u!" ++ body
    /\ ShareId.urlToGraphShareId url = js "u!" ++ body
    /\ Forall (fun c => urlsafe c = true) body
    /\ length body = ((4 * length (ShareId.utf8 url) + 2) / 3)%nat.
Proof.
  exists (shareId_body (ShareId.utf8 url)).
  split; [reflexivity|]. split; [reflexivity|].
  apply shareId_body_urlsafe.
Qed.

Ltac divmod := zify; Z.to_euclidean_division_equations; lia.

Lemma utf8_bytes_upto n : forall url,
  (length url <= n)%nat ->
  Forall (fun c => (c < 65536)%N) url ->
  Forall (fun b => (b < 256)%N) (ShareId.utf8 url).
Proof.
  induction n as [|n IH]; intros [|c r] L F; try (constructor; fail);
    cbn [length] in L; [lia|].
  inversion F as [|x y Hc Fr]; subst.
  assert (Forall (fun b => (b < 256)%N) (ShareId.utf8 r)) as Hr
    by (apply IH; [lia | exact Fr]).
  cbn [ShareId.utf8].
  destruct (c <? 128)%N eqn:E1; [apply N.ltb_lt in E1; constructor; [lia | exact Hr]|].
  apply N.ltb_ge in E1.
  destruct (c <? 2048)%N eqn:E2.
  { apply N.ltb_lt in E2. repeat constructor; try exact Hr; divmod. }
  apply N.ltb_ge in E2.
  destruct (ShareId.is_high c) eqn:Eh.
  - unfold ShareId.is_high in Eh. apply andb_true_iff in Eh.
    destruct Eh as [Eh1 Eh2]. apply N.leb_le in Eh1, Eh2.
    destruct r as [|d r']; [repeat constructor|].
    destruct (ShareId.is_low d) eqn:El.
    + unfold ShareId.is_low in El. apply andb_true_iff in El.
      destruct El as [El1 El2]. apply N.leb_le in El1, El2.
      inversion Fr; subst.
      assert (Forall (fun b => (b < 256)%N) (ShareId.utf8 r')) as Hr'
        by (apply IH; [cbn [length] in L; lia | assumption]).
      repeat constructor; try exact Hr'; divmod.
    + repeat constructor; exact Hr.
  - destruct (ShareId.is_low c); repeat constructor; try exact Hr; divmod.
Qed.

Lemma bytes_round_trip bytes :
  Forall (fun b => (b < 256)%N) bytes ->
  bytes_of_base64url (shareId_body bytes) = bytes.
Proof.
  induction bytes as [|a|a b|a b c r IH] using list_ind3; intros F;
    rewrite shareId_body_unfold.
  - reflexivity.
  - inversion F; subst. cbn [bytes_of_base64url].
    rewrite !(proj2 (b64url_spec _)). f_equal. divmod.
  - inversion F as [|? ? Ha F']; subst. inversion F'; subst.
    cbn [bytes_of_base64url].
    rewrite !(proj2 (b64url_spec _)). f_equal; [|f_equal]; divmod.
  - inversion F as [|? ? Ha F']; subst. inversion F' as [|? ? Hb F'']; subst.
    inversion F'' as [|? ? Hc Fr]; subst.
    cbn [bytes_of_base64url].
    rewrite !(proj2 (b64url_spec _)), (IH Fr).
    f_equal; [|f_equal; [|f_equal]]; divmod.
Qed.

(** X20: the share id loses nothing of the address: read back as Base64 with
    the two replaced characters, the text after ["u!"] gives the UTF-8
    bytes of the address again, so two addresses with the same id have the
    same bytes. *)
Theorem shareId_round_trip (url : jsstring) :
  Forall (fun c => (c < 65536)%N) url ->
  exists body,
    ShareId.urlToGraphShareId url = js "u!" ++ body
    /\ ShareId.encodeSharingUrl url = js "u!" ++ body
    /\ bytes_of_base64url body = ShareId.utf8 url.
Proof.
  intros F. exists (shareId_body (ShareId.utf8 url)).
  split; [reflexivity|]. split; [reflexivity|].
  apply bytes_round_trip. exact (@utf8_bytes_upto _ url (le_n _) F).
Qed.

Lemma shareId_round_trip_witness :
  exists body,
    ShareId.urlToGraphShareId (js "https://x.sharepoint.com/:f:/s/QA?e=1")
    = js "u!" ++ body
    /\ ShareId.encodeSharingUrl (js "https://x.sharepoint.com/:f:/s/QA?e=1")
       = js "u!" ++ body
    /\ bytes_of_base64url body
       = ShareId.utf8 (js "https://x.sharepoint.com/:f:/s/QA?e=1").
Proof.
  apply (@shareId_round_trip (js "https://x.sharepoint.com/:f:/s/QA?e=1")).
  repeat constructor.
Defined.
